(** * Timisoara Accessibility Map: client-side scripts

    A shallow embedding of [app/static/js/form-validation.js] (the classes
    [FormValidator], [AccessibilityFilters] and [AccessibilityMap]) and of
    [app/static/js/app.js] (the class [AccessibilityApp]), followed by the
    properties established for them.

    The first part models the pieces of the JavaScript platform the scripts
    rely on: strings as sequences of UTF-16 code units, numbers as IEEE 754
    binary64 values, dynamically typed values, [JSON.stringify] and
    [JSON.parse], [localStorage], and promise chains.  The second part
    translates the four classes method by method.  The third part holds the
    theorems. *)

From Stdlib Require Import ZArith NArith List String Ascii Bool Lia.
From Stdlib Require Import DecimalString SpecFloat.
From stdpp Require Import base option list gmap.

Set Warnings "-register-all,-abstract-large-number".
Local Open Scope Z_scope.

(* ===================================================================== *)
(** * Part I. The platform                                                *)
(* ===================================================================== *)

(** ** Strings *)

Module JSString.

(** A JavaScript string is a finite sequence of 16-bit code units. *)
Abbreviation t := (list N).

(** A literal of the source text; every character of the literals used
    here is ASCII, so the code unit is the character code. *)
Definition js (s : string) : t := N_of_ascii <$> list_ascii_of_string s.

Definition eqb (a b : t) : bool := bool_decide (a = b).

Definition length (s : t) : Z := Z.of_nat (List.length s).

(** [WhiteSpace] and [LineTerminator] of ECMA-262, as stripped by
    [String.prototype.trim] and skipped by the numeric conversions. *)
Definition is_white_space (c : N) : bool :=
  ((9 <=? c) && (c <=? 13) || (c =? 32) || (c =? 160) || (c =? 5760)
   || (8192 <=? c) && (c <=? 8202) || (c =? 8232) || (c =? 8233)
   || (c =? 8239) || (c =? 8287) || (c =? 12288) || (c =? 65279))%N.

Fixpoint trimStart (s : t) : t :=
  match s with
  | c :: s' => if is_white_space c then trimStart s' else s
  | [] => []
  end.

Definition trimEnd (s : t) : t := rev (trimStart (rev s)).

Definition trim (s : t) : t := trimEnd (trimStart s).

(** [s.startsWith(p)]; on success the remainder after the prefix. *)
Fixpoint strip_prefix (p s : t) : option t :=
  match p, s with
  | [], _ => Some s
  | a :: p', b :: s' => if (a =? b)%N then strip_prefix p' s' else None
  | _ :: _, [] => None
  end.

Definition startsWith (s p : t) : bool :=
  match strip_prefix p s with Some _ => true | None => false end.

(** [s.includes(p)] *)
Fixpoint includes (s p : t) : bool :=
  match strip_prefix p s with
  | Some _ => true
  | None => match s with
            | [] => false
            | _ :: s' => includes s' p
            end
  end.

(** [Array.prototype.join] on an array of strings. *)
Fixpoint join (sep : t) (l : list t) : t :=
  match l with
  | [] => []
  | [x] => x
  | x :: rest => x ++ sep ++ join sep rest
  end.

(** [s.split(sep)] for a one-unit separator. *)
Fixpoint split (sep : N) (s : t) : list t :=
  match s with
  | [] => [[]]
  | c :: s' =>
      if (c =? sep)%N then [] :: split sep s'
      else match split sep s' with
           | w :: ws => (c :: w) :: ws
           | [] => [[c]]
           end
  end.

Definition is_digit (c : N) : bool := ((48 <=? c) && (c <=? 57))%N.
Definition is_lower (c : N) : bool := ((97 <=? c) && (c <=? 122))%N.
Definition is_upper (c : N) : bool := ((65 <=? c) && (c <=? 90))%N.
Definition is_alpha (c : N) : bool := is_lower c || is_upper c.
Definition is_alnum (c : N) : bool := is_alpha c || is_digit c.

(** The decimal digits of a natural number, most significant first. *)
Definition of_N (n : N) : t := js (NilZero.string_of_uint (N.to_uint n)).

Definition of_Z (z : Z) : t :=
  match z with
  | Zneg p => js "-" ++ of_N (Npos p)
  | _ => of_N (Z.to_N z)
  end.

(** The value of a run of decimal digits. *)
Definition digits_value (ds : t) : Z :=
  fold_left (fun acc c => 10 * acc + (Z.of_N c - 48)) ds 0.

(** The longest prefix of decimal digits, and what follows it. *)
Fixpoint span_digits (s : t) : t * t :=
  match s with
  | c :: s' =>
      if is_digit c then let (ds, r) := span_digits s' in (c :: ds, r)
      else ([], s)
  | [] => ([], [])
  end.

End JSString.

Abbreviation jsstring := JSString.t.
Abbreviation js := JSString.js.

(** ** Numbers *)

Module Number.

(** A JavaScript number is an IEEE 754 binary64 value. *)
Abbreviation t := spec_float.

Definition prec : Z := 53.
Definition emax : Z := 1024.

Definition NaN : t := S754_nan.
Definition Infinity : t := S754_infinity false.

Definition isNaN (x : t) : bool :=
  match x with S754_nan => true | _ => false end.

Definition isFinite (x : t) : bool :=
  match x with S754_nan | S754_infinity _ => false | _ => true end.

Definition is_zero (x : t) : bool :=
  match x with S754_zero _ => true | _ => false end.

#[global] Instance eq_dec : EqDecision spec_float.
Proof. solve_decision. Defined.

(** The comparison operators [<=], [>=], [<], [>] and [===] on numbers;
    every comparison with [NaN] is false. *)
Definition le (x y : t) : bool := SFleb x y.
Definition ge (x y : t) : bool := SFleb y x.
Definition lt (x y : t) : bool := SFltb x y.
Definition gt (x y : t) : bool := SFltb y x.
Definition strict_eq (x y : t) : bool := SFeqb x y.

Definition neg (x : t) : t := SFopp x.

(** The number nearest to m * 10^e (ties to even), with the sign [sgn]:
    the rounding applied to numeric literals of the source text and by the
    conversions from strings. *)
Definition of_decimal (sgn : bool) (m : Z) (e : Z) : t :=
  match m with
  | Zpos _ =>
      if 0 <=? e then
        match m * 10 ^ e with
        | Zpos q => binary_round prec emax sgn q 0
        | _ => S754_nan
        end
      else
        let d := 10 ^ (- e) in
        let k := Z.max 0 (64 + Z.log2 d - Z.log2 m) in
        let (q, r) := Z.div_eucl (Z.shiftl m k) d in
        binary_round_aux prec emax sgn q (- k) (new_location d r)
  | _ => S754_zero sgn
  end.

Definition of_Z (z : Z) : t := of_decimal (z <? 0) (Z.abs z) 0.

(** *** Number::toString *)

(** A positive finite number as the fraction num / den. *)
Definition to_fraction (m : positive) (e : Z) : Z * Z :=
  if 0 <=? e then (Zpos m * 2 ^ e, 1) else (Zpos m, 2 ^ (- e)).

(** num / den scaled by 10^(-j), again as a fraction. *)
Definition scale10 (f : Z * Z) (j : Z) : Z * Z :=
  let (a, b) := f in
  if 0 <=? j then (a, b * 10 ^ j) else (a * 10 ^ (- j), b).

Definition ndigits (z : Z) : Z := JSString.length (JSString.of_Z z).

(** The integer n with 10^(n-1) <= num/den < 10^n. *)
Definition decimal_exponent (f : Z * Z) : Z :=
  let (a, b) := f in
  let g := ndigits a - ndigits b in
  let (a', b') := scale10 f g in
  if b' <=? a' then g + 1 else g.

(** The k-digit decimals just below and just above x = m * 2^e, and the
    one that Number::toString prefers among those that read back as x:
    the closer one, the even one on a tie. *)
Definition shortest_candidate (x : t) (f : Z * Z) (n k : Z) : option (Z * Z) :=
  let j := n - k in
  let (a, b) := scale10 f j in
  let (lo, r) := Z.div_eucl a b in
  let hi := lo + 1 in
  let ok_lo := bool_decide (of_decimal false lo j = x) in
  let ok_hi := bool_decide (of_decimal false hi j = x) in
  let norm s := if s =? 10 ^ k then (s / 10, n + 1) else (s, n) in
  match ok_lo, ok_hi with
  | true, true =>
      match 2 * r ?= b with
      | Lt => Some (norm lo)
      | Gt => Some (norm hi)
      | Eq => Some (norm (if Z.even lo then lo else hi))
      end
  | true, false => Some (norm lo)
  | false, true => Some (norm hi)
  | false, false => None
  end.

Fixpoint shortest_from (fuel : nat) (x : t) (f : Z * Z) (n k : Z) : Z * Z :=
  match fuel with
  | O => (0, n)
  | S fuel' =>
      match shortest_candidate x f n k with
      | Some r => r
      | None => shortest_from fuel' x f n (k + 1)
      end
  end.

Definition zeros (n : Z) : jsstring := repeat 48%N (Z.to_nat n).

(** The digits s and the exponent n laid out as Number::toString does. *)
Definition layout (s n : Z) : jsstring :=
  let ds := JSString.of_Z s in
  let k := JSString.length ds in
  if (k <=? n) && (n <=? 21) then ds ++ zeros (n - k)
  else if (0 <? n) && (n <=? 21) then
    take (Z.to_nat n) ds ++ js "." ++ drop (Z.to_nat n) ds
  else if (-6 <? n) && (n <=? 0) then js "0." ++ zeros (- n) ++ ds
  else
    let e := n - 1 in
    let exp := js (if e <? 0 then "e-" else "e+") ++ JSString.of_Z (Z.abs e) in
    if k =? 1 then ds ++ exp
    else take 1 ds ++ js "." ++ drop 1 ds ++ exp.

Definition toString (x : t) : jsstring :=
  match x with
  | S754_nan => js "NaN"
  | S754_zero _ => js "0"
  | S754_infinity s => js (if s then "-Infinity" else "Infinity")
  | S754_finite s m e =>
      let f := to_fraction m e in
      let n := decimal_exponent f in
      let (d, n') := shortest_from 17 (S754_finite false m e) f n 1 in
      (if s then js "-" else []) ++ layout d n'
  end.

(** *** Reading a number from a string *)

(** [StrUnsignedDecimalLiteral] at the head of [s]: the number read and
    the rest of the string, [None] when [s] does not start with one. *)
Definition scan_unsigned (sgn : bool) (s : jsstring) : option (t * jsstring) :=
  match JSString.strip_prefix (js "Infinity") s with
  | Some r => Some (S754_infinity sgn, r)
  | None =>
      let (ip, r1) := JSString.span_digits s in
      let (fp, r2) :=
        match r1 with
        | 46%N :: r1' =>
            let (fp, r2) := JSString.span_digits r1' in
            match ip, fp with
            | [], [] => ([], r1)
            | _, _ => (fp, r2)
            end
        | _ => ([], r1)
        end in
      match ip ++ fp with
      | [] => None
      | ds =>
          let (ex, r3) :=
            match r2 with
            | c :: r2' =>
                if ((c =? 101) || (c =? 69))%N then
                  let (esgn, r2'') :=
                    match r2' with
                    | 43%N :: r => (false, r)
                    | 45%N :: r => (true, r)
                    | _ => (false, r2')
                    end in
                  match JSString.span_digits r2'' with
                  | ([], _) => (0, r2)
                  | (eds, r3) =>
                      let v := JSString.digits_value eds in
                      (if esgn then - v else v, r3)
                  end
                else (0, r2)
            | [] => (0, r2)
            end in
          Some (of_decimal sgn (JSString.digits_value ds)
                  (ex - JSString.length fp), r3)
      end
  end.

(** [StrDecimalLiteral]: an optional sign, then an unsigned literal. *)
Definition scan_decimal (s : jsstring) : option (t * jsstring) :=
  match s with
  | 43%N :: r => scan_unsigned false r
  | 45%N :: r => scan_unsigned true r
  | _ => scan_unsigned false s
  end.

(** The global function [parseFloat]: leading white space is skipped and
    the longest prefix that is a decimal literal is read; [NaN] when
    there is none. *)
Definition parseFloat (s : jsstring) : t :=
  match scan_decimal (JSString.trimStart s) with
  | Some (x, _) => x
  | None => NaN
  end.

Definition digit_in_radix (radix : Z) (c : N) : option Z :=
  let v :=
    if JSString.is_digit c then Z.of_N c - 48
    else if JSString.is_lower c then Z.of_N c - 87
    else if JSString.is_upper c then Z.of_N c - 55
    else 99 in
  if v <? radix then Some v else None.

Fixpoint radix_value (radix : Z) (acc : Z) (s : jsstring) : option Z :=
  match s with
  | [] => Some acc
  | c :: s' =>
      match digit_in_radix radix c with
      | Some v => radix_value radix (radix * acc + v) s'
      | None => None
      end
  end.

Definition radix_prefix (s : jsstring) : option (Z * jsstring) :=
  match s with
  | 48%N :: c :: r =>
      if ((c =? 120) || (c =? 88))%N then Some (16, r)
      else if ((c =? 111) || (c =? 79))%N then Some (8, r)
      else if ((c =? 98) || (c =? 66))%N then Some (2, r)
      else None
  | _ => None
  end.

(** [StringToNumber], the conversion applied by [isFinite] and [isNaN]
    to a string argument: the whole trimmed string must be a numeric
    literal; the empty string is 0. *)
Definition of_string (s : jsstring) : t :=
  match JSString.trim s with
  | [] => S754_zero false
  | s' =>
      match radix_prefix s' with
      | Some (radix, ds) =>
          match ds, radix_value radix 0 ds with
          | _ :: _, Some v => of_Z v
          | _, _ => NaN
          end
      | None =>
          match scan_decimal s' with
          | Some (x, []) => x
          | _ => NaN
          end
      end
  end.

End Number.

Abbreviation number := Number.t.

(** ** Exceptions and effects *)

(** The exceptions the scripts can meet. *)
Inductive exn :=
| TypeError (what : string)
| SyntaxError
| URIError
| SecurityError
| QuotaExceededError
| NetworkError
| NotModelled (what : string).

Inductive outcome (A : Type) :=
| Ok (a : A)
| Throw (e : exn).
Arguments Ok {A} a.
Arguments Throw {A} e.

(** A computation over a mutable world [W]: it returns normally or throws,
    and in both cases leaves a world behind (what was mutated before a
    [throw] stays mutated). *)
Definition M (W A : Type) : Type := W -> outcome A * W.

Module Eff.
Section Eff.
Context {W : Type}.

Definition ret {A} (a : A) : M W A := fun w => (Ok a, w).

Definition bind {A B} (m : M W A) (k : A -> M W B) : M W B :=
  fun w =>
    match m w with
    | (Ok a, w') => k a w'
    | (Throw e, w') => (Throw e, w')
    end.

Definition throw {A} (e : exn) : M W A := fun w => (Throw e, w).

(** [try { body } catch (e) { handler }] *)
Definition try_catch {A} (body : M W A) (handler : exn -> M W A) : M W A :=
  fun w =>
    match body w with
    | (Ok a, w') => (Ok a, w')
    | (Throw e, w') => handler e w'
    end.

Definition get : M W W := fun w => (Ok w, w).
Definition gets {A} (f : W -> A) : M W A := fun w => (Ok (f w), w).
Definition modify (f : W -> W) : M W unit := fun w => (Ok tt, f w).

(** A pure step that may throw. *)
Definition lift {A} (o : outcome A) : M W A := fun w => (o, w).

(** [if (c) { body }] *)
Definition when (c : bool) (body : M W unit) : M W unit :=
  if c then body else ret tt.

(** [l.forEach(x => body)] *)
Fixpoint forEach {A} (l : list A) (body : A -> M W unit) : M W unit :=
  match l with
  | [] => ret tt
  | x :: l' => bind (body x) (fun _ => forEach l' body)
  end.

End Eff.
End Eff.

#[global] Instance M_ret {W} : MRet (M W) := fun A => @Eff.ret W A.
#[global] Instance M_bind {W} : MBind (M W) := fun A B k m => @Eff.bind W A B m k.

Definition outcome_bind {A B} (o : outcome A) (k : A -> outcome B) : outcome B :=
  match o with
  | Ok a => k a
  | Throw e => Throw e
  end.

#[global] Instance outcome_ret : MRet outcome := fun A => @Ok A.
#[global] Instance outcome_mbind : MBind outcome :=
  fun A B k o => outcome_bind o k.

(** ** Values *)

Module Value.

(** The values that occur in the scripts' data: primitives, arrays and
    plain objects.  An object lists its own properties in the order
    [JSON.stringify] and the spread syntax enumerate them. *)
Inductive t :=
| Undefined
| Null
| Bool (b : bool)
| Num (x : number)
| Str (s : jsstring)
| Array (elems : list t)
| Object (props : list (jsstring * t)).

(** [ToBoolean] *)
Definition truthy (v : t) : bool :=
  match v with
  | Undefined | Null => false
  | Bool b => b
  | Num x => negb (Number.is_zero x || Number.isNaN x)
  | Str s => negb (bool_decide (s = []))
  | Array _ | Object _ => true
  end.

(** [a || b] and [!a] *)
Definition or (a b : t) : t := if truthy a then a else b.
Definition not (a : t) : bool := negb (truthy a).

(** An array index: the canonical decimal string of an integer below
    2^32 - 1. *)
Definition array_index (k : jsstring) : option N :=
  match k with
  | [] => None
  | c :: _ =>
      if forallb JSString.is_digit k then
        let n := Z.to_N (JSString.digits_value k) in
        if bool_decide (JSString.of_N n = k) && (n <? 4294967295)%N
        then Some n else None
      else None
  end.

Fixpoint assoc (k : jsstring) (props : list (jsstring * t)) : option t :=
  match props with
  | [] => None
  | (k', v) :: rest => if bool_decide (k' = k) then Some v else assoc k rest
  end.

(** The property read [o[k]] (equally [o.k]) of an own property.
    Properties inherited from the built-in prototypes ([constructor],
    [toString] and the like) are not represented and read as
    [undefined]: this is the value the scripts get where [k] is a name
    they write out themselves, and where [k] comes from the page, as the
    [data-filter] of a button does, under the hypothesis that it is one
    of the names of the object's own properties. *)
Definition get (o : t) (k : jsstring) : outcome t :=
  match o with
  | Undefined | Null => Throw (TypeError "cannot read properties of undefined or null")
  | Object props => Ok (default Undefined (assoc k props))
  | Array elems =>
      if bool_decide (k = js "length") then Ok (Num (Number.of_Z (Z.of_nat (List.length elems))))
      else match array_index k with
           | Some i => Ok (default Undefined (elems !! N.to_nat i))
           | None => Ok Undefined
           end
  | Str s =>
      if bool_decide (k = js "length") then Ok (Num (Number.of_Z (JSString.length s)))
      else match array_index k with
           | Some i => Ok (from_option (fun c => Str [c]) Undefined (s !! N.to_nat i))
           | None => Ok Undefined
           end
  | Bool _ | Num _ => Ok Undefined
  end.

(** Where a new own property goes: integer keys come first in ascending
    order, the other keys follow in the order of their creation. *)
Fixpoint insert_index (i : N) (k : jsstring) (v : t) (props : list (jsstring * t))
  : list (jsstring * t) :=
  match props with
  | [] => [(k, v)]
  | (k', v') :: rest =>
      match array_index k' with
      | Some i' => if (i' <? i)%N then (k', v') :: insert_index i k v rest
                   else (k, v) :: props
      | None => (k, v) :: props
      end
  end.

Fixpoint replace (k : jsstring) (v : t) (props : list (jsstring * t))
  : list (jsstring * t) :=
  match props with
  | [] => []
  | (k', v') :: rest =>
      if bool_decide (k' = k) then (k, v) :: rest else (k', v') :: replace k v rest
  end.

Definition define (k : jsstring) (v : t) (props : list (jsstring * t))
  : list (jsstring * t) :=
  match assoc k props with
  | Some _ => replace k v props
  | None =>
      match array_index k with
      | Some i => insert_index i k v props
      | None => props ++ [(k, v)]
      end
  end.

(** The assignment [o[k] = v] in strict code (class bodies are strict):
    it throws on [null], [undefined] and on primitives. *)
Definition set (o : t) (k : jsstring) (v : t) : outcome t :=
  match o with
  | Object props => Ok (Object (define k v props))
  | Array _ => Throw (NotModelled "property assignment on an array")
  | Undefined | Null => Throw (TypeError "cannot set properties of undefined or null")
  | Bool _ | Num _ | Str _ => Throw (TypeError "cannot create property on a primitive")
  end.

(** The object spread [{...o}]: a fresh plain object with the own
    enumerable properties of [o]. *)
Definition spread (o : t) : t :=
  match o with
  | Object props => Object props
  | Array elems =>
      Object (imap (fun i v => (JSString.of_N (N.of_nat i), v)) elems)
  | Str s =>
      Object (imap (fun i c => (JSString.of_N (N.of_nat i), Str [c])) s)
  | _ => Object []
  end.

(** [ToString], as applied by template literals. *)
Fixpoint toString (v : t) : jsstring :=
  match v with
  | Undefined => js "undefined"
  | Null => js "null"
  | Bool b => js (if b then "true" else "false")
  | Num x => Number.toString x
  | Str s => s
  | Object _ => js "[object Object]"
  | Array elems =>
      JSString.join (js ",")
        (map (fun e => match e with
                       | Undefined | Null => []
                       | _ => toString e
                       end) elems)
  end.

(** [ToNumber] *)
Definition toNumber (v : t) : number :=
  match v with
  | Undefined => Number.NaN
  | Null => Number.of_Z 0
  | Bool b => Number.of_Z (if b then 1 else 0)
  | Num x => x
  | _ => Number.of_string (toString v)
  end.

(** Strict equality [a === b] between a value and a primitive. *)
Definition strict_eq_str (v : t) (s : jsstring) : bool :=
  match v with Str s' => bool_decide (s' = s) | _ => false end.

(** [SameValueZero], the comparison of [Array.prototype.includes];
    two distinct objects or arrays are never the same value. *)
Definition same_value_zero (a b : t) : bool :=
  match a, b with
  | Undefined, Undefined | Null, Null => true
  | Bool x, Bool y => bool_decide (x = y)
  | Str x, Str y => bool_decide (x = y)
  | Num x, Num y => Number.strict_eq x y || Number.isNaN x && Number.isNaN y
  | _, _ => false
  end.

(** Strict inequality [a !== b] as used on primitives. *)
Definition strict_ne (a b : t) : bool :=
  match a, b with
  | Undefined, Undefined | Null, Null => false
  | Bool x, Bool y => negb (bool_decide (x = y))
  | Str x, Str y => negb (bool_decide (x = y))
  | Num x, Num y => negb (Number.strict_eq x y)
  | _, _ => true
  end.

End Value.

Abbreviation value := Value.t.

(** ** JSON *)

Module JSON.

Import Value.

Definition hex_digit (n : N) : N :=
  if (n <? 10)%N then (48 + n)%N else (87 + n)%N.

(** The escape \uXXXX of a code unit, in lower-case hexadecimal. *)
Definition unicode_escape (c : N) : jsstring :=
  [92; 117; hex_digit (c / 4096 mod 16); hex_digit (c / 256 mod 16);
   hex_digit (c / 16 mod 16); hex_digit (c mod 16)]%N.

Definition is_high_surrogate (c : N) : bool := ((55296 <=? c) && (c <=? 56319))%N.
Definition is_low_surrogate (c : N) : bool := ((56320 <=? c) && (c <=? 57343))%N.

(** One code unit as [QuoteJSONString] writes it when it is not part of a
    surrogate pair. *)
Definition quote_unit (c : N) : jsstring :=
  if (c =? 8)%N then js "\b"
  else if (c =? 9)%N then js "\t"
  else if (c =? 10)%N then js "\n"
  else if (c =? 12)%N then js "\f"
  else if (c =? 13)%N then js "\r"
  else if (c =? 34)%N then [92; 34]%N
  else if (c =? 92)%N then js "\\"
  else if (c <? 32)%N then unicode_escape c
  else [c].

(** The body of a quoted string.  A high surrogate followed by a low one
    forms a pair and is written as it is; a lone surrogate is escaped.
    [prev_high] tells whether the unit before [s] was a high surrogate. *)
Fixpoint quote_units (prev_high : bool) (s : jsstring) : jsstring :=
  match s with
  | [] => []
  | c :: r =>
      let next_low := match r with d :: _ => is_low_surrogate d | [] => false end in
      (if is_high_surrogate c then (if next_low then [c] else unicode_escape c)
       else if is_low_surrogate c then (if prev_high then [c] else unicode_escape c)
       else quote_unit c)
      ++ quote_units (is_high_surrogate c) r
  end.

Definition quote (s : jsstring) : jsstring :=
  [34%N] ++ quote_units false s ++ [34%N].

(** [SerializeJSONProperty] without indentation; [None] stands for the
    result [undefined] (the property or the whole text is left out). *)
Fixpoint serialize (v : value) : option jsstring :=
  match v with
  | Undefined => None
  | Null => Some (js "null")
  | Bool b => Some (js (if b then "true" else "false"))
  | Num x => Some (if Number.isFinite x then Number.toString x else js "null")
  | Str s => Some (quote s)
  | Array elems =>
      Some (js "[" ++
            JSString.join (js ",")
              (map (fun e => default (js "null") (serialize e)) elems)
            ++ js "]")
  | Object props =>
      Some (js "{" ++
            JSString.join (js ",")
              (omap (fun p => match serialize (snd p) with
                              | Some text => Some (quote (fst p) ++ js ":" ++ text)
                              | None => None
                              end) props)
            ++ js "}")
  end.

(** [JSON.stringify(v)] *)
Definition stringify (v : value) : option jsstring := serialize v.

(** *** Parsing *)

Definition is_ws (c : N) : bool :=
  ((c =? 32) || (c =? 9) || (c =? 10) || (c =? 13))%N.

Fixpoint skip_ws (s : jsstring) : jsstring :=
  match s with
  | c :: r => if is_ws c then skip_ws r else s
  | [] => []
  end.

Definition hex_value (c : N) : option N :=
  if JSString.is_digit c then Some (c - 48)%N
  else if ((97 <=? c) && (c <=? 102))%N then Some (c - 87)%N
  else if ((65 <=? c) && (c <=? 70))%N then Some (c - 55)%N
  else None.

Definition hex4 (a b c d : N) : option N :=
  match hex_value a, hex_value b, hex_value c, hex_value d with
  | Some x, Some y, Some z, Some w => Some (x * 4096 + y * 256 + z * 16 + w)%N
  | _, _, _, _ => None
  end.

Definition unescape (c : N) : option N :=
  if (c =? 34)%N then Some 34%N
  else if (c =? 92)%N then Some 92%N
  else if (c =? 47)%N then Some 47%N
  else if (c =? 98)%N then Some 8%N
  else if (c =? 102)%N then Some 12%N
  else if (c =? 110)%N then Some 10%N
  else if (c =? 114)%N then Some 13%N
  else if (c =? 116)%N then Some 9%N
  else None.

(** The characters of a string literal after its opening quote, up to
    and including the closing quote; the string denoted and the rest. *)
Fixpoint parse_string_body (s : jsstring) : option (jsstring * jsstring) :=
  match s with
  | [] => None
  | c :: r =>
      if (c =? 34)%N then Some ([], r)
      else if (c =? 92)%N then
        match r with
        | e :: r' =>
            if (e =? 117)%N then
              match r' with
              | h1 :: h2 :: h3 :: h4 :: r'' =>
                  match hex4 h1 h2 h3 h4, parse_string_body r'' with
                  | Some u, Some (str, rest) => Some (u :: str, rest)
                  | _, _ => None
                  end
              | _ => None
              end
            else
              match unescape e, parse_string_body r' with
              | Some u, Some (str, rest) => Some (u :: str, rest)
              | _, _ => None
              end
        | [] => None
        end
      else if (c <? 32)%N then None
      else
        match parse_string_body r with
        | Some (str, rest) => Some (c :: str, rest)
        | None => None
        end
  end.

(** A number literal: an optional minus sign; an integer part without a
    superfluous leading zero; optionally a point and at least one digit;
    optionally an exponent mark, a sign and at least one digit. *)
Definition parse_number (s : jsstring) : option (number * jsstring) :=
  let (sgn, s1) := match s with 45%N :: r => (true, r) | _ => (false, s) end in
  let (ip, s2) := JSString.span_digits s1 in
  let (ip, s2) :=
    match ip with
    | 48%N :: _ :: _ => ([48%N], drop 1 s1)
    | _ => (ip, s2)
    end in
  match ip with
  | [] => None
  | _ =>
      let frac :=
        match s2 with
        | 46%N :: r =>
            match JSString.span_digits r with
            | ([], _) => None
            | (fp, s3) => Some (fp, s3)
            end
        | _ => Some ([], s2)
        end in
      match frac with
      | None => None
      | Some (fp, s3) =>
          let exp :=
            match s3 with
            | c :: r =>
                if ((c =? 101) || (c =? 69))%N then
                  let (esgn, r') :=
                    match r with
                    | 43%N :: r' => (false, r')
                    | 45%N :: r' => (true, r')
                    | _ => (false, r)
                    end in
                  match JSString.span_digits r' with
                  | ([], _) => None
                  | (eds, s4) =>
                      let v := JSString.digits_value eds in
                      Some (if esgn then - v else v, s4)
                  end
                else Some (0, s3)
            | [] => Some (0, s3)
            end in
          match exp with
          | None => None
          | Some (ex, s4) =>
              Some (Number.of_decimal sgn (JSString.digits_value (ip ++ fp))
                      (ex - JSString.length fp), s4)
          end
      end
  end.

(** Recursive descent; [fuel] bounds the number of values, elements and
    members read, and the length of the text is always enough. *)
Fixpoint parse_value (fuel : nat) (s : jsstring) : option (value * jsstring) :=
  match fuel with
  | O => None
  | S fuel' =>
      match skip_ws s with
      | [] => None
      | c :: r =>
          if (c =? 34)%N then
            match parse_string_body r with
            | Some (str, rest) => Some (Str str, rest)
            | None => None
            end
          else if (c =? 91)%N then
            match skip_ws r with
            | 93%N :: rest => Some (Array [], rest)
            | _ =>
                match parse_elements fuel' r with
                | Some (elems, rest) => Some (Array elems, rest)
                | None => None
                end
            end
          else if (c =? 123)%N then
            match skip_ws r with
            | 125%N :: rest => Some (Object [], rest)
            | _ =>
                match parse_members fuel' [] r with
                | Some (props, rest) => Some (Object props, rest)
                | None => None
                end
            end
          else
            match JSString.strip_prefix (js "null") (c :: r),
                  JSString.strip_prefix (js "true") (c :: r),
                  JSString.strip_prefix (js "false") (c :: r) with
            | Some rest, _, _ => Some (Null, rest)
            | _, Some rest, _ => Some (Bool true, rest)
            | _, _, Some rest => Some (Bool false, rest)
            | None, None, None =>
                match parse_number (c :: r) with
                | Some (x, rest) => Some (Num x, rest)
                | None => None
                end
            end
      end
  end

(** The elements of a non-empty array, after its opening bracket, up to
    and including the closing bracket. *)
with parse_elements (fuel : nat) (s : jsstring) : option (list value * jsstring) :=
  match fuel with
  | O => None
  | S fuel' =>
      match parse_value fuel' s with
      | Some (v, r) =>
          match skip_ws r with
          | 44%N :: r' =>
              match parse_elements fuel' r' with
              | Some (vs, rest) => Some (v :: vs, rest)
              | None => None
              end
          | 93%N :: rest => Some ([v], rest)
          | _ => None
          end
      | None => None
      end
  end

(** The members of a non-empty object, after its opening brace, up to
    and including the closing brace; [acc] holds the properties created
    so far. *)
with parse_members (fuel : nat) (acc : list (jsstring * value)) (s : jsstring)
  : option (list (jsstring * value) * jsstring) :=
  match fuel with
  | O => None
  | S fuel' =>
      match skip_ws s with
      | 34%N :: r =>
          match parse_string_body r with
          | Some (k, r1) =>
              match skip_ws r1 with
              | 58%N :: r2 =>
                  match parse_value fuel' r2 with
                  | Some (v, r3) =>
                      let acc' := Value.define k v acc in
                      match skip_ws r3 with
                      | 44%N :: r4 => parse_members fuel' acc' r4
                      | 125%N :: rest => Some (acc', rest)
                      | _ => None
                      end
                  | None => None
                  end
              | _ => None
              end
          | None => None
          end
      | _ => None
      end
  end.

(** [JSON.parse(text)]: the value denoted, or a [SyntaxError]. *)
Definition parse (text : jsstring) : outcome value :=
  match parse_value (S (List.length text)) text with
  | Some (v, rest) =>
      match skip_ws rest with
      | [] => Ok v
      | _ => Throw SyntaxError
      end
  | None => Throw SyntaxError
  end.

End JSON.

(** ** Web storage *)

Module Storage.

(** A [Storage] object such as [localStorage].  Access is refused
    altogether when [available] is false (every call then throws a
    [SecurityError]); a write that would take the stored keys and values
    beyond [quota] code units throws a [QuotaExceededError]. *)
Record t := {
  available : bool;
  quota : Z;
  items : gmap jsstring jsstring
}.

Definition used (m : gmap jsstring jsstring) : Z :=
  map_fold (fun k v acc => acc + JSString.length k + JSString.length v) 0 m.

Definition getItem (k : jsstring) (st : t) : outcome (option jsstring) :=
  if available st then Ok (items st !! k) else Throw SecurityError.

Definition setItem (k v : jsstring) (st : t) : outcome t :=
  if available st then
    let items' := <[k := v]> (items st) in
    if used items' <=? quota st then
      Ok {| available := true; quota := quota st; items := items' |}
    else Throw QuotaExceededError
  else Throw SecurityError.

(** Whether a write of [v] under [k] is accepted. *)
Definition accepts (k v : jsstring) (st : t) : bool :=
  available st && (used (<[k := v]> (items st)) <=? quota st).

End Storage.

(** ** The console *)

Inductive log_level := LogInfo | LogWarn | LogError.

(** One call of [console.log], [console.warn] or [console.error]: the
    message and the exception passed along with it, if any. *)
Record log_entry := {
  log_level_of : log_level;
  log_text : jsstring;
  log_exn : option exn
}.

(** ** Class lists *)

Module ClassList.

(** The [classList] of an element: a list of tokens without repetition. *)
Abbreviation t := (list jsstring).

Definition contains (cl : t) (c : jsstring) : bool := bool_decide (c ∈ cl).

Definition add (c : jsstring) (cl : t) : t :=
  if contains cl c then cl else cl ++ [c].

Definition remove (c : jsstring) (cl : t) : t :=
  filter (fun c' => c' <> c) cl.

(** [classList.toggle(c)] *)
Definition toggle (c : jsstring) (cl : t) : t :=
  if contains cl c then remove c cl else add c cl.

(** [classList.toggle(c, force)] *)
Definition toggle_force (c : jsstring) (force : bool) (cl : t) : t :=
  if force then add c cl else remove c cl.

End ClassList.

(** [if (c) l.push(x)] *)
Definition push_if {A} (c : bool) (x : A) (l : list A) : list A :=
  if c then l ++ [x] else l.

(* ===================================================================== *)
(** * Part II. The scripts                                                *)
(* ===================================================================== *)

(** ** form-validation.js: class FormValidator *)

Module FormValidator.

(** [this.options] *)
Record Options := {
  errorClass : jsstring;
  errorContainer : jsstring;
  highlightClass : jsstring;
  successClass : jsstring;
  validateOnInput : bool;
  validateOnBlur : bool
}.

Definition default_options : Options := {|
  errorClass := js "error-message";
  errorContainer := js "div";
  highlightClass := js "has-error";
  successClass := js "is-valid";
  validateOnInput := true;
  validateOnBlur := true
|}.

(** An element inside a field's container. *)
Record Element := {
  tagName : jsstring;
  className : jsstring;
  id : jsstring;
  textContent : jsstring;
  aria_live : option jsstring
}.

(** An element together with the elements it contains. *)
Inductive Node :=
| Elem (element : Element) (content : list Node).

(** The element [getFieldContainer] returns for a field: its class list
    and the element nodes under it, apart from the field.  Each field is
    taken to have a container of its own. *)
Record Container := {
  classList : ClassList.t;
  children : list Node
}.

(** An [input], [textarea] or [select] of the form.  [minLength] and
    [maxLength] are -1 when the attribute is absent, as in the DOM;
    [dataset] maps the camel-cased names of the [data-*] attributes. *)
Record Field := {
  type : jsstring;
  name : jsstring;
  value : jsstring;
  checked : bool;
  has_required : bool;
  minLength : Z;
  maxLength : Z;
  dataset : gmap jsstring jsstring;
  aria_invalid : option jsstring;
  aria_describedby : option jsstring;
  container : Container
}.

(** [this.form], as the list of its named controls in document order. *)
Abbreviation Form := (list Field).

Definition with_display (f : Field) (inv desc : option jsstring) (c : Container) : Field := {|
  type := type f; name := name f; value := value f; checked := checked f;
  has_required := has_required f; minLength := minLength f;
  maxLength := maxLength f; dataset := dataset f;
  aria_invalid := inv; aria_describedby := desc; container := c
|}.

(** *** The regular expressions *)

Definition one_of (chars : string) (c : N) : bool :=
  bool_decide (c ∈ js chars).

(** [/^[a-zA-Z0-9._%+-]+@[a-zA-Z0-9.-]+\.[a-zA-Z]{2,}$/.test(s)]:
    neither class holds the at sign, so the local part ends at the first
    one; the last class holds no point, so the final label starts after
    the last one. *)
Definition email_regex_test (s : jsstring) : bool :=
  let local_char c := JSString.is_alnum c || one_of "._%+-" c in
  let domain_char c := JSString.is_alnum c || one_of ".-" c in
  match JSString.split 64 s with
  | local :: rest :: [] =>
      match rev (JSString.split 46 rest) with
      | tld :: ((_ :: _) as labels) =>
          let domain := JSString.join (js ".") (rev labels) in
          negb (bool_decide (local = [])) && forallb local_char local
          && negb (bool_decide (domain = [])) && forallb domain_char domain
          && (2 <=? JSString.length tld) && forallb JSString.is_alpha tld
      | _ => false
      end
  | _ => false
  end.

(** The characters the dot of a regular expression does not match. *)
Definition is_line_terminator (c : N) : bool :=
  ((c =? 10) || (c =? 13) || (c =? 8232) || (c =? 8233))%N.

(** The lookahead [(?=.*[class])] at the start of the string. *)
Fixpoint lookahead (class : N -> bool) (s : jsstring) : bool :=
  match s with
  | [] => false
  | c :: r => class c || (negb (is_line_terminator c) && lookahead class r)
  end.

(** [/^(?=.*[a-z])(?=.*[A-Z])(?=.*\d).{8,}$/.test(s)] *)
Definition password_regex_test (s : jsstring) : bool :=
  lookahead JSString.is_lower s && lookahead JSString.is_upper s
  && lookahead JSString.is_digit s
  && forallb (fun c => negb (is_line_terminator c)) s
  && (8 <=? JSString.length s).

(** *** [this.validationRules] *)

(** The [message] of a rule: a string, or a function of the parameter. *)
Inductive Message :=
| Text (s : jsstring)
| Template (f : Value.t -> jsstring).

(** A validator is called with the form (for [this.form]), the value
    and the parameter; it returns a truth value or throws. *)
Record Rule := {
  validator : Form -> jsstring -> Value.t -> outcome bool;
  message : Message
}.

Definition required : Rule := {|
  validator := fun _ value _ => Ok (negb (bool_decide (JSString.trim value = [])));
  message := Text (js "This field is required.")
|}.

Definition email : Rule := {|
  validator := fun _ value _ =>
    Ok (bool_decide (value = []) || email_regex_test value);
  message := Text (js "Please enter a valid email address.")
|}.

Definition minLength_rule : Rule := {|
  validator := fun _ value param =>
    Ok (bool_decide (value = [])
        || Number.ge (Number.of_Z (JSString.length value)) (Value.toNumber param));
  message := Template (fun param =>
    js "This field must be at least " ++ Value.toString param
    ++ js " characters long.")
|}.

Definition maxLength_rule : Rule := {|
  validator := fun _ value param =>
    Ok (bool_decide (value = [])
        || Number.le (Number.of_Z (JSString.length value)) (Value.toNumber param));
  message := Template (fun param =>
    js "This field cannot exceed " ++ Value.toString param ++ js " characters.")
|}.

Definition password : Rule := {|
  validator := fun _ value _ =>
    Ok (bool_decide (value = []) || password_regex_test value);
  message := Text (js "Password must be at least 8 characters with at least one uppercase letter, one lowercase letter, and one digit.")
|}.

Definition numeric : Rule := {|
  validator := fun _ value _ =>
    Ok (bool_decide (value = [])
        || negb (Number.isNaN (Number.parseFloat value))
           && Number.isFinite (Number.of_string value));
  message := Text (js "Please enter a valid number.")
|}.

(** A code unit that stands for itself inside the double-quoted string
    of a selector: not the quote, not the backslash, no control character
    and no surrogate. *)
Definition selector_plain_unit (c : N) : bool :=
  negb ((c =? 34)%N || (c =? 92)%N || (c <? 32)%N || (c =? 127)%N
        || JSON.is_high_surrogate c || JSON.is_low_surrogate c).

(** [this.form.querySelector(`[name="${param}"]`)].  The parameter is
    pasted into the selector: when all its code units stand for
    themselves the selector tests the [name] attribute for equality.  With
    a quote, a backslash or a line break in it the text is another
    selector, or none ([querySelector] then throws a [SyntaxError]); what
    it selects is not modelled. *)
Definition query_by_name (form : Form) (param : Value.t) : outcome (option Field) :=
  let wanted := Value.toString param in
  if forallb selector_plain_unit wanted then
    Ok (List.find (fun f => bool_decide (name f = wanted)) form)
  else Throw (NotModelled "selector built from a name with a quote, a backslash or a control character").

Definition match_rule : Rule := {|
  validator := fun form value param =>
    matchField ← query_by_name form param;
    Ok match matchField with
       | Some matchField => bool_decide (value = FormValidator.value matchField)
       | None => false
       end;
  message := Template (fun param =>
    js "This field must match " ++ Value.toString param ++ js ".")
|}.

Definition lat_min : number := Number.of_decimal false 4570 (-2).
Definition lat_max : number := Number.of_decimal false 4580 (-2).
Definition lng_min : number := Number.of_decimal false 2110 (-2).
Definition lng_max : number := Number.of_decimal false 2135 (-2).

Definition coordinates : Rule := {|
  validator := fun _ value param =>
    Ok (if bool_decide (value = []) then true
        else
          let num := Number.parseFloat value in
          if Number.isNaN num then false
          else if Value.strict_eq_str param (js "lat") then
            Number.ge num lat_min && Number.le num lat_max
          else if Value.strict_eq_str param (js "lng") then
            Number.ge num lng_min && Number.le num lng_max
          else true);
  message := Template (fun param =>
    js "Please enter valid "
    ++ js (if Value.strict_eq_str param (js "lat") then "latitude" else "longitude")
    ++ js " within Timisoara.")
|}.

Definition validationRules (rule : jsstring) : option Rule :=
  if bool_decide (rule = js "required") then Some required
  else if bool_decide (rule = js "email") then Some email
  else if bool_decide (rule = js "minLength") then Some minLength_rule
  else if bool_decide (rule = js "maxLength") then Some maxLength_rule
  else if bool_decide (rule = js "password") then Some password
  else if bool_decide (rule = js "numeric") then Some numeric
  else if bool_decide (rule = js "match") then Some match_rule
  else if bool_decide (rule = js "coordinates") then Some coordinates
  else None.

(** *** Methods *)

(** An entry of the array [getFieldValidations] returns. *)
Record Validation := {
  rule : jsstring;
  param : Value.t
}.

Definition data_is (field : Field) (key : string) (v : string) : bool :=
  bool_decide (dataset field !! js key = Some (js v)).

Definition type_is (field : Field) (v : string) : bool :=
  bool_decide (type field = js v).

Definition getFieldValidations (field : Field) : list Validation :=
  let validations := [] in
  let validations :=
    push_if (has_required field || data_is field "required" "true")
      {| rule := js "required"; param := Value.Undefined |} validations in
  let validations :=
    push_if (type_is field "email")
      {| rule := js "email"; param := Value.Undefined |} validations in
  let validations :=
    push_if (data_is field "type" "password" || type_is field "password")
      {| rule := js "password"; param := Value.Undefined |} validations in
  let validations :=
    push_if (data_is field "type" "numeric" || type_is field "number")
      {| rule := js "numeric"; param := Value.Undefined |} validations in
  let validations :=
    push_if (0 <? minLength field)
      {| rule := js "minLength";
         param := Value.Num (Number.of_Z (minLength field)) |} validations in
  let validations :=
    push_if ((0 <? maxLength field) && (maxLength field <? 1000))
      {| rule := js "maxLength";
         param := Value.Num (Number.of_Z (maxLength field)) |} validations in
  let validations :=
    match dataset field !! js "match" with
    | Some m =>
        push_if (negb (bool_decide (m = [])))
          {| rule := js "match"; param := Value.Str m |} validations
    | None => validations
    end in
  let validations :=
    push_if (bool_decide (name field = js "lat") || data_is field "type" "lat")
      {| rule := js "coordinates"; param := Value.Str (js "lat") |} validations in
  let validations :=
    push_if (bool_decide (name field = js "lng") || data_is field "type" "lng")
      {| rule := js "coordinates"; param := Value.Str (js "lng") |} validations in
  validations.

(** The separators of the tokens of a [class] attribute. *)
Definition is_ascii_whitespace (c : N) : bool :=
  ((c =? 9) || (c =? 10) || (c =? 12) || (c =? 13) || (c =? 32))%N.

(** The tokens of a string, with the token being read in [cur]. *)
Fixpoint tokens_from (cur : jsstring) (s : jsstring) : list jsstring :=
  match s with
  | [] => match cur with [] => [] | _ => [rev cur] end
  | c :: s' =>
      if is_ascii_whitespace c then
        match cur with
        | [] => tokens_from [] s'
        | _ => rev cur :: tokens_from [] s'
        end
      else tokens_from (c :: cur) s'
  end.

(** The classes of an element: the tokens of its [class] attribute. *)
Definition class_tokens (className : jsstring) : list jsstring :=
  tokens_from [] className.

(** Whether an element carries the class of error messages, that is,
    whether the selector made of a point and the class matches it. *)
Definition is_error_element (options : Options) (e : Element) : bool :=
  bool_decide (errorClass options ∈ class_tokens (className e)).

(** The nodes left after [element.remove()] on every node, at whatever
    depth, that carries the class of error messages. *)
Fixpoint remove_errors_under (options : Options) (n : Node) : list Node :=
  match n with
  | Elem e content =>
      if is_error_element options e then []
      else [Elem e (flat_map (remove_errors_under options) content)]
  end.

Definition remove_errors (options : Options) (nodes : list Node) : list Node :=
  flat_map (remove_errors_under options) nodes.

Definition showFieldError (options : Options) (rnd : jsstring)
    (field : Field) (message : jsstring) : Field :=
  let container := container field in
  let classes :=
    ClassList.remove (successClass options)
      (ClassList.add (highlightClass options) (classList container)) in
  let errorId :=
    js "error-" ++ (if bool_decide (name field = []) then rnd else name field) in
  let errorElement := {|
    tagName := errorContainer options;
    className := errorClass options;
    id := errorId;
    textContent := message;
    aria_live := Some (js "polite")
  |} in
  let describedby :=
    match aria_describedby field with
    | None | Some [] => Some errorId
    | Some describedBy =>
        if JSString.includes describedBy errorId then Some describedBy
        else Some (describedBy ++ js " " ++ errorId)
    end in
  with_display field (Some (js "true")) describedby
    {| classList := classes;
       children := children container ++ [Elem errorElement []] |}.

Definition showFieldSuccess (options : Options) (field : Field) : Field :=
  let container := container field in
  with_display field (Some (js "false")) (aria_describedby field)
    {| classList :=
         ClassList.remove (highlightClass options)
           (ClassList.add (successClass options) (classList container));
       children := children container |}.

Definition clearFieldValidation (options : Options) (field : Field) : Field :=
  let container := container field in
  with_display field None (aria_describedby field)
    {| classList :=
         ClassList.remove (successClass options)
           (ClassList.remove (highlightClass options) (classList container));
       children := remove_errors options (children container) |}.

(** The loop of [validateField] over the validations that remain. *)
Fixpoint check_validations (options : Options) (rnd : jsstring) (form : Form)
    (field : Field) (value : jsstring) (validations : list Validation)
  : outcome bool * Field :=
  match validations with
  | [] => (Ok true, showFieldSuccess options field)
  | validation :: rest =>
      match validationRules (rule validation) with
      | None => check_validations options rnd form field value rest
      | Some r =>
          match validator r form value (param validation) with
          | Throw e => (Throw e, field)
          | Ok true => check_validations options rnd form field value rest
          | Ok false =>
              let message :=
                match message r with
                | Template f => f (param validation)
                | Text s => s
                end in
              let message :=
                match dataset field !! (rule validation ++ js "Message") with
                | Some customMessage =>
                    if bool_decide (customMessage = []) then message
                    else customMessage
                | None => message
                end in
              (Ok false, showFieldError options rnd field message)
          end
      end
  end.

(** The constant [value] of [validateField]: what the validators are
    given, which for a checkbox is its checked state as a string. *)
Definition field_value (field : Field) : jsstring :=
  if type_is field "checkbox" then js (if checked field then "true" else "false")
  else value field.

(** [validateField(field)]: the result, or the exception a validator
    threw, and the field as it is displayed afterwards.  [rnd] is the
    string [Math.random] contributes to the id of the error message of a
    field without a name. *)
Definition validateField (options : Options) (rnd : jsstring) (form : Form)
    (field : Field) : outcome bool * Field :=
  let field := clearFieldValidation options field in
  let value := field_value field in
  let validations := getFieldValidations field in
  check_validations options rnd form field value validations.

End FormValidator.

(** ** URL encoding *)

Module URI.

Definition hex_upper (n : N) : N :=
  if (n <? 10)%N then (48 + n)%N else (55 + n)%N.

Definition percent (byte : N) : jsstring :=
  [37; hex_upper (byte / 16); hex_upper (byte mod 16)]%N.

Definition utf8 (cp : N) : list N :=
  (if cp <? 128 then [cp]
   else if cp <? 2048 then [192 + cp / 64; 128 + cp mod 64]
   else if cp <? 65536 then
     [224 + cp / 4096; 128 + cp / 64 mod 64; 128 + cp mod 64]
   else
     [240 + cp / 262144; 128 + cp / 4096 mod 64; 128 + cp / 64 mod 64;
      128 + cp mod 64])%N.

(** The code points of a string; [None] marks a lone surrogate. *)
Fixpoint code_points (s : jsstring) : list (option N) :=
  match s with
  | [] => []
  | c :: r =>
      if JSON.is_high_surrogate c then
        match r with
        | d :: r' =>
            if JSON.is_low_surrogate d then
              Some (65536 + (c - 55296) * 1024 + (d - 56320))%N :: code_points r'
            else None :: code_points r
        | [] => [None]
        end
      else if JSON.is_low_surrogate c then None :: code_points r
      else Some c :: code_points r
  end.

Definition unreserved (c : N) : bool :=
  JSString.is_alnum c || bool_decide (c ∈ js "-_.!~*'()").

Fixpoint encode_points (cps : list (option N)) : outcome jsstring :=
  match cps with
  | [] => Ok []
  | None :: _ => Throw URIError
  | Some cp :: rest =>
      match encode_points rest with
      | Ok tail =>
          Ok ((if unreserved cp then [cp] else utf8 cp ≫= percent) ++ tail)
      | Throw e => Throw e
      end
  end.

(** The global function [encodeURIComponent]. *)
Definition encodeURIComponent (s : jsstring) : outcome jsstring :=
  encode_points (code_points s).

Definition form_byte (b : N) : jsstring :=
  if (b =? 32)%N then js "+"
  else if JSString.is_alnum b || bool_decide (b ∈ js "*-._") then [b]
  else percent b.

(** The serialisation of one name or value of a [URLSearchParams]; a
    lone surrogate has become U+FFFD when the string entered it. *)
Definition form_encode (s : jsstring) : jsstring :=
  code_points s ≫= (fun cp => utf8 (default 65533%N cp) ≫= form_byte).

(** [new URLSearchParams()], [append] and [toString]. *)
Abbreviation URLSearchParams := (list (jsstring * jsstring)).

Definition append (name value : jsstring) (p : URLSearchParams) : URLSearchParams :=
  p ++ [(name, value)].

Definition toString (p : URLSearchParams) : jsstring :=
  JSString.join (js "&")
    (map (fun nv => form_encode (fst nv) ++ js "=" ++ form_encode (snd nv)) p).

End URI.

(** ** The page *)

(** A [.filter-btn] button: its [data-filter] attribute, whether its
    class list holds [active], and its [aria-pressed] attribute. *)
Record FilterButton := {
  fb_filter : option jsstring;
  fb_active : bool;
  fb_aria_pressed : option jsstring
}.

(** A [.type-filter] checkbox: its [data-type] attribute, its checked
    state and, when it sits inside a [.checkbox-label], whether that
    label's class list holds [active]. *)
Record TypeFilter := {
  tf_type : option jsstring;
  tf_checked : bool;
  tf_label : option bool
}.

(** A notification appended to [#notification-container]: its class name
    and the message in its markup. *)
Record Notification := {
  note_className : jsstring;
  note_message : jsstring
}.

(** What the markup of a marker's popup displays. *)
Record Popup := {
  popup_name : jsstring;
  popup_address : jsstring;
  popup_icons : list jsstring;
  popup_location_id : jsstring
}.

(** A Leaflet marker: its position, the class name of its icon, the
    label of the icon and the popup bound to it. *)
Record Marker := {
  marker_lat : value;
  marker_lng : value;
  marker_className : jsstring;
  marker_label : jsstring;
  marker_popup : Popup
}.

(** A review as [renderReviews] displays it: the author, the five stars
    (filled or not), the creation date as received, and the text. *)
Record ReviewView := {
  review_author : jsstring;
  review_stars : list bool;
  review_created_at : value;
  review_content : jsstring
}.

(** What the markup of the details sidebar displays: [None] for the
    photos stands for the text "No photos available", [None] for the
    reviews for the text "No reviews yet". *)
Record DetailsView := {
  details_name : jsstring;
  details_address : jsstring;
  details_features : list (jsstring * jsstring * bool);
  details_description : jsstring;
  details_photos : option (list (jsstring * jsstring));
  details_reviews : option (list ReviewView)
}.

(** A child of [#search-results]. *)
Inductive SearchNode :=
| NoResultsNode
| SearchErrorNode
| ResultItem (name address : jsstring) (result : value).

Record SearchResults := {
  sr_children : list SearchNode;
  sr_display : option jsstring
}.

Record Sidebar := {
  sb_classList : ClassList.t;
  sb_content : option DetailsView
}.

(** The platform objects the scripts touch: [localStorage], the console
    and the URLs handed to [fetch], oldest first. *)
Record Platform := {
  localStorage : Storage.t;
  console : list log_entry;
  requests : list jsstring
}.

(** The elements of the document the scripts look up.  An element that
    may be missing from the page is an [option]. *)
Record Document := {
  body : ClassList.t;
  accessibility_announcer : option jsstring;
  user_preferences : option (option jsstring);
  filter_buttons : list FilterButton;
  type_filters : list TypeFilter;
  filter_status_announcer : option jsstring;
  notification_container : option (list Notification);
  search_results : option SearchResults;
  location_details : option Sidebar
}.

(** [this.state] of the [AccessibilityApp]. *)
Record AppState := {
  highContrast : value;
  textSize : value;
  userPreferences : value
}.

(** The fields of the [AccessibilityFilters] instance: [this.filters],
    [this.options.storageKey], and whether [this.map] refers to the map
    instance ([window.map] was set when the filters were constructed). *)
Record FiltersObj := {
  filters : value;
  storageKey : jsstring;
  has_map : bool
}.

(** The fields of the [AccessibilityMap] instance; the two layer groups
    hold the markers shown. *)
Record MapObj := {
  currentFilters : value;
  markers : list Marker;
  layer_approved : list Marker;
  layer_pending : list Marker
}.

Record World := {
  platform : Platform;
  document : Document;
  app : AppState;
  filtersObj : FiltersObj;
  mapObj : MapObj
}.

(** *** Field updates *)

Definition on_platform (f : Platform -> Platform) (w : World) : World :=
  {| platform := f (platform w); document := document w; app := app w;
     filtersObj := filtersObj w; mapObj := mapObj w |}.

Definition on_document (f : Document -> Document) (w : World) : World :=
  {| platform := platform w; document := f (document w); app := app w;
     filtersObj := filtersObj w; mapObj := mapObj w |}.

Definition on_app (f : AppState -> AppState) (w : World) : World :=
  {| platform := platform w; document := document w; app := f (app w);
     filtersObj := filtersObj w; mapObj := mapObj w |}.

Definition on_filtersObj (f : FiltersObj -> FiltersObj) (w : World) : World :=
  {| platform := platform w; document := document w; app := app w;
     filtersObj := f (filtersObj w); mapObj := mapObj w |}.

Definition on_mapObj (f : MapObj -> MapObj) (w : World) : World :=
  {| platform := platform w; document := document w; app := app w;
     filtersObj := filtersObj w; mapObj := f (mapObj w) |}.

Definition set_localStorage (st : Storage.t) : World -> World :=
  on_platform (fun p =>
    {| localStorage := st; console := console p; requests := requests p |}).

Definition set_console (c : list log_entry) : World -> World :=
  on_platform (fun p =>
    {| localStorage := localStorage p; console := c; requests := requests p |}).

Definition set_requests (r : list jsstring) : World -> World :=
  on_platform (fun p =>
    {| localStorage := localStorage p; console := console p; requests := r |}).

Definition set_body (v : ClassList.t) : World -> World :=
  on_document (fun d =>
    let 'Build_Document _ a2 a3 a4 a5 a6 a7 a8 a9 := d in
    Build_Document v a2 a3 a4 a5 a6 a7 a8 a9).

Definition set_accessibility_announcer (v : option jsstring) : World -> World :=
  on_document (fun d =>
    let 'Build_Document a1 _ a3 a4 a5 a6 a7 a8 a9 := d in
    Build_Document a1 v a3 a4 a5 a6 a7 a8 a9).

Definition set_filter_buttons (v : list FilterButton) : World -> World :=
  on_document (fun d =>
    let 'Build_Document a1 a2 a3 _ a5 a6 a7 a8 a9 := d in
    Build_Document a1 a2 a3 v a5 a6 a7 a8 a9).

Definition set_type_filters (v : list TypeFilter) : World -> World :=
  on_document (fun d =>
    let 'Build_Document a1 a2 a3 a4 _ a6 a7 a8 a9 := d in
    Build_Document a1 a2 a3 a4 v a6 a7 a8 a9).

Definition set_filter_status_announcer (v : option jsstring) : World -> World :=
  on_document (fun d =>
    let 'Build_Document a1 a2 a3 a4 a5 _ a7 a8 a9 := d in
    Build_Document a1 a2 a3 a4 a5 v a7 a8 a9).

Definition set_notification_container (v : option (list Notification))
  : World -> World :=
  on_document (fun d =>
    let 'Build_Document a1 a2 a3 a4 a5 a6 _ a8 a9 := d in
    Build_Document a1 a2 a3 a4 a5 a6 v a8 a9).

Definition set_search_results (v : option SearchResults) : World -> World :=
  on_document (fun d =>
    let 'Build_Document a1 a2 a3 a4 a5 a6 a7 _ a9 := d in
    Build_Document a1 a2 a3 a4 a5 a6 a7 v a9).

Definition set_location_details (v : option Sidebar) : World -> World :=
  on_document (fun d =>
    let 'Build_Document a1 a2 a3 a4 a5 a6 a7 a8 _ := d in
    Build_Document a1 a2 a3 a4 a5 a6 a7 a8 v).

Definition set_highContrast (v : value) : World -> World :=
  on_app (fun s =>
    {| highContrast := v; textSize := textSize s;
       userPreferences := userPreferences s |}).

Definition set_textSize (v : value) : World -> World :=
  on_app (fun s =>
    {| highContrast := highContrast s; textSize := v;
       userPreferences := userPreferences s |}).

Definition set_userPreferences (v : value) : World -> World :=
  on_app (fun s =>
    {| highContrast := highContrast s; textSize := textSize s;
       userPreferences := v |}).

Definition set_filters (v : value) : World -> World :=
  on_filtersObj (fun o =>
    {| filters := v; storageKey := storageKey o; has_map := has_map o |}).

Definition set_currentFilters (v : value) : World -> World :=
  on_mapObj (fun m =>
    {| currentFilters := v; markers := markers m;
       layer_approved := layer_approved m; layer_pending := layer_pending m |}).

Definition set_markers (v : list Marker) : World -> World :=
  on_mapObj (fun m =>
    {| currentFilters := currentFilters m; markers := v;
       layer_approved := layer_approved m; layer_pending := layer_pending m |}).

Definition set_layer_approved (v : list Marker) : World -> World :=
  on_mapObj (fun m =>
    {| currentFilters := currentFilters m; markers := markers m;
       layer_approved := v; layer_pending := layer_pending m |}).

Definition set_layer_pending (v : list Marker) : World -> World :=
  on_mapObj (fun m =>
    {| currentFilters := currentFilters m; markers := markers m;
       layer_approved := layer_approved m; layer_pending := v |}).

(** *** Shorthands for the platform calls *)

Abbreviation JS := (M World).

Definition console_push (lvl : log_level) (text : string) (e : option exn) : JS unit :=
  Eff.modify (fun w =>
    set_console
      (console (platform w)
       ++ [{| log_level_of := lvl; log_text := js text; log_exn := e |}]) w).

Definition console_warn (text : string) (e : exn) : JS unit :=
  console_push LogWarn text (Some e).

Definition console_error (text : string) (e : option exn) : JS unit :=
  console_push LogError text e.

(** [localStorage.getItem(key)] *)
Definition localStorage_getItem (key : jsstring) : JS (option jsstring) :=
  fun w => (Storage.getItem key (localStorage (platform w)), w).

(** [localStorage.setItem(key, text)] *)
Definition localStorage_setItem (key text : jsstring) : JS unit :=
  fun w =>
    match Storage.setItem key text (localStorage (platform w)) with
    | Ok st => (Ok tt, set_localStorage st w)
    | Throw e => (Throw e, w)
    end.

(** [fetch(url)]: the request is recorded; its outcome arrives later and
    is handed to the promise chain built on it. *)
Definition fetch (url : jsstring) : JS unit :=
  Eff.modify (fun w => set_requests (requests (platform w) ++ [url]) w).

(** How a [fetch] settles: the promise is rejected, or it is fulfilled
    with a response whose body is the given text. *)
Inductive FetchOutcome :=
| Rejected (e : exn)
| Response (body : jsstring).

(** [response.json()] *)
Definition response_json (body : jsstring) : JS value :=
  Eff.lift (JSON.parse body).

(** [fetch(...).then(r => r.json()).then(on_data).catch(on_error)] once
    the request has settled. *)
Definition settle (o : FetchOutcome) (on_data : value -> JS unit)
    (on_error : exn -> JS unit) : JS unit :=
  Eff.try_catch
    (match o with
     | Rejected e => Eff.throw e
     | Response body => data ← response_json body; on_data data
     end)
    on_error.

(** [v.forEach(...)] and [v.map(...)] need [v] to be an array. *)
Definition as_array (v : value) : outcome (list value) :=
  match v with
  | Value.Array elems => Ok elems
  | Value.Undefined | Value.Null =>
      Throw (TypeError "cannot read properties of undefined or null")
  | _ => Throw (TypeError "not a function")
  end.

(** [l.map(f)] where [f] may throw. *)
Fixpoint map_outcome {A B} (f : A -> outcome B) (l : list A) : outcome (list B) :=
  match l with
  | [] => Ok []
  | x :: l' => y ← f x; ys ← map_outcome f l'; Ok (y :: ys)
  end.

(** ** form-validation.js: class AccessibilityMap *)

Module AccessibilityMap.

Definition prop (o : value) (k : string) : outcome value := Value.get o (js k).

(** [getMarkerIconClass(location)] *)
Definition getMarkerIconClass (location : value) : outcome jsstring :=
  let classes := [js "marker"] in
  has_ramp ← prop location "has_ramp";
  has_accessible_entrance ← prop location "has_accessible_entrance";
  has_accessible_parking ← prop location "has_accessible_parking";
  has_braille ← prop location "has_braille";
  has_audio_guidance ← prop location "has_audio_guidance";
  has_staff_assistance ← prop location "has_staff_assistance";
  is_approved ← prop location "is_approved";
  let isWheelchair :=
    Value.or (Value.or has_ramp has_accessible_entrance) has_accessible_parking in
  let isVisual := Value.or has_braille has_audio_guidance in
  let isCognitive := has_staff_assistance in
  let isHearing := has_audio_guidance in
  let classes :=
    if Value.truthy isWheelchair && Value.truthy isVisual
       && Value.truthy isCognitive && Value.truthy isHearing
    then classes ++ [js "fully-accessible"]
    else
      let classes := push_if (Value.truthy isWheelchair) (js "wheelchair") classes in
      let classes := push_if (Value.truthy isVisual) (js "visual") classes in
      let classes := push_if (Value.truthy isCognitive) (js "cognitive") classes in
      let classes := push_if (Value.truthy isHearing) (js "hearing") classes in
      classes in
  let classes := push_if (Value.not is_approved) (js "pending") classes in
  Ok (JSString.join (js " ") classes).

(** [createPopupContent(location)] *)
Definition createPopupContent (location : value) : outcome Popup :=
  name ← prop location "name";
  address ← prop location "address";
  has_ramp ← prop location "has_ramp";
  has_accessible_wc ← prop location "has_accessible_wc";
  has_braille ← prop location "has_braille";
  id ← prop location "id";
  Ok {| popup_name := Value.toString name;
        popup_address := Value.toString (Value.or address (Value.Str []));
        popup_icons :=
          push_if (Value.truthy has_braille) (js "braille")
            (push_if (Value.truthy has_accessible_wc) (js "wc")
               (push_if (Value.truthy has_ramp) (js "wheelchair") []));
        popup_location_id := Value.toString id |}.

(** A coordinate [L.marker] takes as it is: a number other than NaN. *)
Definition is_coordinate (v : value) : bool :=
  match v with
  | Value.Num x => negb (Number.isNaN x)
  | _ => false
  end.

(** [createLocationMarker(location)].  [L.marker] builds the position
    from the pair of [location.lat] and [location.lng]; Leaflet throws
    for a coordinate that converts to NaN and treats the other values
    that are not numbers in ways of its own, which are not modelled. *)
Definition createLocationMarker (location : value) : outcome Marker :=
  iconClass ← getMarkerIconClass location;
  lat ← prop location "lat";
  lng ← prop location "lng";
  name ← prop location "name";
  if is_coordinate lat && is_coordinate lng then
    popup ← createPopupContent location;
    Ok {| marker_lat := lat; marker_lng := lng;
          marker_className := js "location-marker " ++ iconClass;
          marker_label := Value.toString name;
          marker_popup := popup |}
  else Throw (NotModelled "marker at a position that is not a pair of numbers").

(** [addMarkersToMap(locations)] *)
Definition addMarkersToMap (locations : value) : JS unit :=
  locations ← Eff.lift (as_array locations);
  Eff.forEach locations (fun location =>
    marker ← Eff.lift (createLocationMarker location);
    is_approved ← Eff.lift (prop location "is_approved");
    (if Value.truthy is_approved then
       Eff.modify (fun w => set_layer_approved (layer_approved (mapObj w) ++ [marker]) w)
     else
       Eff.modify (fun w => set_layer_pending (layer_pending (mapObj w) ++ [marker]) w));;
    Eff.modify (fun w => set_markers (markers (mapObj w) ++ [marker]) w)).

(** [showNotification(message, type)]; the timers that remove the
    notification later are not modelled. *)
Definition showNotification (message type : string) : JS unit :=
  Eff.modify (fun w =>
    match notification_container (document w) with
    | None => w
    | Some notifications =>
        set_notification_container
          (Some (notifications
                 ++ [{| note_className := js "notification " ++ js type;
                        note_message := js message |}])) w
    end).

(** The filter query string [loadLocations] builds. *)
Definition filterParams (currentFilters : value) : outcome URI.URLSearchParams :=
  let filterParams : URI.URLSearchParams := [] in
  let flag (name : string) (p : URI.URLSearchParams) : outcome URI.URLSearchParams :=
    v ← prop currentFilters name;
    Ok (if Value.truthy v then URI.append (js name) (js "true") p else p) in
  filterParams ← flag "wheelchair"%string filterParams;
  filterParams ← flag "visual"%string filterParams;
  filterParams ← flag "hearing"%string filterParams;
  filterParams ← flag "cognitive"%string filterParams;
  locationTypes ← prop currentFilters "locationTypes";
  types ← as_array locationTypes;
  Ok (fold_left (fun p type => URI.append (js "type") (Value.toString type) p)
        types filterParams).

(** [loadLocations()], up to and including the call of [fetch]. *)
Definition loadLocations : JS unit :=
  Eff.modify (set_layer_approved []);;
  Eff.modify (set_layer_pending []);;
  currentFilters ← Eff.gets (fun w => currentFilters (mapObj w));
  filterParams ← Eff.lift (filterParams currentFilters);
  fetch (js "/api/locations?" ++ URI.toString filterParams).

(** The promise chain of [loadLocations], once the request has settled. *)
Definition loadLocations_settled (o : FetchOutcome) : JS unit :=
  settle o
    (fun data =>
       locations ← Eff.lift (prop data "locations");
       addMarkersToMap locations)
    (fun error =>
       console_error "Error loading locations:" (Some error);;
       showNotification "Error loading locations. Please try again." "error").

(** [applyFilters(filters)] *)
Definition applyFilters (filters : value) : JS unit :=
  Eff.modify (set_currentFilters (Value.spread filters));;
  loadLocations.

(** [searchLocations(query)], up to and including the call of [fetch]. *)
Definition searchLocations (query : jsstring) : JS unit :=
  searchResults ← Eff.gets (fun w => search_results (document w));
  match searchResults with
  | None => mret tt
  | Some _ =>
      q ← Eff.lift (URI.encodeURIComponent query);
      fetch (js "/api/search?q=" ++ q)
  end.

Definition set_search_children (c : list SearchNode) : JS unit :=
  Eff.modify (fun w =>
    match search_results (document w) with
    | None => w
    | Some sr =>
        set_search_results
          (Some {| sr_children := c; sr_display := sr_display sr |}) w
    end).

Definition append_search_child (c : SearchNode) : JS unit :=
  Eff.modify (fun w =>
    match search_results (document w) with
    | None => w
    | Some sr =>
        set_search_results
          (Some {| sr_children := sr_children sr ++ [c];
                   sr_display := sr_display sr |}) w
    end).

Definition is_number (v : value) (z : Z) : bool :=
  match v with
  | Value.Num x => Number.strict_eq x (Number.of_Z z)
  | _ => false
  end.

(** The promise chain of [searchLocations], once the request has
    settled; [searchResults] is the element found before the request. *)
Definition searchLocations_settled (o : FetchOutcome) : JS unit :=
  settle o
    (fun data =>
       set_search_children [];;
       results ← Eff.lift (prop data "results");
       length ← Eff.lift (prop results "length");
       if is_number length 0 then set_search_children [NoResultsNode]
       else
         results ← Eff.lift (as_array results);
         Eff.forEach results (fun result =>
           name ← Eff.lift (prop result "name");
           address ← Eff.lift (prop result "address");
           append_search_child
             (ResultItem (Value.toString name)
                (Value.toString (Value.or address (Value.Str []))) result));;
         Eff.modify (fun w =>
           match search_results (document w) with
           | None => w
           | Some sr =>
               set_search_results
                 (Some {| sr_children := sr_children sr;
                          sr_display := Some (js "block") |}) w
           end))
    (fun error =>
       console_error "Search error:" (Some error);;
       set_search_children [SearchErrorNode]).

(** [generateStarRating(rating)]: for i from 1 to 5, whether star i is
    filled. *)
Definition generateStarRating (rating : value) : list bool :=
  map (fun i => Number.le (Number.of_Z i) (Value.toNumber rating)) [1; 2; 3; 4; 5].

(** [renderReviews(reviews)] *)
Definition renderReviews (reviews : value) : outcome (option (list ReviewView)) :=
  length ← prop reviews "length";
  if is_number length 0 then Ok None
  else
    reviews ← as_array reviews;
    views ← map_outcome (fun review =>
      author_name ← prop review "author_name";
      rating ← prop review "rating";
      created_at ← prop review "created_at";
      content ← prop review "content";
      Ok {| review_author := Value.toString author_name;
            review_stars := generateStarRating rating;
            review_created_at := created_at;
            review_content := Value.toString content |}) reviews;
    Ok (Some views).

(** [createLocationDetailsHTML(location)] *)
Definition createLocationDetailsHTML (location : value) : outcome DetailsView :=
  has_ramp ← prop location "has_ramp";
  has_accessible_wc ← prop location "has_accessible_wc";
  has_accessible_parking ← prop location "has_accessible_parking";
  has_accessible_entrance ← prop location "has_accessible_entrance";
  has_braille ← prop location "has_braille";
  has_audio_guidance ← prop location "has_audio_guidance";
  has_staff_assistance ← prop location "has_staff_assistance";
  let accessibilityFeatures :=
    [ (js "Wheelchair ramp", js "ramp", Value.truthy has_ramp);
      (js "Accessible toilet", js "wc", Value.truthy has_accessible_wc);
      (js "Accessible parking", js "parking", Value.truthy has_accessible_parking);
      (js "Accessible entrance", js "entrance", Value.truthy has_accessible_entrance);
      (js "Braille", js "braille", Value.truthy has_braille);
      (js "Audio guidance", js "audio", Value.truthy has_audio_guidance);
      (js "Staff assistance", js "staff", Value.truthy has_staff_assistance) ] in
  name ← prop location "name";
  photos ← prop location "photos";
  photosHTML ←
    (if Value.truthy photos then
       length ← prop photos "length";
       if Number.gt (Value.toNumber length) (Number.of_Z 0) then
         photos ← as_array photos;
         views ← map_outcome (fun photo =>
           filename ← prop photo "filename";
           description ← prop photo "description";
           Ok (Value.toString filename,
               Value.toString (Value.or description name))) photos;
         Ok (Some views)
       else Ok None
     else Ok None);
  address ← prop location "address";
  description ← prop location "description";
  reviews ← prop location "reviews";
  reviewsHTML ← renderReviews (Value.or reviews (Value.Array []));
  Ok {| details_name := Value.toString name;
        details_address :=
          Value.toString (Value.or address (Value.Str (js "No address provided")));
        details_features := accessibilityFeatures;
        details_description :=
          Value.toString
            (Value.or description (Value.Str (js "No description provided")));
        details_photos := photosHTML;
        details_reviews := reviewsHTML |}.

(** [showLocationDetails(locationId)], which is the call of [fetch]. *)
Definition showLocationDetails (locationId : value) : JS unit :=
  fetch (js "/api/locations/" ++ Value.toString locationId).

(** The promise chain of [showLocationDetails], once the request has
    settled. *)
Definition showLocationDetails_settled (o : FetchOutcome) : JS unit :=
  settle o
    (fun data =>
       sidebar ← Eff.gets (fun w => location_details (document w));
       match sidebar with
       | None => mret tt
       | Some sidebar =>
           location ← Eff.lift (prop data "location");
           html ← Eff.lift (createLocationDetailsHTML location);
           Eff.modify (set_location_details
             (Some {| sb_classList := ClassList.add (js "open") (sb_classList sidebar);
                      sb_content := Some html |}))
       end)
    (fun error =>
       console_error "Error loading location details:" (Some error);;
       showNotification "Error loading location details. Please try again." "error").

End AccessibilityMap.

(** ** form-validation.js: class AccessibilityFilters *)

Module AccessibilityFilters.

Import Value.

(** The object literal assigned to [this.filters] by the constructor and
    by [resetFilters]. *)
Definition default_filters : value :=
  Object [ (js "wheelchair", Bool false);
           (js "visual", Bool false);
           (js "hearing", Bool false);
           (js "cognitive", Bool false);
           (js "locationTypes", Array []) ].

Definition default_storageKey : jsstring := js "accessibility_filters".

Definition this_filters : JS value := Eff.gets (fun w => filters (filtersObj w)).

(** The property key a [data-*] attribute yields; a missing attribute
    reads as [undefined]. *)
Definition attr_value (a : option jsstring) : value :=
  match a with
  | Some s => Str s
  | None => Undefined
  end.

(** [this.filters[key]] *)
Definition filters_get (key : jsstring) : JS value :=
  filters ← this_filters;
  Eff.lift (get filters key).

(** [this.filters[key] = v] *)
Definition filters_set (key : jsstring) (v : value) : JS unit :=
  filters ← this_filters;
  filters' ← Eff.lift (set filters key v);
  Eff.modify (set_filters filters').

(** [arr.includes(x)] *)
Definition includes (arr x : value) : outcome bool :=
  match arr with
  | Array elems => Ok (existsb (same_value_zero x) elems)
  | Str s => Ok (JSString.includes s (toString x))
  | Undefined | Null => Throw (TypeError "cannot read properties of undefined or null")
  | _ => Throw (TypeError "not a function")
  end.

(** [arr.push(x)], as the array afterwards. *)
Definition push (arr x : value) : outcome value :=
  match arr with
  | Array elems => Ok (Array (elems ++ [x]))
  | Undefined | Null => Throw (TypeError "cannot read properties of undefined or null")
  | _ => Throw (TypeError "not a function")
  end.

(** [arr.filter(type => type !== x)] *)
Definition filter_ne (arr x : value) : outcome value :=
  match arr with
  | Array elems => Ok (Array (List.filter (fun type => strict_ne type x) elems))
  | Undefined | Null => Throw (TypeError "cannot read properties of undefined or null")
  | _ => Throw (TypeError "not a function")
  end.

(** The elements are addressed by their position in the document. *)
Definition update_button (i : nat) (button : FilterButton) : JS unit :=
  Eff.modify (fun w =>
    set_filter_buttons (<[i := button]> (filter_buttons (document w))) w).

Definition update_checkbox (i : nat) (checkbox : TypeFilter) : JS unit :=
  Eff.modify (fun w =>
    set_type_filters (<[i := checkbox]> (type_filters (document w))) w).

(** [document.querySelectorAll(filterButtonSelector).forEach(body)] *)
Definition forEach_button (body : nat -> FilterButton -> JS unit) : JS unit :=
  n ← Eff.gets (fun w => List.length (filter_buttons (document w)));
  Eff.forEach (seq 0 n) (fun i =>
    b ← Eff.gets (fun w => filter_buttons (document w) !! i);
    match b with
    | None => mret tt
    | Some button => body i button
    end).

(** [document.querySelectorAll(typeFilterSelector).forEach(body)] *)
Definition forEach_checkbox (body : nat -> TypeFilter -> JS unit) : JS unit :=
  n ← Eff.gets (fun w => List.length (type_filters (document w)));
  Eff.forEach (seq 0 n) (fun i =>
    c ← Eff.gets (fun w => type_filters (document w) !! i);
    match c with
    | None => mret tt
    | Some checkbox => body i checkbox
    end).

(** [label.classList.add('active')] or [remove] on the label found by
    [checkbox.closest('.checkbox-label')], when there is one. *)
Definition set_label (checkbox : TypeFilter) (active : bool) : TypeFilter :=
  {| tf_type := tf_type checkbox;
     tf_checked := tf_checked checkbox;
     tf_label := match tf_label checkbox with
                 | Some _ => Some active
                 | None => None
                 end |}.

Definition set_checked (checkbox : TypeFilter) (checked : bool) : TypeFilter :=
  {| tf_type := tf_type checkbox;
     tf_checked := checked;
     tf_label := tf_label checkbox |}.

Definition set_active (button : FilterButton) (active : bool) : FilterButton :=
  {| fb_filter := fb_filter button;
     fb_active := active;
     fb_aria_pressed := Some (js (if active then "true" else "false")) |}.

(** [getAnnouncementElement()] followed by the assignment of its
    [textContent]; the element is created when it is missing. *)
Definition announce (message : jsstring) : JS unit :=
  Eff.modify (set_filter_status_announcer (Some message)).

Definition filterNames (filterType : value) : value :=
  match filterType with
  | Str k =>
      if bool_decide (k = js "wheelchair") then Str (js "Wheelchair accessibility")
      else if bool_decide (k = js "visual") then Str (js "Visual accessibility")
      else if bool_decide (k = js "hearing") then Str (js "Hearing accessibility")
      else if bool_decide (k = js "cognitive") then Str (js "Cognitive accessibility")
      else Undefined
  | _ => Undefined
  end.

Definition enabled (b : bool) : jsstring := js (if b then "enabled" else "disabled").

Definition announceFilterChange (filterType : value) (isActive : bool) : JS unit :=
  announce (toString (filterNames filterType) ++ js " filter " ++ enabled isActive).

Definition announceTypeFilterChange (locationType : value) (isChecked : bool) : JS unit :=
  announce (toString locationType ++ js " filter " ++ enabled isChecked).

Definition announceReset : JS unit :=
  announce (js "All filters have been reset").

(** [applyFilters()] *)
Definition applyFilters : JS unit :=
  attached ← Eff.gets (fun w => has_map (filtersObj w));
  if attached : bool then
    filters ← this_filters;
    AccessibilityMap.applyFilters filters
  else
    console_error "Map instance not found or applyFilters method not available" None.

(** [hasActiveFilters()]; the operands of [||] are evaluated from left to
    right until one is truthy, and that operand is the result. *)
Definition hasActiveFilters : JS value :=
  wheelchair ← filters_get (js "wheelchair");
  if truthy wheelchair then mret wheelchair else
  visual ← filters_get (js "visual");
  if truthy visual then mret visual else
  hearing ← filters_get (js "hearing");
  if truthy hearing then mret hearing else
  cognitive ← filters_get (js "cognitive");
  if truthy cognitive then mret cognitive else
  locationTypes ← filters_get (js "locationTypes");
  length ← Eff.lift (get locationTypes (js "length"));
  mret (Bool (Number.gt (toNumber length) (Number.of_Z 0))).

(** [saveFilters()] *)
Definition saveFilters : JS unit :=
  Eff.try_catch
    (key ← Eff.gets (fun w => storageKey (filtersObj w));
     filters ← this_filters;
     localStorage_setItem key (default (js "undefined") (JSON.stringify filters)))
    (fun e => console_warn "Could not save filters to localStorage:" e).

(** [loadSavedFilters()] *)
Definition loadSavedFilters : JS unit :=
  Eff.try_catch
    (key ← Eff.gets (fun w => storageKey (filtersObj w));
     savedFilters ← localStorage_getItem key;
     match savedFilters with
     | Some ((_ :: _) as savedFilters) =>
         parsed ← Eff.lift (JSON.parse savedFilters);
         Eff.modify (set_filters parsed)
     | _ => mret tt
     end)
    (fun e => console_warn "Could not load filters from localStorage:" e).

(** The button an event handler was registered on: the i-th of the
    [.filter-btn] elements; a call without such an element fails on its
    first property read. *)
Definition the_button (i : nat) : JS FilterButton :=
  b ← Eff.gets (fun w => filter_buttons (document w) !! i);
  match b with
  | Some button => mret button
  | None => Eff.throw (TypeError "cannot read properties of undefined or null")
  end.

Definition the_checkbox (i : nat) : JS TypeFilter :=
  c ← Eff.gets (fun w => type_filters (document w) !! i);
  match c with
  | Some checkbox => mret checkbox
  | None => Eff.throw (TypeError "cannot read properties of undefined or null")
  end.

(** [toggleFilterButton(button)] *)
Definition toggleFilterButton (i : nat) : JS unit :=
  button ← the_button i;
  let filterType := attr_value (fb_filter button) in
  let isActive := negb (fb_active button) in
  update_button i (set_active button isActive);;
  filters_set (toString filterType) (Bool isActive);;
  applyFilters;;
  saveFilters;;
  announceFilterChange filterType isActive.

(** [toggleTypeFilter(checkbox)] *)
Definition toggleTypeFilter (i : nat) : JS unit :=
  checkbox ← the_checkbox i;
  let locationType := attr_value (tf_type checkbox) in
  let isChecked := tf_checked checkbox in
  update_checkbox i (set_label checkbox isChecked);;
  locationTypes ← filters_get (js "locationTypes");
  (if isChecked then
     present ← Eff.lift (includes locationTypes locationType);
     if present : bool then mret tt
     else
       locationTypes' ← Eff.lift (push locationTypes locationType);
       filters_set (js "locationTypes") locationTypes'
   else
     locationTypes' ← Eff.lift (filter_ne locationTypes locationType);
     filters_set (js "locationTypes") locationTypes');;
  applyFilters;;
  saveFilters;;
  announceTypeFilterChange locationType isChecked.

(** [resetFilters()] *)
Definition resetFilters : JS unit :=
  Eff.modify (set_filters default_filters);;
  forEach_button (fun i button => update_button i (set_active button false));;
  forEach_checkbox (fun i checkbox =>
    update_checkbox i (set_label (set_checked checkbox false) false));;
  applyFilters;;
  saveFilters;;
  announceReset.

(** The loop of [initFilters] and of [setFromUserPreferences] that marks
    the buttons of the filters that are on. *)
Definition mark_active_buttons : JS unit :=
  forEach_button (fun i button =>
    let filterType := attr_value (fb_filter button) in
    on ← filters_get (toString filterType);
    if truthy on then update_button i (set_active button true)
    else mret tt).

(** [setFromUserPreferences(preferences)] *)
Definition setFromUserPreferences (preferences : value) : JS unit :=
  if not preferences then mret tt
  else
    let need (pref filter : string) : JS unit :=
      p ← Eff.lift (get preferences (js pref));
      if truthy p then filters_set (js filter) (Bool true) else mret tt in
    need "needs_wheelchair"%string "wheelchair"%string;;
    need "needs_visual_assistance"%string "visual"%string;;
    need "needs_hearing_assistance"%string "hearing"%string;;
    need "needs_cognitive_assistance"%string "cognitive"%string;;
    mark_active_buttons;;
    applyFilters;;
    saveFilters.

(** [initFilters()]; the registration of the event handlers leaves no
    trace in the state. *)
Definition initFilters : JS unit :=
  loadSavedFilters;;
  mark_active_buttons;;
  forEach_checkbox (fun i checkbox =>
    let locationType := attr_value (tf_type checkbox) in
    locationTypes ← filters_get (js "locationTypes");
    present ← Eff.lift (includes locationTypes locationType);
    if present : bool then
      update_checkbox i (set_checked checkbox true);;
      match tf_label checkbox with
      | Some _ => update_checkbox i (set_label (set_checked checkbox true) true)
      | None =>
          Eff.throw (TypeError "cannot read properties of undefined or null")
      end
    else mret tt);;
  active ← hasActiveFilters;
  if truthy active then applyFilters else mret tt.

(** [new AccessibilityFilters(options)]: [key] is the storage key after
    the options are merged with the defaults, [map] tells whether
    [window.map] is set. *)
Definition constructor (key : jsstring) (map : bool) : JS unit :=
  Eff.modify (on_filtersObj (fun _ =>
    {| filters := default_filters; storageKey := key; has_map := map |}));;
  initFilters.

End AccessibilityFilters.

(** ** app.js: class AccessibilityApp *)

Module AccessibilityApp.

Import Value.

Definition preferences_key : jsstring := js "accessibility_preferences".

Definition this_state : JS AppState := Eff.gets app.

Definition body_add (c : string) : JS unit :=
  Eff.modify (fun w => set_body (ClassList.add (js c) (body (document w))) w).

Definition body_remove (c : string) : JS unit :=
  Eff.modify (fun w => set_body (ClassList.remove (js c) (body (document w))) w).

(** [announceAccessibilityChange(message)]; the announcer element is
    created when it is missing. *)
Definition announceAccessibilityChange (message : jsstring) : JS unit :=
  Eff.modify (set_accessibility_announcer (Some message)).

(** [savePreferences()] *)
Definition savePreferences : JS unit :=
  Eff.try_catch
    (state ← this_state;
     localStorage_setItem preferences_key
       (default (js "undefined")
          (JSON.stringify
             (Object [ (js "highContrast", highContrast state);
                       (js "textSize", textSize state) ]))))
    (fun e => console_warn "Could not save preferences to localStorage:" e).

(** [loadPreferences()] *)
Definition loadPreferences : JS unit :=
  Eff.try_catch
    (saved ← localStorage_getItem preferences_key;
     match saved with
     | Some ((_ :: _) as saved) =>
         preferences ← Eff.lift (JSON.parse saved);
         hc ← Eff.lift (get preferences (js "highContrast"));
         Eff.modify (set_highContrast (or hc (Bool false)));;
         ts ← Eff.lift (get preferences (js "textSize"));
         Eff.modify (set_textSize (or ts (Str (js "normal"))))
     | _ => mret tt
     end;;
     userPrefsElement ← Eff.gets (fun w => user_preferences (document w));
     match userPrefsElement with
     | Some (Some ((_ :: _) as text)) =>
         parsed ← Eff.lift (JSON.parse text);
         Eff.modify (set_userPreferences parsed)
     | _ => mret tt
     end)
    (fun e => console_warn "Could not load preferences from localStorage:" e).

(** [toggleHighContrast()] *)
Definition toggleHighContrast : JS unit :=
  state ← this_state;
  let on := not (highContrast state) in
  Eff.modify (set_highContrast (Bool on));;
  Eff.modify (fun w =>
    set_body (ClassList.toggle_force (js "high-contrast") on (body (document w))) w);;
  body_add "high-contrast-override";;
  savePreferences;;
  announceAccessibilityChange
    (js "High contrast mode " ++ js (if on then "enabled" else "disabled")).

(** [increaseTextSize()] *)
Definition increaseTextSize : JS unit :=
  state ← this_state;
  (if strict_eq_str (textSize state) (js "normal") then
     Eff.modify (set_textSize (Str (js "large")));;
     body_add "large-text";;
     body_remove "xl-text"
   else if strict_eq_str (textSize state) (js "large") then
     Eff.modify (set_textSize (Str (js "xl")));;
     body_remove "large-text";;
     body_add "xl-text"
   else mret tt);;
  savePreferences;;
  state ← this_state;
  announceAccessibilityChange
    (js "Text size increased to " ++ toString (textSize state)).

(** [decreaseTextSize()] *)
Definition decreaseTextSize : JS unit :=
  state ← this_state;
  (if strict_eq_str (textSize state) (js "xl") then
     Eff.modify (set_textSize (Str (js "large")));;
     body_add "large-text";;
     body_remove "xl-text"
   else if strict_eq_str (textSize state) (js "large") then
     Eff.modify (set_textSize (Str (js "normal")));;
     body_remove "large-text";;
     body_remove "xl-text"
   else mret tt);;
  savePreferences;;
  state ← this_state;
  announceAccessibilityChange
    (js "Text size decreased to " ++ toString (textSize state)).

(** [applyPreferences()]; [filters_exist] tells whether
    [window.accessibilityFilters] is set. *)
Definition applyPreferences (filters_exist : bool) : JS unit :=
  state ← this_state;
  (if truthy (highContrast state) then
     body_add "high-contrast";;
     body_add "high-contrast-override"
   else mret tt);;
  (if strict_eq_str (textSize state) (js "large") then body_add "large-text"
   else if strict_eq_str (textSize state) (js "xl") then body_add "xl-text"
   else mret tt);;
  if truthy (userPreferences state) && filters_exist then
    AccessibilityFilters.setFromUserPreferences (userPreferences state)
  else mret tt.

(** The object literal assigned to [this.state] by the constructor. *)
Definition initial_state : AppState :=
  {| highContrast := Bool false;
     textSize := Str (js "normal");
     userPreferences := Null |}.

(** [new AccessibilityApp()]: the state is initialised and [init] loads
    and applies the saved preferences; the handlers [init] registers
    leave no trace in the state. *)
Definition constructor (filters_exist : bool) : JS unit :=
  Eff.modify (on_app (fun _ => initial_state));;
  loadPreferences;;
  applyPreferences filters_exist.

End AccessibilityApp.

(* ===================================================================== *)
(** * Part III. Properties                                                *)
(* ===================================================================== *)

(** ** Running computations *)

Lemma bind_run {W A B} (m : M W A) (k : A -> M W B) (w : W) :
  (m ≫= k) w =
  match m w with
  | (Ok a, w') => k a w'
  | (Throw e, w') => (Throw e, w')
  end.
Proof. reflexivity. Qed.

Lemma bind_ok {W A B} (m : M W A) (k : A -> M W B) (w w' : W) (a : A) :
  m w = (Ok a, w') -> (m ≫= k) w = k a w'.
Proof. intros H. rewrite bind_run, H. reflexivity. Qed.

Lemma bind_throw {W A B} (m : M W A) (k : A -> M W B) (w w' : W) (e : exn) :
  m w = (Throw e, w') -> (m ≫= k) w = (Throw e, w').
Proof. intros H. rewrite bind_run, H. reflexivity. Qed.

Lemma ret_run {W A} (a : A) (w : W) : (mret a : M W A) w = (Ok a, w).
Proof. reflexivity. Qed.

(** Runs the leading steps of a computation that are plain reads and
    writes of the world. *)
Ltac run :=
  repeat (rewrite ?bind_run, ?ret_run;
          unfold Eff.modify, Eff.gets, Eff.ret, Eff.throw, Eff.lift, Eff.when;
          cbv beta iota).

(** ** FormValidator *)

(** A name that is a single identifier made of letters, digits, hyphens
    and underscores, starting with a letter. *)
Definition plain_class_name (c : jsstring) : bool :=
  match c with
  | u :: r =>
      JSString.is_alpha u
      && forallb (fun u => JSString.is_alnum u || (u =? 45)%N || (u =? 95)%N) r
  | [] => false
  end.

(** The options name the three classes and the tag of the message
    element with such identifiers, as the default options do: then
    [classList.add] and [classList.remove] take the classes as tokens,
    the selector made of a point and the error class selects by that
    class, and [document.createElement] takes the tag. *)
Definition plain_options (options : FormValidator.Options) : bool :=
  plain_class_name (FormValidator.errorClass options)
  && plain_class_name (FormValidator.highlightClass options)
  && plain_class_name (FormValidator.successClass options)
  && plain_class_name (FormValidator.errorContainer options).

Section FormValidatorFacts.

Import FormValidator.

(** No comparison holds of [NaN]. *)
Lemma le_NaN_r (x y : number) : Number.isNaN y = true -> Number.le x y = false.
Proof. destruct y; try discriminate. intros _. destruct x; reflexivity. Qed.

(** [C1] A non-empty value passes the coordinates rule with the parameter
    ['lat'] exactly when the number [parseFloat] reads from it is a number
    (not [NaN]) with 45.70 <= num <= 45.80, and with the parameter ['lng']
    exactly when 21.10 <= num <= 21.35; every other non-empty value is
    rejected, and the rule never throws.  The bounds are the numbers the
    literals 45.70, 45.80, 21.10 and 21.35 of the source denote: the
    binary64 values nearest to 4570, 4580, 2110 and 2135 hundredths. *)
Theorem coordinates_accepts_iff_within_bounds (form : Form) (value : jsstring) :
  value <> [] ->
  let num := Number.parseFloat value in
  (exists accepted,
      validator coordinates form value (Value.Str (js "lat")) = Ok accepted
      /\ (accepted = true <->
            Number.isNaN num = false
            /\ Number.le (Number.of_decimal false 4570 (-2)) num = true
            /\ Number.le num (Number.of_decimal false 4580 (-2)) = true))
  /\
  (exists accepted,
      validator coordinates form value (Value.Str (js "lng")) = Ok accepted
      /\ (accepted = true <->
            Number.isNaN num = false
            /\ Number.le (Number.of_decimal false 2110 (-2)) num = true
            /\ Number.le num (Number.of_decimal false 2135 (-2)) = true)).
Proof.
  intros Hne num. unfold coordinates, validator. fold num.
  rewrite bool_decide_eq_false_2 by exact Hne.
  change (Value.strict_eq_str (Value.Str (js "lat")) (js "lat")) with true.
  change (Value.strict_eq_str (Value.Str (js "lng")) (js "lat")) with false.
  change (Value.strict_eq_str (Value.Str (js "lng")) (js "lng")) with true.
  unfold Number.ge, lat_min, lat_max, lng_min, lng_max. cbv iota.
  destruct (Number.isNaN num) eqn:Hnan.
  - split; (eexists; split; [reflexivity |]);
      (split; [discriminate | intros (H & _); discriminate]).
  - split; (eexists; split; [reflexivity |]); rewrite !andb_true_iff; tauto.
Qed.

(** Settles what the rule answers for a value from the two sides of the
    equivalence above. *)
Ltac coordinates_case H :=
  let accepted := fresh "accepted" in
  let Hrun := fresh "Hrun" in
  let Hiff := fresh "Hiff" in
  destruct H as (accepted & Hrun & Hiff);
  rewrite Hrun; f_equal;
  first
    [ apply Hiff; vm_compute; repeat split; reflexivity
    | destruct accepted; [| reflexivity];
      exfalso;
      let Hin := fresh "Hin" in
      pose proof (proj1 Hiff eq_refl) as Hin;
      vm_compute in Hin;
      destruct Hin as (Hin1 & Hin2 & Hin3);
      first [discriminate Hin1 | discriminate Hin2 | discriminate Hin3] ].

Lemma coordinates_accepts_iff_within_bounds_witness :
  validator coordinates [] (js "45.70") (Value.Str (js "lat")) = Ok true
  /\ validator coordinates [] (js "45.69999") (Value.Str (js "lat")) = Ok false
  /\ validator coordinates [] (js "45.80") (Value.Str (js "lat")) = Ok true
  /\ validator coordinates [] (js "45.80001") (Value.Str (js "lat")) = Ok false
  /\ validator coordinates [] (js "10") (Value.Str (js "lat")) = Ok false
  /\ validator coordinates [] (js "north") (Value.Str (js "lat")) = Ok false
  /\ validator coordinates [] (js "21.10") (Value.Str (js "lng")) = Ok true
  /\ validator coordinates [] (js "21.09999") (Value.Str (js "lng")) = Ok false
  /\ validator coordinates [] (js "21.35") (Value.Str (js "lng")) = Ok true
  /\ validator coordinates [] (js "21.35001") (Value.Str (js "lng")) = Ok false.
Proof.
  split.
  { coordinates_case
        (proj1 (coordinates_accepts_iff_within_bounds [] (js "45.70") ltac:(discriminate))). }
  split.
  { coordinates_case
        (proj1 (coordinates_accepts_iff_within_bounds [] (js "45.69999")
                  ltac:(discriminate))). }
  split.
  { coordinates_case
        (proj1 (coordinates_accepts_iff_within_bounds [] (js "45.80") ltac:(discriminate))). }
  split.
  { coordinates_case
        (proj1 (coordinates_accepts_iff_within_bounds [] (js "45.80001")
                  ltac:(discriminate))). }
  split.
  { coordinates_case
        (proj1 (coordinates_accepts_iff_within_bounds [] (js "10") ltac:(discriminate))). }
  split.
  { coordinates_case
        (proj1 (coordinates_accepts_iff_within_bounds [] (js "north") ltac:(discriminate))). }
  split.
  { coordinates_case
        (proj2 (coordinates_accepts_iff_within_bounds [] (js "21.10") ltac:(discriminate))). }
  split.
  { coordinates_case
        (proj2 (coordinates_accepts_iff_within_bounds [] (js "21.09999")
                  ltac:(discriminate))). }
  split.
  { coordinates_case
        (proj2 (coordinates_accepts_iff_within_bounds [] (js "21.35") ltac:(discriminate))). }
  coordinates_case
      (proj2 (coordinates_accepts_iff_within_bounds [] (js "21.35001")
                ltac:(discriminate))).
Defined.









End FormValidatorFacts.

(** ** AccessibilityMap: marker classes *)

Section MarkerFacts.

Import AccessibilityMap.

Lemma truthy_or (a b : value) :
  Value.truthy (Value.or a b) = Value.truthy a || Value.truthy b.
Proof. unfold Value.or. destruct (Value.truthy a) eqn:E; [exact E | reflexivity]. Qed.

(** Whether the property [k] of the record holds (is truthy). *)
Definition holds (props : list (jsstring * value)) (k : string) : bool :=
  Value.truthy (default Value.Undefined (Value.assoc (js k) props)).

(** Whether [c] is one of the classes of a class name. *)
Definition has_class (c : string) (className : jsstring) : bool :=
  bool_decide (js c ∈ JSString.split 32 className).

(** [C8] For every location record, the class name [getMarkerIconClass]
    returns holds [fully-accessible] exactly when the location is
    wheelchair accessible (ramp, accessible entrance or accessible
    parking), visually accessible (braille or audio guidance), has staff
    assistance and has audio guidance; then none of [wheelchair],
    [visual], [cognitive], [hearing] is among the classes, and otherwise
    each of them is there exactly when its own flag holds; [pending] is
    there exactly when [is_approved] does not hold. *)
Theorem marker_icon_class_spec (props : list (jsstring * value)) :
  let isWheelchair :=
    holds props "has_ramp" || holds props "has_accessible_entrance"
    || holds props "has_accessible_parking" in
  let isVisual := holds props "has_braille" || holds props "has_audio_guidance" in
  let isCognitive := holds props "has_staff_assistance" in
  let isHearing := holds props "has_audio_guidance" in
  let fully := isWheelchair && isVisual && isCognitive && isHearing in
  exists className,
    getMarkerIconClass (Value.Object props) = Ok className
    /\ has_class "fully-accessible" className = fully
    /\ has_class "wheelchair" className = negb fully && isWheelchair
    /\ has_class "visual" className = negb fully && isVisual
    /\ has_class "cognitive" className = negb fully && isCognitive
    /\ has_class "hearing" className = negb fully && isHearing
    /\ has_class "pending" className = negb (holds props "is_approved").
Proof.
  unfold getMarkerIconClass, prop, Value.get, holds, Value.not.
  cbn [mbind outcome_mbind outcome_bind].
  generalize (default Value.Undefined (Value.assoc (js "has_ramp") props)).
  generalize (default Value.Undefined (Value.assoc (js "has_accessible_entrance") props)).
  generalize (default Value.Undefined (Value.assoc (js "has_accessible_parking") props)).
  generalize (default Value.Undefined (Value.assoc (js "has_braille") props)).
  generalize (default Value.Undefined (Value.assoc (js "has_audio_guidance") props)).
  generalize (default Value.Undefined (Value.assoc (js "has_staff_assistance") props)).
  generalize (default Value.Undefined (Value.assoc (js "is_approved") props)).
  intros approved staff audio braille parking entrance ramp.
  rewrite !truthy_or.
  eexists. split; [reflexivity |].
  destruct (Value.truthy ramp), (Value.truthy entrance), (Value.truthy parking),
    (Value.truthy braille), (Value.truthy audio), (Value.truthy staff),
    (Value.truthy approved); vm_compute; repeat split.
Qed.

End MarkerFacts.

(** ** AccessibilityApp: text size *)

Section TextSizeFacts.

Import AccessibilityApp.

(** [savePreferences] never throws and touches nothing but the platform
    (the storage on success, the console on failure). *)
Lemma savePreferences_frame (w : World) :
  exists p, savePreferences w = (Ok tt, on_platform (fun _ => p) w).
Proof.
  unfold savePreferences, Eff.try_catch, localStorage_setItem, this_state.
  rewrite bind_run. cbn [Eff.gets].
  destruct (Storage.setItem _ _ _) as [st | e].
  - eexists. unfold set_localStorage, on_platform. reflexivity.
  - eexists. unfold console_warn, console_push, Eff.modify, set_console, on_platform.
    reflexivity.
Qed.

Definition normal : value := Value.Str (js "normal").
Definition large : value := Value.Str (js "large").
Definition xl : value := Value.Str (js "xl").

(** The size one step up and one step down, as the two methods choose it. *)
Definition size_up (v : value) : value :=
  if Value.strict_eq_str v (js "normal") then large
  else if Value.strict_eq_str v (js "large") then xl
  else v.

Definition size_down (v : value) : value :=
  if Value.strict_eq_str v (js "xl") then large
  else if Value.strict_eq_str v (js "large") then normal
  else v.

Lemma increaseTextSize_state (w : World) :
  fst (increaseTextSize w) = Ok tt
  /\ app (snd (increaseTextSize w))
     = {| highContrast := highContrast (app w);
          textSize := size_up (textSize (app w));
          userPreferences := userPreferences (app w) |}.
Proof.
  unfold increaseTextSize, size_up, this_state.
  rewrite bind_run. cbn [Eff.gets].
  destruct (Value.strict_eq_str (textSize (app w)) (js "normal"));
    [| destruct (Value.strict_eq_str (textSize (app w)) (js "large"))].
  all: unfold body_add, body_remove; run.
  all: match goal with
       | |- context [savePreferences ?w'] =>
           destruct (savePreferences_frame w') as [p ->]
       end.
  all: unfold announceAccessibilityChange; run.
  all: split; [reflexivity |].
  all: cbn [snd app set_accessibility_announcer on_document on_platform
            set_textSize set_body on_app highContrast textSize userPreferences].
  all: try reflexivity.
  destruct (app w); reflexivity.
Qed.

Lemma decreaseTextSize_state (w : World) :
  fst (decreaseTextSize w) = Ok tt
  /\ app (snd (decreaseTextSize w))
     = {| highContrast := highContrast (app w);
          textSize := size_down (textSize (app w));
          userPreferences := userPreferences (app w) |}.
Proof.
  unfold decreaseTextSize, size_down, this_state.
  rewrite bind_run. cbn [Eff.gets].
  destruct (Value.strict_eq_str (textSize (app w)) (js "xl"));
    [| destruct (Value.strict_eq_str (textSize (app w)) (js "large"))].
  all: unfold body_add, body_remove; run.
  all: match goal with
       | |- context [savePreferences ?w'] =>
           destruct (savePreferences_frame w') as [p ->]
       end.
  all: unfold announceAccessibilityChange; run.
  all: split; [reflexivity |].
  all: cbn [snd app set_accessibility_announcer on_document on_platform
            set_textSize set_body on_app highContrast textSize userPreferences].
  all: try reflexivity.
  destruct (app w); reflexivity.
Qed.

Definition valid_size (v : value) : Prop := v = normal \/ v = large \/ v = xl.

(** [C9] From the text size ['normal'] or ['large'], [increaseTextSize]
    followed by [decreaseTextSize] gives back the state it started from;
    at ['xl'] [increaseTextSize] leaves the state as it is, and so does
    [decreaseTextSize] at ['normal']; both keep a text size that is one
    of ['normal'], ['large'], ['xl'] among these three. *)
Theorem text_size_steps (w : World) :
  (textSize (app w) = normal \/ textSize (app w) = large ->
     fst ((increaseTextSize;; decreaseTextSize) w) = Ok tt
     /\ app (snd ((increaseTextSize;; decreaseTextSize) w)) = app w)
  /\ (textSize (app w) = xl -> app (snd (increaseTextSize w)) = app w)
  /\ (textSize (app w) = normal -> app (snd (decreaseTextSize w)) = app w)
  /\ (valid_size (textSize (app w)) ->
        valid_size (textSize (app (snd (increaseTextSize w))))
        /\ valid_size (textSize (app (snd (decreaseTextSize w))))).
Proof.
  pose proof (increaseTextSize_state w) as [Hi Hia].
  pose proof (decreaseTextSize_state w) as [Hd Hda].
  repeat split.
  - rewrite bind_run.
    destruct (increaseTextSize w) as [[[]|e] w1]; [| discriminate].
    apply (decreaseTextSize_state w1).
  - rewrite bind_run.
    destruct (increaseTextSize w) as [[[]|e] w1] eqn:E; [| discriminate].
    destruct (decreaseTextSize_state w1) as [_ ->].
    cbn [snd] in Hia. rewrite Hia. cbn [highContrast textSize userPreferences].
    destruct (app w) as [hc ts up]. cbn [textSize] in *.
    destruct H as [-> | ->]; reflexivity.
  - intros Hxl. rewrite Hia. destruct (app w) as [hc ts up].
    cbn [textSize] in *. subst ts. reflexivity.
  - intros Hn. rewrite Hda. destruct (app w) as [hc ts up].
    cbn [textSize] in *. subst ts. reflexivity.
  - rewrite Hia. cbn [textSize].
    destruct H as [-> | [-> | ->]]; unfold valid_size; cbn; auto.
  - rewrite Hda. cbn [textSize].
    destruct H as [-> | [-> | ->]]; unfold valid_size; cbn; auto.
Qed.

End TextSizeFacts.

(** ** Numbers: the sign of a rounded positive integer *)

Section RoundingFacts.

Lemma shr_m_of_loc (m : Z) (l : location) : shr_m (shr_record_of_loc m l) = m.
Proof. destruct l as [|[]]; reflexivity. Qed.

Lemma shr_1_div2 (r : shr_record) :
  0 <= shr_m r -> shr_m (shr_1 r) = Z.div2 (shr_m r).
Proof. destruct r as [[|[p|p|]|p] ? ?]; cbn [shr_m]; try lia; reflexivity. Qed.

Lemma pow2_xO (n : positive) : 2 ^ Zpos n~0 = 2 ^ Zpos n * 2 ^ Zpos n.
Proof. rewrite <- Z.pow_add_r by lia. f_equal. lia. Qed.

Lemma pow2_xI (n : positive) : 2 ^ Zpos n~1 = 2 * (2 ^ Zpos n * 2 ^ Zpos n).
Proof.
  rewrite <- Z.pow_add_r, <- Z.pow_succ_r by lia. f_equal. lia.
Qed.

Lemma shr_iter_div (n : positive) (r : shr_record) :
  0 <= shr_m r -> shr_m (SpecFloat.iter_pos shr_1 n r) = shr_m r / 2 ^ Zpos n.
Proof.
  revert r. induction n as [n IH | n IH |]; intros r Hr; cbn [SpecFloat.iter_pos].
  - assert (0 <= shr_m (shr_1 r)) as H1.
    { rewrite shr_1_div2, Z.div2_div by exact Hr. apply Z.div_pos; lia. }
    assert (0 <= shr_m (SpecFloat.iter_pos shr_1 n (shr_1 r))) as H2.
    { rewrite IH by exact H1. apply Z.div_pos; [exact H1 | lia]. }
    rewrite IH, IH, shr_1_div2, Z.div2_div by assumption.
    rewrite pow2_xI, !Z.div_div by lia. reflexivity.
  - assert (0 <= shr_m (SpecFloat.iter_pos shr_1 n r)) as H2.
    { rewrite IH by exact Hr. apply Z.div_pos; [exact Hr | lia]. }
    rewrite IH, IH by assumption. rewrite pow2_xO, Z.div_div by lia.
    reflexivity.
  - rewrite shr_1_div2, Z.div2_div by exact Hr. reflexivity.
Qed.

Lemma digits2_size (p : positive) : digits2_pos p = Pos.size p.
Proof. induction p; cbn; congruence. Qed.

Lemma Zdigits2_log2 (m : Z) : 0 < m -> Zdigits2 m = Z.log2 m + 1.
Proof.
  destruct m as [|p|p]; try lia. intros _. cbn [Zdigits2].
  rewrite digits2_size. destruct p; cbn [Z.log2 Pos.size]; lia.
Qed.

(** Shifting a positive mantissa to its canonical exponent leaves it
    positive, as long as the number is not below the subnormal range. *)
Lemma shr_fexp_positive (m e : Z) (l : location) (r : shr_record) (e' : Z) :
  0 < m -> -1073 <= Zdigits2 m + e ->
  shr_fexp Number.prec Number.emax m e l = (r, e') ->
  0 < shr_m r /\ Zdigits2 (shr_m r) + e' = Zdigits2 m + e.
Proof.
  intros Hm Hd. unfold shr_fexp, shr.
  pose proof (Zdigits2_log2 m Hm) as Hlog.
  pose proof (Z.log2_nonneg m) as Hnn.
  destruct (fexp Number.prec Number.emax (Zdigits2 m + e) - e) as [|n|n] eqn:Hn;
    intros [= <- <-]; rewrite ?shr_m_of_loc; try (split; [exact Hm | reflexivity]).
  rewrite shr_iter_div by (rewrite shr_m_of_loc; lia). rewrite shr_m_of_loc.
  assert (Zpos n <= Z.log2 m) as Hle.
  { unfold fexp, emin, Number.prec, Number.emax in Hn. lia. }
  assert (0 < m / 2 ^ Zpos n) as Hq.
  { apply Z.div_str_pos. split; [lia |].
    transitivity (2 ^ Z.log2 m); [apply Z.pow_le_mono_r; lia |].
    apply Z.log2_spec, Hm. }
  split; [exact Hq |].
  rewrite (Zdigits2_log2 _ Hq), <- Z.shiftr_div_pow2, Z.log2_shiftr by lia. lia.
Qed.

Lemma round_nearest_even_bounds (m : Z) (l : location) :
  m <= round_nearest_even m l <= m + 1.
Proof. destruct l as [|[]]; cbn; try destruct (Z.even m); lia. Qed.

Lemma binary_round_aux_positive (sx : bool) (mx ex : Z) (lx : location) :
  0 < mx -> -1073 <= Zdigits2 mx + ex ->
  exists m e,
    binary_round_aux Number.prec Number.emax sx mx ex lx = S754_finite sx m e
    \/ binary_round_aux Number.prec Number.emax sx mx ex lx = S754_infinity sx.
Proof.
  intros Hm Hd. unfold binary_round_aux.
  destruct (shr_fexp _ _ mx ex lx) as [r1 e1] eqn:E1.
  destruct (shr_fexp_positive _ _ _ _ _ Hm Hd E1) as [H1 D1].
  pose proof (round_nearest_even_bounds (shr_m r1) (loc_of_shr_record r1)) as Hr.
  set (m2 := round_nearest_even (shr_m r1) (loc_of_shr_record r1)) in *.
  destruct (shr_fexp _ _ m2 e1 loc_Exact) as [r2 e2] eqn:E2.
  assert (0 < m2) as Hm2 by lia.
  assert (-1073 <= Zdigits2 m2 + e1) as Hd2.
  { rewrite (Zdigits2_log2 _ Hm2). rewrite (Zdigits2_log2 _ H1) in D1.
    pose proof (Z.log2_le_mono (shr_m r1) m2 ltac:(lia)). lia. }
  destruct (shr_fexp_positive _ _ _ _ _ Hm2 Hd2 E2) as [H2 _].
  destruct (shr_m r2) as [|p|p]; try lia.
  destruct (e2 <=? Number.emax - Number.prec).
  - exists p, e2. left. reflexivity.
  - exists p, e2. right. reflexivity.
Qed.

Lemma digits2_shl (p d : positive) :
  Zpos (digits2_pos (Pos.iter xO p d)) = Zpos (digits2_pos p) + Zpos d.
Proof.
  induction d as [|d IH] using Pos.peano_ind.
  - cbn. lia.
  - rewrite Pos.iter_succ. cbn [digits2_pos]. lia.
Qed.

Lemma binary_round_positive (sx : bool) (mx : positive) :
  exists m e,
    binary_round Number.prec Number.emax sx mx 0 = S754_finite sx m e
    \/ binary_round Number.prec Number.emax sx mx 0 = S754_infinity sx.
Proof.
  unfold binary_round, shl_align.
  destruct (fexp _ _ (Zpos (digits2_pos mx) + 0) - 0) as [|d|d] eqn:Hd;
    apply binary_round_aux_positive; try lia; cbn [Zdigits2]; try lia.
  rewrite digits2_shl.
  unfold fexp, emin, Number.prec, Number.emax in *. lia.
Qed.

(** A positive integer converts to a number above zero. *)
Lemma of_Z_positive (p : positive) :
  Number.gt (Number.of_Z (Zpos p)) (Number.of_Z 0) = true.
Proof.
  unfold Number.of_Z, Number.of_decimal.
  change (Z.abs (Zpos p)) with (Zpos p). change (Zpos p <? 0) with false.
  change (0 <=? 0) with true. cbv iota.
  replace (Zpos p * 10 ^ 0) with (Zpos p) by (cbn; lia).
  destruct (binary_round_positive false p) as (m & e & [-> | ->]); reflexivity.
Qed.

End RoundingFacts.

(** ** AccessibilityFilters: the filter state *)

Section FilterStateFacts.

Import Value AccessibilityFilters.

(** The filter state as the class builds it: four booleans and the list
    of the selected location types. *)
Definition filter_state (wheelchair visual hearing cognitive : bool)
    (types : list jsstring) : value :=
  Object [ (js "wheelchair", Bool wheelchair);
           (js "visual", Bool visual);
           (js "hearing", Bool hearing);
           (js "cognitive", Bool cognitive);
           (js "locationTypes", Array (Str <$> types)) ].

Definition is_filter_state (f : value) : Prop :=
  exists wheelchair visual hearing cognitive types,
    f = filter_state wheelchair visual hearing cognitive types.

(** An object whose five filter properties are four booleans and a list
    of strings, whatever the order of its properties. *)
Definition has_filters (f : value) (wheelchair visual hearing cognitive : bool)
    (types : list jsstring) : Prop :=
  exists props,
    f = Object props
    /\ assoc (js "wheelchair") props = Some (Bool wheelchair)
    /\ assoc (js "visual") props = Some (Bool visual)
    /\ assoc (js "hearing") props = Some (Bool hearing)
    /\ assoc (js "cognitive") props = Some (Bool cognitive)
    /\ assoc (js "locationTypes") props = Some (Array (Str <$> types)).

Lemma filter_state_has_filters (a b c d : bool) (types : list jsstring) :
  has_filters (filter_state a b c d types) a b c d types.
Proof. eexists. repeat split; reflexivity. Qed.

Lemma default_filters_state : default_filters = filter_state false false false false [].
Proof. reflexivity. Qed.

Lemma length_positive (l : list value) :
  Number.gt (Number.of_Z (Z.of_nat (List.length l))) (Number.of_Z 0)
  = negb (bool_decide (l = [])).
Proof.
  destruct l as [|x l]; [reflexivity |].
  rewrite bool_decide_eq_false_2 by discriminate.
  cbn [List.length negb]. rewrite Nat2Z.inj_succ.
  destruct (Z.of_nat (List.length l)) as [|p|p] eqn:E; try lia;
    apply of_Z_positive.
Qed.

(** What [hasActiveFilters] computes on such an object. *)
Lemma hasActiveFilters_run (w : World) (a b c d : bool) (types : list jsstring) :
  has_filters (filters (filtersObj w)) a b c d types ->
  hasActiveFilters w
  = (Ok (Bool (a || b || c || d || negb (bool_decide (types = [])))), w).
Proof.
  intros (props & Hf & Ha & Hb & Hc & Hd & Ht).
  unfold hasActiveFilters, filters_get, this_filters. run.
  rewrite Hf. unfold get at 1. rewrite Ha. cbn [default from_option id truthy].
  destruct a; [reflexivity |]. run.
  rewrite Hf. unfold get at 1. rewrite Hb. cbn [default from_option id truthy].
  destruct b; [reflexivity |]. run.
  rewrite Hf. unfold get at 1. rewrite Hc. cbn [default from_option id truthy].
  destruct c; [reflexivity |]. run.
  rewrite Hf. unfold get at 1. rewrite Hd. cbn [default from_option id truthy].
  destruct d; [reflexivity |]. run.
  rewrite Hf. unfold get at 1. rewrite Ht. cbn [default from_option id]. run.
  unfold get. rewrite bool_decide_eq_true_2 by reflexivity.
  cbn [toNumber orb]. rewrite length_positive. do 3 f_equal.
  destruct types; reflexivity.
Qed.

End FilterStateFacts.

(** ** JSON: what is written is read back *)

Section JSONFacts.

Import Value JSON.

Lemma hex_value_digit (d : N) :
  (d < 16)%N -> hex_value (hex_digit d) = Some d.
Proof.
  intros H.
  assert (d = 0 \/ d = 1 \/ d = 2 \/ d = 3 \/ d = 4 \/ d = 5 \/ d = 6 \/ d = 7
          \/ d = 8 \/ d = 9 \/ d = 10 \/ d = 11 \/ d = 12 \/ d = 13 \/ d = 14
          \/ d = 15)%N as Hd by lia.
  repeat (destruct Hd as [-> | Hd]; [reflexivity |]).
  subst d. reflexivity.
Qed.

Lemma hex_digits_sum (c : N) :
  (c < 65536)%N ->
  (c / 4096 mod 16 * 4096 + c / 256 mod 16 * 256 + c / 16 mod 16 * 16 + c mod 16
   = c)%N.
Proof.
  intros H. zify. Z.to_euclidean_division_equations. lia.
Qed.

Lemma hex4_escape (c : N) :
  (c < 65536)%N ->
  hex4 (hex_digit (c / 4096 mod 16)) (hex_digit (c / 256 mod 16))
       (hex_digit (c / 16 mod 16)) (hex_digit (c mod 16)) = Some c.
Proof.
  intros H. unfold hex4.
  rewrite !hex_value_digit by (apply N.mod_lt; discriminate).
  f_equal. apply hex_digits_sum. exact H.
Qed.

Definition cons_unit (c : N) (r : option (jsstring * jsstring))
  : option (jsstring * jsstring) :=
  match r with
  | Some (str, rest) => Some (c :: str, rest)
  | None => None
  end.

Lemma parse_unicode_escape (c : N) (t : jsstring) :
  (c < 65536)%N ->
  parse_string_body (unicode_escape c ++ t) = cons_unit c (parse_string_body t).
Proof.
  intros H. unfold unicode_escape. cbn [Datatypes.app parse_string_body].
  change (92 =? 34)%N with false. change (92 =? 92)%N with true.
  change (117 =? 117)%N with true. cbv iota.
  rewrite hex4_escape by exact H. reflexivity.
Qed.

Lemma parse_plain_unit (c : N) (t : jsstring) :
  (c =? 34)%N = false -> (c =? 92)%N = false -> (c <? 32)%N = false ->
  parse_string_body (c :: t) = cons_unit c (parse_string_body t).
Proof. intros H1 H2 H3. cbn [parse_string_body]. rewrite H1, H2, H3. reflexivity. Qed.

Lemma parse_quote_unit (c : N) (t : jsstring) :
  is_high_surrogate c = false -> is_low_surrogate c = false ->
  parse_string_body (quote_unit c ++ t) = cons_unit c (parse_string_body t).
Proof.
  intros Hh Hl. unfold quote_unit.
  destruct (c =? 8)%N eqn:E8; [apply N.eqb_eq in E8 as ->; reflexivity |].
  destruct (c =? 9)%N eqn:E9; [apply N.eqb_eq in E9 as ->; reflexivity |].
  destruct (c =? 10)%N eqn:E10; [apply N.eqb_eq in E10 as ->; reflexivity |].
  destruct (c =? 12)%N eqn:E12; [apply N.eqb_eq in E12 as ->; reflexivity |].
  destruct (c =? 13)%N eqn:E13; [apply N.eqb_eq in E13 as ->; reflexivity |].
  destruct (c =? 34)%N eqn:E34; [apply N.eqb_eq in E34 as ->; reflexivity |].
  destruct (c =? 92)%N eqn:E92; [apply N.eqb_eq in E92 as ->; reflexivity |].
  destruct (c <? 32)%N eqn:E32.
  - apply parse_unicode_escape. apply N.ltb_lt in E32. lia.
  - apply parse_plain_unit; assumption.
Qed.

Lemma surrogate_bounds (c : N) :
  is_high_surrogate c = true \/ is_low_surrogate c = true ->
  (c < 65536)%N /\ (c =? 34)%N = false /\ (c =? 92)%N = false
  /\ (c <? 32)%N = false.
Proof.
  unfold is_high_surrogate, is_low_surrogate.
  rewrite !andb_true_iff, !N.leb_le, !N.eqb_neq, N.ltb_ge. lia.
Qed.

(** A quoted string is read back as the string it was made from. *)
Lemma parse_quote_units (s : jsstring) (prev_high : bool) (rest : jsstring) :
  parse_string_body (quote_units prev_high s ++ 34%N :: rest) = Some (s, rest).
Proof.
  revert prev_high. induction s as [|c r IH]; intros prev_high; [reflexivity |].
  cbn [quote_units]. rewrite <- app_assoc.
  assert (forall x, parse_string_body (x ++ quote_units (is_high_surrogate c) r
                                          ++ 34%N :: rest)
                    = cons_unit c (parse_string_body
                                     (quote_units (is_high_surrogate c) r
                                      ++ 34%N :: rest)) ->
                    parse_string_body (x ++ quote_units (is_high_surrogate c) r
                                          ++ 34%N :: rest) = Some (c :: r, rest)) as Hk.
  { intros x ->. rewrite IH. reflexivity. }
  apply Hk.
  destruct (is_high_surrogate c) eqn:Hh;
    [| destruct (is_low_surrogate c) eqn:Hl].
  - destruct (surrogate_bounds c (or_introl Hh)) as (? & ? & ? & ?).
    destruct (match r with [] => false | d :: _ => is_low_surrogate d end);
      [apply parse_plain_unit | apply parse_unicode_escape]; assumption.
  - destruct (surrogate_bounds c (or_intror Hl)) as (? & ? & ? & ?).
    destruct prev_high;
      [apply parse_plain_unit | apply parse_unicode_escape]; assumption.
  - apply parse_quote_unit; assumption.
Qed.

Lemma parse_value_string (fuel : nat) (s rest : jsstring) :
  parse_value (S fuel) (quote s ++ rest) = Some (Str s, rest).
Proof.
  unfold quote. cbn [Datatypes.app parse_value skip_ws].
  change (is_ws 34) with false. cbv iota.
  change (34 =? 34)%N with true. cbv iota.
  rewrite <- app_assoc. cbn [Datatypes.app]. rewrite parse_quote_units. reflexivity.
Qed.

Lemma parse_value_bool (fuel : nat) (b : bool) (rest : jsstring) :
  parse_value (S fuel) (js (if b then "true" else "false") ++ rest)
  = Some (Bool b, rest).
Proof. destruct b; reflexivity. Qed.

(** The elements of an array of strings, as [serialize] lays them out. *)
Definition string_elements (l : list jsstring) : jsstring :=
  JSString.join (js ",") (quote <$> l).

Lemma serialize_strings (l : list jsstring) :
  map (fun e => default (js "null") (serialize e)) (Str <$> l) = quote <$> l.
Proof.
  induction l as [|x l IH]; [reflexivity |].
  cbn [fmap list_fmap map]. f_equal. exact IH.
Qed.

Lemma serialize_string_array (l : list jsstring) :
  serialize (Array (Str <$> l)) = Some (js "[" ++ string_elements l ++ js "]").
Proof.
  cbn [serialize]. unfold string_elements. rewrite serialize_strings. reflexivity.
Qed.

Lemma parse_string_elements (l : list jsstring) (fuel : nat) (rest : jsstring) :
  l <> [] -> (List.length l < fuel)%nat ->
  parse_elements fuel (string_elements l ++ 93%N :: rest) = Some (Str <$> l, rest).
Proof.
  revert fuel. induction l as [|x l IH]; intros fuel Hne Hlen; [congruence |].
  destruct fuel as [|fuel]; [cbn in Hlen; lia |].
  destruct l as [|y l].
  - unfold string_elements. cbn [fmap list_fmap JSString.join parse_elements].
    destruct fuel as [|fuel]; [cbn in Hlen; lia |].
    rewrite parse_value_string. reflexivity.
  - unfold string_elements in *. cbn [fmap list_fmap JSString.join parse_elements] in *.
    destruct fuel as [|fuel]; [cbn in Hlen; lia |].
    rewrite <- !app_assoc. rewrite parse_value_string.
    change (js ",") with [44%N]. cbn [Datatypes.app skip_ws].
    change (is_ws 44) with false. cbv iota.
    rewrite IH; [reflexivity | discriminate | cbn in *; lia].
Qed.

Lemma parse_value_string_array (l : list jsstring) (fuel : nat) (rest : jsstring) :
  (List.length l + 1 < fuel)%nat ->
  parse_value fuel (js "[" ++ string_elements l ++ js "]" ++ rest)
  = Some (Array (Str <$> l), rest).
Proof.
  intros Hlen. destruct fuel as [|fuel]; [lia |].
  destruct l as [|x l]; [reflexivity |].
  change (js "[") with [91%N]. change (js "]") with [93%N].
  cbn [Datatypes.app parse_value skip_ws].
  change (is_ws 91) with false. cbv iota.
  change (91 =? 34)%N with false. change (91 =? 91)%N with true. cbv iota.
  assert (skip_ws (string_elements (x :: l) ++ 93%N :: rest)
          = 34%N :: tl (string_elements (x :: l) ++ 93%N :: rest)) as ->.
  { unfold string_elements. cbn [fmap list_fmap JSString.join].
    destruct (quote <$> l); reflexivity. }
  rewrite parse_string_elements; [reflexivity | discriminate | cbn in *; lia].
Qed.

Lemma parse_member_key (k rest : jsstring) :
  skip_ws (quote k ++ rest) = 34%N :: quote_units false k ++ 34%N :: rest.
Proof.
  unfold quote. rewrite <- !app_assoc. cbn [Datatypes.app skip_ws].
  change (is_ws 34) with false. reflexivity.
Qed.

(** One member of an object that is followed by another one. *)
Lemma parse_member_more (fuel : nat) (acc : list (jsstring * value))
    (k text : jsstring) (v : value) (more : jsstring) :
  (forall rest, parse_value fuel (text ++ rest) = Some (v, rest)) ->
  parse_members (S fuel) acc (quote k ++ js ":" ++ text ++ js "," ++ more)
  = parse_members fuel (define k v acc) more.
Proof.
  intros Hv. cbn [parse_members]. rewrite parse_member_key, parse_quote_units.
  change (js ":") with [58%N]. change (js ",") with [44%N].
  cbn [Datatypes.app skip_ws]. change (is_ws 58) with false. cbv iota.
  rewrite Hv. cbn [skip_ws]. change (is_ws 44) with false. reflexivity.
Qed.

(** The last member of an object. *)
Lemma parse_member_last (fuel : nat) (acc : list (jsstring * value))
    (k text : jsstring) (v : value) (rest : jsstring) :
  (forall rest, parse_value fuel (text ++ rest) = Some (v, rest)) ->
  parse_members (S fuel) acc (quote k ++ js ":" ++ text ++ js "}" ++ rest)
  = Some (define k v acc, rest).
Proof.
  intros Hv. cbn [parse_members]. rewrite parse_member_key, parse_quote_units.
  change (js ":") with [58%N]. change (js "}") with [125%N].
  cbn [Datatypes.app skip_ws]. change (is_ws 58) with false. cbv iota.
  rewrite Hv. cbn [skip_ws]. change (is_ws 125) with false. reflexivity.
Qed.

Lemma string_elements_length (l : list jsstring) :
  (List.length l <= List.length (string_elements l))%nat.
Proof.
  unfold string_elements. induction l as [|x l IH]; [cbn; lia |].
  cbn [fmap list_fmap JSString.join] in *.
  destruct (quote <$> l) eqn:E.
  - destruct l; [cbn; lia | discriminate].
  - rewrite !length_app. unfold quote at 1. cbn [List.length Datatypes.app] in *. lia.
Qed.

Definition bool_text (b : bool) : jsstring := js (if b then "true" else "false").

(** The text [JSON.stringify] gives for a filter state. *)
Definition filter_state_text (a b c d : bool) (types : list jsstring) : jsstring :=
  js "{" ++ quote (js "wheelchair") ++ js ":" ++ bool_text a ++ js ","
  ++ quote (js "visual") ++ js ":" ++ bool_text b ++ js ","
  ++ quote (js "hearing") ++ js ":" ++ bool_text c ++ js ","
  ++ quote (js "cognitive") ++ js ":" ++ bool_text d ++ js ","
  ++ quote (js "locationTypes") ++ js ":"
  ++ (js "[" ++ string_elements types ++ js "]") ++ js "}" ++ [].

Lemma stringify_filter_state (a b c d : bool) (types : list jsstring) :
  stringify (filter_state a b c d types) = Some (filter_state_text a b c d types).
Proof.
  unfold stringify, filter_state.
  cbn [serialize omap list_omap snd fst]. rewrite serialize_strings.
  fold (string_elements types). cbn [JSString.join].
  unfold filter_state_text, bool_text. rewrite <- !app_assoc, app_nil_r.
  reflexivity.
Qed.

Lemma parse_filter_state_text (a b c d : bool) (types : list jsstring) :
  parse (filter_state_text a b c d types) = Ok (filter_state a b c d types).
Proof.
  unfold parse.
  assert (exists fuel, S (List.length (filter_state_text a b c d types))
                       = S (S (S (S (S (S fuel)))))
                       /\ (List.length types + 1 < fuel)%nat) as (fuel & -> & Hfuel).
  { pose proof (string_elements_length types) as Hlen.
    exists (List.length (filter_state_text a b c d types) - 5)%nat.
    unfold filter_state_text. rewrite !length_app.
    destruct a, b, c, d; cbn [bool_text List.length quote js]; cbn; lia. }
  unfold filter_state_text at 1.
  change (js "{") with [123%N]. cbn [Datatypes.app parse_value skip_ws].
  change (is_ws 123) with false. cbv iota.
  change (123 =? 34)%N with false. change (123 =? 91)%N with false.
  change (123 =? 123)%N with true. cbv iota.
  rewrite parse_member_key. cbv iota.
  rewrite (parse_member_more _ _ _ _ (Bool a))
    by (intros; apply parse_value_bool).
  rewrite (parse_member_more _ _ _ _ (Bool b))
    by (intros; apply parse_value_bool).
  rewrite (parse_member_more _ _ _ _ (Bool c))
    by (intros; apply parse_value_bool).
  rewrite (parse_member_more _ _ _ _ (Bool d))
    by (intros; apply parse_value_bool).
  rewrite (parse_member_last _ _ _ _ (Array (Str <$> types)))
    by (intros; rewrite <- !app_assoc; apply parse_value_string_array; lia).
  reflexivity.
Qed.

(** Writing a filter state and reading the text back gives the state. *)
Lemma filter_state_reads_back (a b c d : bool) (types : list jsstring) :
  exists text,
    stringify (filter_state a b c d types) = Some text
    /\ text <> []
    /\ parse text = Ok (filter_state a b c d types).
Proof.
  exists (filter_state_text a b c d types).
  split; [apply stringify_filter_state |].
  split; [discriminate | apply parse_filter_state_text].
Qed.

End JSONFacts.

(** ** Specifications of computations *)

Section Triples.

(** [triple P m Q E]: started in a world satisfying [P], the computation
    [m] either returns a value [a] in a world satisfying [Q a], or throws
    an exception [e] in a world satisfying [E e]. *)
Definition triple {A} (P : World -> Prop) (m : JS A)
    (Q : A -> World -> Prop) (E : exn -> World -> Prop) : Prop :=
  forall w, P w ->
    match m w with
    | (Ok a, w') => Q a w'
    | (Throw e, w') => E e w'
    end.

Lemma triple_weaken {A} (P P' : World -> Prop) (m : JS A)
    (Q Q' : A -> World -> Prop) (E E' : exn -> World -> Prop) :
  triple P' m Q' E' ->
  (forall w, P w -> P' w) ->
  (forall a w, Q' a w -> Q a w) ->
  (forall e w, E' e w -> E e w) ->
  triple P m Q E.
Proof.
  intros Hm HP HQ HE w Hw. specialize (Hm w (HP w Hw)).
  destruct (m w) as [[a|e] w']; auto.
Qed.

Lemma triple_ret {A} (P : World -> Prop) (a : A)
    (Q : A -> World -> Prop) (E : exn -> World -> Prop) :
  (forall w, P w -> Q a w) -> triple P (mret a) Q E.
Proof. intros H w Hw. apply H, Hw. Qed.

Lemma triple_bind {A B} (P : World -> Prop) (m : JS A) (k : A -> JS B)
    (Q : A -> World -> Prop) (R : B -> World -> Prop) (E : exn -> World -> Prop) :
  triple P m Q E -> (forall a, triple (Q a) (k a) R E) -> triple P (m ≫= k) R E.
Proof.
  intros Hm Hk w Hw. rewrite bind_run. specialize (Hm w Hw).
  destruct (m w) as [[a|e] w']; [apply (Hk a w' Hm) | exact Hm].
Qed.

Lemma triple_gets {A} (P : World -> Prop) (f : World -> A)
    (Q : A -> World -> Prop) (E : exn -> World -> Prop) :
  (forall w, P w -> Q (f w) w) -> triple P (Eff.gets f) Q E.
Proof. intros H w Hw. apply H, Hw. Qed.

Lemma triple_modify (P : World -> Prop) (f : World -> World)
    (Q : unit -> World -> Prop) (E : exn -> World -> Prop) :
  (forall w, P w -> Q tt (f w)) -> triple P (Eff.modify f) Q E.
Proof. intros H w Hw. apply H, Hw. Qed.

Lemma triple_lift {A} (P : World -> Prop) (o : outcome A)
    (Q : A -> World -> Prop) (E : exn -> World -> Prop) :
  (forall w, P w -> match o with Ok a => Q a w | Throw e => E e w end) ->
  triple P (Eff.lift o) Q E.
Proof. intros H w Hw. specialize (H w Hw). destruct o; exact H. Qed.

Lemma triple_throw {A} (P : World -> Prop) (e : exn)
    (Q : A -> World -> Prop) (E : exn -> World -> Prop) :
  (forall w, P w -> E e w) -> triple P (Eff.throw e) Q E.
Proof. intros H w Hw. apply H, Hw. Qed.

Lemma triple_try_catch {A} (P : World -> Prop) (body : JS A) (handler : exn -> JS A)
    (Q : A -> World -> Prop) (E' E : exn -> World -> Prop) :
  triple P body Q E' -> (forall e, triple (E' e) (handler e) Q E) ->
  triple P (Eff.try_catch body handler) Q E.
Proof.
  intros Hb Hh w Hw. unfold Eff.try_catch. specialize (Hb w Hw).
  destruct (body w) as [[a|e] w']; [exact Hb | apply (Hh e w' Hb)].
Qed.

(** A loop keeps what each of its rounds keeps. *)
Lemma triple_forEach {A} (I : World -> Prop) (l : list A) (body : A -> JS unit)
    (E : exn -> World -> Prop) :
  (forall x, x ∈ l -> triple I (body x) (fun _ => I) E) ->
  triple I (Eff.forEach l body) (fun _ => I) E.
Proof.
  induction l as [|x l IH]; intros Hbody.
  - apply triple_ret. auto.
  - cbn [Eff.forEach]. apply (triple_bind _ _ _ (fun _ => I)).
    + apply Hbody. left.
    + intros _. apply IH. intros y Hy. apply Hbody. right. exact Hy.
Qed.

End Triples.

(** Applies the rule for the step at the head of a computation. *)
Ltac triple_step :=
  lazymatch goal with
  | |- triple _ (_ ≫= _) _ _ => eapply triple_bind; [| intros ?]
  | |- triple _ (mret _) _ _ => apply triple_ret
  | |- triple _ (Eff.ret _) _ _ => apply triple_ret
  | |- triple _ (Eff.gets _) _ _ => apply triple_gets
  | |- triple _ (Eff.modify _) _ _ => apply triple_modify
  | |- triple _ (Eff.lift _) _ _ => apply triple_lift
  | |- triple _ (Eff.throw _) _ _ => apply triple_throw
  end.

(** ** AccessibilityFilters: what each step touches *)

Section FilterSteps.

Import Value AccessibilityFilters.

(** The part of the world the filter state depends on: the fields of the
    filters object, the filter buttons, the type checkboxes and the
    storage. *)
Definition view (w : World)
  : FiltersObj * list FilterButton * list TypeFilter * Storage.t :=
  (filtersObj w, filter_buttons (document w), type_filters (document w),
   localStorage (platform w)).

Lemma triple_forEach_button (I : World -> Prop) (body : nat -> FilterButton -> JS unit)
    (E : exn -> World -> Prop) :
  (forall i button,
     triple (fun w => I w /\ filter_buttons (document w) !! i = Some button)
       (body i button) (fun _ => I) E) ->
  triple I (forEach_button body) (fun _ => I) E.
Proof.
  intros Hbody. unfold forEach_button.
  apply (triple_bind _ _ _ (fun _ => I)); [apply triple_gets; auto |]. intros n.
  apply triple_forEach. intros i _.
  eapply (triple_bind _ _ _
            (fun b w => I w /\ filter_buttons (document w) !! i = b)).
  - apply triple_gets. auto.
  - intros [button|]; [apply Hbody | apply triple_ret; tauto].
Qed.

Lemma triple_forEach_checkbox (I : World -> Prop) (body : nat -> TypeFilter -> JS unit)
    (E : exn -> World -> Prop) :
  (forall i checkbox,
     triple (fun w => I w /\ type_filters (document w) !! i = Some checkbox)
       (body i checkbox) (fun _ => I) E) ->
  triple I (forEach_checkbox body) (fun _ => I) E.
Proof.
  intros Hbody. unfold forEach_checkbox.
  apply (triple_bind _ _ _ (fun _ => I)); [apply triple_gets; auto |]. intros n.
  apply triple_forEach. intros i _.
  eapply (triple_bind _ _ _
            (fun c w => I w /\ type_filters (document w) !! i = c)).
  - apply triple_gets. auto.
  - intros [checkbox|]; [apply Hbody | apply triple_ret; tauto].
Qed.

(** The query string of a filter state is always built. *)
Lemma filterParams_filter_state (a b c d : bool) (types : list jsstring) :
  exists p, AccessibilityMap.filterParams (spread (filter_state a b c d types)) = Ok p.
Proof. eexists. reflexivity. Qed.

(** With a filter state in [this.filters], [applyFilters] returns
    normally and leaves the filters, the buttons, the checkboxes and the
    storage as they are. *)
Lemma applyFilters_frame (w : World) :
  is_filter_state (filters (filtersObj w)) ->
  exists w', applyFilters w = (Ok tt, w') /\ view w' = view w.
Proof.
  intros (a & b & c & d & types & Hf).
  unfold applyFilters, this_filters. run.
  destruct (has_map (filtersObj w)).
  - run. rewrite Hf.
    unfold AccessibilityMap.applyFilters, AccessibilityMap.loadLocations, fetch. run.
    cbn [currentFilters mapObj on_mapObj set_currentFilters set_layer_approved
           set_layer_pending].
    destruct (filterParams_filter_state a b c d types) as [p ->].
    eexists. split; reflexivity.
  - unfold console_error, console_push. run. eexists. split; reflexivity.
Qed.

(** [saveFilters] returns normally; it touches the storage alone when
    the write is accepted and the console alone when it is not. *)
Lemma saveFilters_run (w : World) :
  let key := storageKey (filtersObj w) in
  let text := default (js "undefined") (JSON.stringify (filters (filtersObj w))) in
  saveFilters w
  = match Storage.setItem key text (localStorage (platform w)) with
    | Ok st => (Ok tt, set_localStorage st w)
    | Throw e =>
        (Ok tt,
         set_console
           (console (platform w)
            ++ [{| log_level_of := LogWarn;
                   log_text := js "Could not save filters to localStorage:";
                   log_exn := Some e |}]) w)
    end.
Proof.
  unfold saveFilters, Eff.try_catch, this_filters, localStorage_setItem. run.
  destruct (Storage.setItem _ _ _); reflexivity.
Qed.

End FilterSteps.

(** ** AccessibilityFilters: active filters *)

Section ActiveFilters.

Import Value AccessibilityFilters.

Lemma view_filters (w w' : World) :
  view w' = view w -> filters (filtersObj w') = filters (filtersObj w).
Proof. unfold view. intros [= -> _ _ _]. reflexivity. Qed.

(** [resetFilters] returns normally and leaves the default filters. *)
Lemma resetFilters_spec :
  triple (fun _ => True) resetFilters
    (fun _ w => filters (filtersObj w) = default_filters) (fun _ _ => False).
Proof.
  set (I := fun w : World => filters (filtersObj w) = default_filters).
  unfold resetFilters.
  apply (triple_bind _ _ _ (fun _ => I)); [apply triple_modify; reflexivity |].
  intros _. apply (triple_bind _ _ _ (fun _ => I)).
  { apply triple_forEach_button. intros i button.
    unfold update_button. apply triple_modify. intros w [Hw _]. exact Hw. }
  intros _. apply (triple_bind _ _ _ (fun _ => I)).
  { apply triple_forEach_checkbox. intros i checkbox.
    unfold update_checkbox. apply triple_modify. intros w [Hw _]. exact Hw. }
  intros _. apply (triple_bind _ _ _ (fun _ => I)).
  { intros w Hw. destruct (applyFilters_frame w) as (w' & -> & Hv).
    - rewrite Hw, default_filters_state. repeat eexists.
    - unfold I. rewrite (view_filters _ _ Hv). exact Hw. }
  intros _. apply (triple_bind _ _ _ (fun _ => I)).
  { intros w Hw. rewrite saveFilters_run.
    destruct (Storage.setItem _ _ _); exact Hw. }
  intros _. unfold announceReset, announce. apply triple_modify.
  intros w Hw. exact Hw.
Qed.

(** [C10] After [resetFilters] has run, [hasActiveFilters] returns false;
    and on every filter state of the expected shape it returns true
    exactly when one of the four accessibility booleans is true or the
    list of location types is not empty. *)
Theorem hasActiveFilters_spec :
  (forall w, exists w',
      resetFilters w = (Ok tt, w')
      /\ fst (hasActiveFilters w') = Ok (Bool false))
  /\ (forall w wheelchair visual hearing cognitive types,
        has_filters (filters (filtersObj w)) wheelchair visual hearing cognitive types ->
        exists result,
          fst (hasActiveFilters w) = Ok (Bool result)
          /\ (result = true <->
                wheelchair = true \/ visual = true \/ hearing = true
                \/ cognitive = true \/ types <> [])).
Proof.
  split.
  - intros w. pose proof (resetFilters_spec w I) as H.
    destruct (resetFilters w) as [[[]|e] w']; [| destruct H].
    exists w'. split; [reflexivity |].
    rewrite (hasActiveFilters_run w' false false false false []); [reflexivity |].
    rewrite H. apply (filter_state_has_filters false false false false []).
  - intros w a b c d types Hf. rewrite (hasActiveFilters_run w a b c d types Hf).
    eexists. split; [reflexivity |].
    rewrite !orb_true_iff, negb_true_iff, bool_decide_eq_false. tauto.
Qed.

End ActiveFilters.

(** ** Storage *)

Section StorageFacts.

Lemma setItem_accepted (k v : jsstring) (st : Storage.t) :
  Storage.accepts k v st = true ->
  Storage.setItem k v st
  = Ok {| Storage.available := true; Storage.quota := Storage.quota st;
          Storage.items := <[k := v]> (Storage.items st) |}.
Proof.
  unfold Storage.accepts, Storage.setItem. intros [Ha Hq]%andb_true_iff.
  rewrite Ha, Hq. reflexivity.
Qed.

Lemma setItem_refused (k v : jsstring) (st : Storage.t) :
  Storage.accepts k v st = false -> exists e, Storage.setItem k v st = Throw e.
Proof.
  unfold Storage.accepts, Storage.setItem.
  destruct (Storage.available st); [| eauto].
  cbn [andb]. intros ->. eauto.
Qed.

(** What was written under a key is what is read under it. *)
Lemma getItem_setItem (k v : jsstring) (st st' : Storage.t) :
  Storage.setItem k v st = Ok st' -> Storage.getItem k st' = Ok (Some v).
Proof.
  unfold Storage.setItem, Storage.getItem.
  destruct (Storage.available st); [| discriminate].
  destruct (_ <=? _); [| discriminate].
  intros [= <-]. cbn. rewrite lookup_insert_eq. reflexivity.
Qed.

End StorageFacts.

(** ** AccessibilityFilters: saving and loading *)

Section FiltersPersistence.

Import Value AccessibilityFilters.

(** What [loadSavedFilters] does when the storage holds a non-empty text
    under the key and the text is the JSON of [v]. *)
Lemma loadSavedFilters_stored (w : World) (text : jsstring) (v : value) :
  Storage.getItem (storageKey (filtersObj w)) (localStorage (platform w))
  = Ok (Some text) ->
  text <> [] -> JSON.parse text = Ok v ->
  loadSavedFilters w = (Ok tt, set_filters v w).
Proof.
  intros Hget Hne Hparse.
  unfold loadSavedFilters, Eff.try_catch, localStorage_getItem. run.
  rewrite Hget. destruct text as [|c text]; [congruence |]. run.
  rewrite Hparse. reflexivity.
Qed.

(** A new instance as the constructor sets its fields, before
    [initFilters] runs: the default filters, under the same storage key. *)
Definition fresh_instance (w : World) : World :=
  on_filtersObj (fun o =>
    {| filters := default_filters; storageKey := storageKey o;
       has_map := has_map o |}) w.

(** [C3] For every filter state (four booleans and a list of location
    type strings): once [saveFilters] has written it to a storage that
    accepts the write, [loadSavedFilters] on a fresh instance (default
    filters, same storage key) restores exactly that filter state.  The
    state travels as the text [JSON.stringify] gives for it. *)
Theorem filters_save_load_round_trip
    (w : World) (wheelchair visual hearing cognitive : bool)
    (types : list jsstring) :
  let state := filter_state wheelchair visual hearing cognitive types in
  filters (filtersObj w) = state ->
  (forall text, JSON.stringify state = Some text ->
     Storage.accepts (storageKey (filtersObj w)) text (localStorage (platform w))
     = true) ->
  exists text saved loaded,
    JSON.stringify state = Some text
    /\ saveFilters w = (Ok tt, saved)
    /\ Storage.getItem (storageKey (filtersObj w)) (localStorage (platform saved))
       = Ok (Some text)
    /\ loadSavedFilters (fresh_instance saved) = (Ok tt, loaded)
    /\ filters (filtersObj loaded) = state.
Proof.
  intros state Hstate Haccepts.
  destruct (filter_state_reads_back wheelchair visual hearing cognitive types)
    as (text & Htext & Hne & Hparse).
  fold state in Htext, Hparse.
  pose proof (setItem_accepted _ _ _ (Haccepts text Htext)) as Hset.
  exists text. eexists. eexists.
  split; [exact Htext |].
  split. { rewrite saveFilters_run, Hstate, Htext. cbn [default from_option id].
           rewrite Hset. reflexivity. }
  split. { cbn [set_localStorage on_platform platform localStorage].
           apply (getItem_setItem _ _ _ _ Hset). }
  split.
  { apply (loadSavedFilters_stored _ text state); [| exact Hne | exact Hparse].
    cbn [fresh_instance on_filtersObj filtersObj storageKey platform
           set_localStorage on_platform localStorage].
    apply (getItem_setItem _ _ _ _ Hset). }
  reflexivity.
Qed.

End FiltersPersistence.

(** ** AccessibilityApp: saving and loading *)

Section PreferencesPersistence.

Import Value AccessibilityApp.

(** The object [savePreferences] hands to [JSON.stringify]. *)
Definition preferences_object (state : AppState) : value :=
  Object [ (js "highContrast", highContrast state);
           (js "textSize", textSize state) ].

Lemma savePreferences_run (w : World) :
  let text :=
    default (js "undefined") (JSON.stringify (preferences_object (app w))) in
  savePreferences w
  = match Storage.setItem preferences_key text (localStorage (platform w)) with
    | Ok st => (Ok tt, set_localStorage st w)
    | Throw e =>
        (Ok tt,
         set_console
           (console (platform w)
            ++ [{| log_level_of := LogWarn;
                   log_text := js "Could not save preferences to localStorage:";
                   log_exn := Some e |}]) w)
    end.
Proof.
  unfold savePreferences, Eff.try_catch, this_state, localStorage_setItem. run.
  destruct (Storage.setItem _ _ _); reflexivity.
Qed.

Lemma preferences_read_back (hc : bool) (ts : value) (up : value) :
  valid_size ts ->
  exists text,
    JSON.stringify
      (preferences_object
         {| highContrast := Bool hc; textSize := ts; userPreferences := up |})
    = Some text
    /\ text <> []
    /\ exists parsed,
         JSON.parse text = Ok parsed
         /\ get parsed (js "highContrast") = Ok (Bool hc)
         /\ get parsed (js "textSize") = Ok ts.
Proof.
  intros [-> | [-> | ->]]; destruct hc;
    (eexists; split; [vm_compute; reflexivity |];
     split; [discriminate |];
     eexists; split; [vm_compute; reflexivity |];
     split; vm_compute; reflexivity).
Qed.

(** The part of [loadPreferences] that reads the [data-preferences]
    attribute never changes the contrast or the text size. *)
Lemma loadPreferences_stored (w : World) (text : jsstring) (parsed hc ts : value) :
  Storage.getItem preferences_key (localStorage (platform w)) = Ok (Some text) ->
  text <> [] -> JSON.parse text = Ok parsed ->
  get parsed (js "highContrast") = Ok hc ->
  get parsed (js "textSize") = Ok ts ->
  exists w',
    loadPreferences w = (Ok tt, w')
    /\ highContrast (app w') = or hc (Bool false)
    /\ textSize (app w') = or ts (Str (js "normal")).
Proof.
  intros Hget Hne Hparse Hhc Hts.
  unfold loadPreferences, Eff.try_catch, localStorage_getItem. run.
  rewrite Hget. destruct text as [|c text]; [congruence |]. run.
  rewrite Hparse. run. rewrite Hhc. run. rewrite Hts. run.
  cbn [user_preferences document set_textSize set_highContrast on_app].
  destruct (user_preferences (document w)) as [[[|c' text']|]|]; run;
    try (eexists; split; [reflexivity |]; split; reflexivity).
  destruct (JSON.parse (c' :: text')) as [v | e];
    eexists; (split; [reflexivity |]; split; reflexivity).
Qed.

(** [C4] For every app state whose text size is ['normal'], ['large'] or
    ['xl'] and whose contrast flag is a boolean: [savePreferences] stores
    the JSON text of the object with the properties [highContrast] and
    [textSize] under the key ['accessibility_preferences'], in a storage
    that accepts the write, and [loadPreferences] (in whatever state the
    loading instance is) then restores exactly that contrast flag and that
    text size. *)
Theorem preferences_save_load_round_trip
    (w : World) (contrast : bool) (size : value) (loading : AppState) :
  highContrast (app w) = Bool contrast ->
  textSize (app w) = size ->
  valid_size size ->
  let stored := Object [ (js "highContrast", Bool contrast); (js "textSize", size) ] in
  (forall text, JSON.stringify stored = Some text ->
     Storage.accepts (js "accessibility_preferences") text (localStorage (platform w))
     = true) ->
  exists text saved loaded,
    JSON.stringify stored = Some text
    /\ savePreferences w = (Ok tt, saved)
    /\ Storage.getItem (js "accessibility_preferences") (localStorage (platform saved))
       = Ok (Some text)
    /\ loadPreferences (on_app (fun _ => loading) saved) = (Ok tt, loaded)
    /\ highContrast (app loaded) = Bool contrast
    /\ textSize (app loaded) = size.
Proof.
  intros Hc Hs Hv stored Haccepts.
  destruct (preferences_read_back contrast size (userPreferences (app w)) Hv)
    as (text & Htext & Hne & parsed & Hparse & Hhc & Hts).
  change (preferences_object
            {| highContrast := Bool contrast; textSize := size;
               userPreferences := userPreferences (app w) |})
    with stored in Htext.
  assert (preferences_object (app w) = stored) as Hobj.
  { unfold preferences_object, stored. rewrite Hc, Hs. reflexivity. }
  pose proof (setItem_accepted _ _ _ (Haccepts text Htext)) as Hset.
  change (js "accessibility_preferences") with preferences_key in Hset |- *.
  exists text. eexists.
  destruct (loadPreferences_stored
              (on_app (fun _ => loading)
                 (set_localStorage
                    {| Storage.available := true;
                       Storage.quota := Storage.quota (localStorage (platform w));
                       Storage.items :=
                         <[preferences_key := text]>
                           (Storage.items (localStorage (platform w))) |} w))
              text parsed (Bool contrast) size) as (loaded & Hload & H1 & H2);
    try assumption.
  { cbn [on_app set_localStorage on_platform platform localStorage].
    apply (getItem_setItem _ _ _ _ Hset). }
  exists loaded. split; [exact Htext |]. split.
  { rewrite savePreferences_run, Hobj, Htext. cbn [default from_option id].
    rewrite Hset. reflexivity. }
  split.
  { cbn [set_localStorage on_platform platform localStorage].
    apply (getItem_setItem _ _ _ _ Hset). }
  split; [exact Hload |]. split.
  - rewrite H1. destruct contrast; reflexivity.
  - rewrite H2. destruct Hv as [-> | [-> | ->]]; reflexivity.
Qed.

End PreferencesPersistence.

(** ** Errors of the storage and of the network *)

Section ErrorContainment.

Import Value.

(** The world after one more call of the console. *)
Definition logged (lvl : log_level) (text : string) (e : exn) (w : World) : World :=
  set_console
    (console (platform w)
     ++ [{| log_level_of := lvl; log_text := js text; log_exn := Some e |}]) w.

(** The world after [showNotification]: one more notification in the
    container, when the page has the container. *)
Definition notified (message type : string) (w : World) : World :=
  match notification_container (document w) with
  | None => w
  | Some notifications =>
      set_notification_container
        (Some (notifications
               ++ [{| note_className := js "notification " ++ js type;
                      note_message := js message |}])) w
  end.

(** The world after the search results were replaced by the error text. *)
Definition search_failed (w : World) : World :=
  match search_results (document w) with
  | None => w
  | Some sr =>
      set_search_results
        (Some {| sr_children := [SearchErrorNode]; sr_display := sr_display sr |}) w
  end.

(** Nothing was logged. *)
Definition quiet (w w' : World) : Prop :=
  console (platform w') = console (platform w).

(** The errors of the storage, one predicate for each operation.
    [saveFilters] meets the error [e] when [setItem] throws [e] on the
    key of the filters and the text of the filters. *)
Definition saveFilters_fails (w : World) (e : exn) : Prop :=
  Storage.setItem (storageKey (filtersObj w))
    (default (js "undefined") (JSON.stringify (filters (filtersObj w))))
    (localStorage (platform w))
  = Throw e.

(** [savePreferences] meets the error [e] when [setItem] throws [e] on
    the key accessibility_preferences and the text of the object with
    the contrast flag and the text size. *)
Definition savePreferences_fails (w : World) (e : exn) : Prop :=
  Storage.setItem (js "accessibility_preferences")
    (default (js "undefined")
       (JSON.stringify
          (Object [ (js "highContrast", highContrast (app w));
                    (js "textSize", textSize (app w)) ])))
    (localStorage (platform w))
  = Throw e.

(** [loadSavedFilters] meets the error [e] when [getItem] throws [e],
    or when the text it returns is not empty and [JSON.parse] throws [e]
    on it. *)
Inductive loadSavedFilters_fails (w : World) (e : exn) : Prop :=
  | filters_read_fails :
      Storage.getItem (storageKey (filtersObj w)) (localStorage (platform w))
      = Throw e ->
      loadSavedFilters_fails w e
  | filters_parse_fails (text : jsstring) :
      Storage.getItem (storageKey (filtersObj w)) (localStorage (platform w))
      = Ok (Some text) ->
      text <> [] ->
      JSON.parse text = Throw e ->
      loadSavedFilters_fails w e.

(** [loadPreferences] meets the error [e] in the state [w1]: in the
    state it started from when the stored text cannot be read, parsed or
    taken apart, or when nothing is stored and the text of the
    [data-preferences] attribute does not parse; in the state with the
    stored contrast flag and text size when they were read and the text
    of the attribute does not parse. *)
Inductive loadPreferences_fails (w : World) (e : exn) : World -> Prop :=
  | preferences_read_fails :
      Storage.getItem (js "accessibility_preferences") (localStorage (platform w))
      = Throw e ->
      loadPreferences_fails w e w
  | preferences_parse_fails (text : jsstring) :
      Storage.getItem (js "accessibility_preferences") (localStorage (platform w))
      = Ok (Some text) ->
      text <> [] ->
      JSON.parse text = Throw e ->
      loadPreferences_fails w e w
  | preferences_member_fails (text : jsstring) (preferences : value) :
      Storage.getItem (js "accessibility_preferences") (localStorage (platform w))
      = Ok (Some text) ->
      text <> [] ->
      JSON.parse text = Ok preferences ->
      get preferences (js "highContrast") = Throw e ->
      loadPreferences_fails w e w
  | attribute_fails_nothing_stored (saved : option jsstring) (attribute : jsstring) :
      Storage.getItem (js "accessibility_preferences") (localStorage (platform w))
      = Ok saved ->
      saved = None \/ saved = Some [] ->
      user_preferences (document w) = Some (Some attribute) ->
      attribute <> [] ->
      JSON.parse attribute = Throw e ->
      loadPreferences_fails w e w
  | attribute_fails_after_stored (text : jsstring) (preferences hc ts : value)
      (attribute : jsstring) :
      Storage.getItem (js "accessibility_preferences") (localStorage (platform w))
      = Ok (Some text) ->
      text <> [] ->
      JSON.parse text = Ok preferences ->
      get preferences (js "highContrast") = Ok hc ->
      get preferences (js "textSize") = Ok ts ->
      user_preferences (document w) = Some (Some attribute) ->
      attribute <> [] ->
      JSON.parse attribute = Throw e ->
      loadPreferences_fails w e
        (set_textSize (or ts (Str (js "normal")))
           (set_highContrast (or hc (Bool false)) w)).

Lemma saveFilters_contained (w : World) :
  exists w',
    AccessibilityFilters.saveFilters w = (Ok tt, w')
    /\ ((exists e, saveFilters_fails w e
                   /\ w' = logged LogWarn "Could not save filters to localStorage:" e w)
        \/ ((forall e, ~ saveFilters_fails w e) /\ quiet w w')).
Proof.
  rewrite saveFilters_run. unfold saveFilters_fails.
  destruct (Storage.setItem _ _ _) as [st | e].
  - eexists. split; [reflexivity |]. right. split; [discriminate | reflexivity].
  - eexists. split; [reflexivity |]. left. exists e. split; reflexivity.
Qed.

Lemma savePreferences_contained (w : World) :
  exists w',
    AccessibilityApp.savePreferences w = (Ok tt, w')
    /\ ((exists e, savePreferences_fails w e
                   /\ w' = logged LogWarn "Could not save preferences to localStorage:" e w)
        \/ ((forall e, ~ savePreferences_fails w e) /\ quiet w w')).
Proof.
  rewrite savePreferences_run. unfold savePreferences_fails.
  change (js "accessibility_preferences") with AccessibilityApp.preferences_key.
  unfold preferences_object.
  destruct (Storage.setItem _ _ _) as [st | e].
  - eexists. split; [reflexivity |]. right. split; [discriminate | reflexivity].
  - eexists. split; [reflexivity |]. left. exists e. split; reflexivity.
Qed.

Lemma loadSavedFilters_contained (w : World) :
  exists w',
    AccessibilityFilters.loadSavedFilters w = (Ok tt, w')
    /\ ((exists e, loadSavedFilters_fails w e
                   /\ w' = logged LogWarn "Could not load filters from localStorage:" e w)
        \/ ((forall e, ~ loadSavedFilters_fails w e) /\ quiet w w')).
Proof.
  unfold AccessibilityFilters.loadSavedFilters, Eff.try_catch,
    localStorage_getItem. run.
  destruct (Storage.getItem _ _) as [[[|c text]|] | e] eqn:Eg; run.
  - eexists. split; [reflexivity |]. right. split; [| reflexivity].
    intros e [H | text H Hne _]; congruence.
  - destruct (JSON.parse (c :: text)) as [v | e] eqn:Ep.
    + eexists. split; [reflexivity |]. right. split; [| reflexivity].
      intros e [H | text' H Hne Hp]; congruence.
    + eexists. split; [reflexivity |]. left. exists e. split; [| reflexivity].
      eapply filters_parse_fails; [exact Eg | discriminate | exact Ep].
  - eexists. split; [reflexivity |]. right. split; [| reflexivity].
    intros e [H | text H Hne _]; congruence.
  - eexists. split; [reflexivity |]. left. exists e. split; [| reflexivity].
    apply filters_read_fails. exact Eg.
Qed.

Lemma get_twice (o : value) (k1 k2 : jsstring) (v : value) :
  get o k1 = Ok v -> exists v', get o k2 = Ok v'.
Proof.
  destruct o; try discriminate; intros _; cbn [get]; eauto.
  - destruct (bool_decide _); [eauto |]. destruct (array_index k2); eauto.
  - destruct (bool_decide _); [eauto |]. destruct (array_index k2); eauto.
Qed.

(** The cases of [loadPreferences_fails] exclude one another along the
    reads of the storage and of the attribute. *)
Ltac no_failure :=
  let H := fresh in
  intros ? ? H; inversion H; subst;
  repeat match goal with
         | H : _ \/ _ |- _ => destruct H; subst
         end;
  congruence.

Lemma loadPreferences_contained (w : World) :
  exists w',
    AccessibilityApp.loadPreferences w = (Ok tt, w')
    /\ ((exists e w1,
            loadPreferences_fails w e w1
            /\ w' = logged LogWarn "Could not load preferences from localStorage:" e w1)
        \/ ((forall e w1, ~ loadPreferences_fails w e w1) /\ quiet w w')).
Proof.
  unfold AccessibilityApp.loadPreferences, Eff.try_catch, localStorage_getItem.
  run.
  change AccessibilityApp.preferences_key with (js "accessibility_preferences").
  destruct (Storage.getItem _ _) as [[[|c text]|] | e] eqn:Eg; run.
  4: { eexists. split; [reflexivity |]. left. exists e, w.
       split; [apply preferences_read_fails; exact Eg | reflexivity]. }
  1, 3: destruct (user_preferences (document w)) as [[[|c' text']|]|] eqn:Eu; run;
    try (eexists; split; [reflexivity | right; split; [no_failure | reflexivity]]);
    destruct (JSON.parse (c' :: text')) as [v | e] eqn:Ep;
    [ eexists; split; [reflexivity | right; split; [no_failure | reflexivity]]
    | eexists; split; [reflexivity |]; left; exists e, w;
      split; [| reflexivity];
      eapply attribute_fails_nothing_stored;
        [exact Eg | auto | exact Eu | discriminate | exact Ep] ].
  destruct (JSON.parse (c :: text)) as [parsed | e] eqn:Ept.
  2: { eexists. split; [reflexivity |]. left. exists e, w.
       split; [| reflexivity].
       eapply preferences_parse_fails; [exact Eg | discriminate | exact Ept]. }
  run. destruct (get parsed (js "highContrast")) as [hc | e] eqn:Ehc.
  2: { eexists. split; [reflexivity |]. left. exists e, w.
       split; [| reflexivity].
       eapply preferences_member_fails;
         [exact Eg | discriminate | exact Ept | exact Ehc]. }
  destruct (get_twice parsed _ (js "textSize") _ Ehc) as [ts Ets].
  run. rewrite Ets. run.
  cbn [user_preferences document set_textSize set_highContrast on_app].
  destruct (user_preferences (document w)) as [[[|c' text']|]|] eqn:Eu; run;
    try (eexists; split; [reflexivity | right; split; [no_failure | reflexivity]]).
  destruct (JSON.parse (c' :: text')) as [v | e] eqn:Ep.
  - eexists. split; [reflexivity |]. right. split; [no_failure | reflexivity].
  - eexists. split; [reflexivity |]. left.
    exists e, (set_textSize (or ts (Str (js "normal")))
                 (set_highContrast (or hc (Bool false)) w)).
    split; [| reflexivity].
    eapply attribute_fails_after_stored;
      [exact Eg | discriminate | exact Ept | exact Ehc | exact Ets
      | exact Eu | discriminate | exact Ep].
Qed.

End ErrorContainment.

Section NetworkErrors.

Import AccessibilityMap.

Lemma settle_never_throws (o : FetchOutcome) (on_data : value -> JS unit)
    (on_error : exn -> JS unit) (w : World) :
  (forall e w, fst (on_error e w) = Ok tt) ->
  fst (settle o on_data on_error w) = Ok tt.
Proof.
  intros Hh. unfold settle, Eff.try_catch.
  match goal with |- context [match ?b w with _ => _ end] => destruct (b w) as [[[]|e] w'] end.
  - reflexivity.
  - apply Hh.
Qed.

Lemma handlers_never_throw (o : FetchOutcome) (w : World) :
  fst (searchLocations_settled o w) = Ok tt
  /\ fst (loadLocations_settled o w) = Ok tt
  /\ fst (showLocationDetails_settled o w) = Ok tt.
Proof.
  repeat split; apply settle_never_throws; intros e w0;
    unfold console_error, console_push, showNotification, set_search_children;
    run; reflexivity.
Qed.

(** Some sample pages. *)
Definition open_storage (items : gmap jsstring jsstring) : Storage.t :=
  {| Storage.available := true; Storage.quota := 5000000; Storage.items := items |}.

Definition sample_document : Document := {|
  body := [];
  accessibility_announcer := None;
  user_preferences := None;
  filter_buttons :=
    [ {| fb_filter := Some (js "wheelchair"); fb_active := false;
         fb_aria_pressed := None |};
      {| fb_filter := Some (js "visual"); fb_active := false;
         fb_aria_pressed := None |} ];
  type_filters :=
    [ {| tf_type := Some (js "museum"); tf_checked := true;
         tf_label := Some false |} ];
  filter_status_announcer := None;
  notification_container := Some [];
  search_results := Some {| sr_children := []; sr_display := None |};
  location_details := Some {| sb_classList := []; sb_content := None |}
|}.

Definition sample_world (items : gmap jsstring jsstring) (d : Document) : World := {|
  platform := {| localStorage := open_storage items; console := []; requests := [] |};
  document := d;
  app := AccessibilityApp.initial_state;
  filtersObj := {| filters := AccessibilityFilters.default_filters;
                   storageKey := AccessibilityFilters.default_storageKey;
                   has_map := true |};
  mapObj := {| currentFilters := AccessibilityFilters.default_filters;
               markers := []; layer_approved := []; layer_pending := [] |}
|}.

(** The text [savePreferences] stores for high contrast and the largest
    text size: the object with the members highContrast, true, and
    textSize, the string xl. *)
Definition stored_xl_preferences : jsstring :=
  js "{" ++ JSON.quote (js "highContrast") ++ js ":true,"
  ++ JSON.quote (js "textSize") ++ js ":" ++ JSON.quote (js "xl") ++ js "}".

(** A page whose storage holds saved preferences and whose
    [data-preferences] attribute holds a text that is not JSON. *)
Definition broken_attribute_world : World :=
  sample_world
    {[ AccessibilityApp.preferences_key := stored_xl_preferences ]}
    (let 'Build_Document a1 a2 _ a4 a5 a6 a7 a8 a9 := sample_document in
     Build_Document a1 a2 (Some (Some (js "{"))) a4 a5 a6 a7 a8 a9).

(** [C5] Errors of the storage and of the network stay inside the
    operation that meets them.  [saveFilters], [loadSavedFilters],
    [savePreferences] and [loadPreferences] always return normally.  When
    one of them meets an error of the storage (an access to
    [localStorage] or [JSON.parse] throws), the world it returns is the
    world the error was met in with one more entry in the console, the
    warning of the operation with that error; when it meets none, nothing
    is logged.  [saveFilters], [loadSavedFilters] and [savePreferences]
    meet their error in the world they started from, and so does
    [loadPreferences] unless the stored preferences had been read before
    the text of the [data-preferences] attribute failed to parse: then
    the contrast flag and the text size read from the storage stay.  The
    promise chains of [searchLocations], [loadLocations] and
    [showLocationDetails] never reject; a rejected request leaves one
    error in the console and the error text in the search results or an
    error notification, nothing else. *)
Theorem errors_are_contained :
  (forall w, exists w',
      AccessibilityFilters.saveFilters w = (Ok tt, w')
      /\ ((exists e,
              saveFilters_fails w e
              /\ w' = logged LogWarn "Could not save filters to localStorage:" e w)
          \/ ((forall e, ~ saveFilters_fails w e) /\ quiet w w')))
  /\ (forall w, exists w',
        AccessibilityFilters.loadSavedFilters w = (Ok tt, w')
        /\ ((exists e,
                loadSavedFilters_fails w e
                /\ w' = logged LogWarn "Could not load filters from localStorage:" e w)
            \/ ((forall e, ~ loadSavedFilters_fails w e) /\ quiet w w')))
  /\ (forall w, exists w',
        AccessibilityApp.savePreferences w = (Ok tt, w')
        /\ ((exists e,
                savePreferences_fails w e
                /\ w' = logged LogWarn "Could not save preferences to localStorage:" e w)
            \/ ((forall e, ~ savePreferences_fails w e) /\ quiet w w')))
  /\ (forall w, exists w',
        AccessibilityApp.loadPreferences w = (Ok tt, w')
        /\ ((exists e w1,
                loadPreferences_fails w e w1
                /\ w' = logged LogWarn "Could not load preferences from localStorage:" e w1)
            \/ ((forall e w1, ~ loadPreferences_fails w e w1) /\ quiet w w')))
  /\ (forall e w,
        searchLocations_settled (Rejected e) w
        = (Ok tt, search_failed (logged LogError "Search error:" e w)))
  /\ (forall e w,
        loadLocations_settled (Rejected e) w
        = (Ok tt,
           notified "Error loading locations. Please try again." "error"
             (logged LogError "Error loading locations:" e w)))
  /\ (forall e w,
        showLocationDetails_settled (Rejected e) w
        = (Ok tt,
           notified "Error loading location details. Please try again." "error"
             (logged LogError "Error loading location details:" e w)))
  /\ (forall o w,
        fst (searchLocations_settled o w) = Ok tt
        /\ fst (loadLocations_settled o w) = Ok tt
        /\ fst (showLocationDetails_settled o w) = Ok tt).
Proof.
  split; [exact saveFilters_contained |].
  split; [exact loadSavedFilters_contained |].
  split; [exact savePreferences_contained |].
  split; [exact loadPreferences_contained |].
  split; [reflexivity |]. split; [reflexivity |]. split; [reflexivity |].
  exact handlers_never_throw.
Qed.

(** [C5], as stated, fails: on this page [loadPreferences] meets a
    [JSON.parse] error, logs it, and yet has changed the contrast flag
    and the text size in memory. *)
Lemma loadPreferences_error_changes_state :
  let w := broken_attribute_world in
  let w' := snd (AccessibilityApp.loadPreferences w) in
  JSON.parse (js "{") = Throw SyntaxError
  /\ fst (AccessibilityApp.loadPreferences w) = Ok tt
  /\ console (platform w')
     = [{| log_level_of := LogWarn;
           log_text := js "Could not load preferences from localStorage:";
           log_exn := Some SyntaxError |}]
  /\ highContrast (app w) = Value.Bool false
  /\ highContrast (app w') = Value.Bool true
  /\ textSize (app w) = Value.Str (js "normal")
  /\ textSize (app w') = Value.Str (js "xl").
Proof. vm_compute. repeat split. Qed.

End NetworkErrors.

(** ** AccessibilityMap: the requests *)

Section Requests.

Import AccessibilityMap.

(** The endpoints of the server's API. *)
Inductive Endpoint := ApiSearch | ApiLocations | ApiLocationById.

(** The endpoint a URL addresses, by its leading part. *)
Definition endpoint_of (url : jsstring) : option Endpoint :=
  if JSString.startsWith url (js "/api/search?q=") then Some ApiSearch
  else if JSString.startsWith url (js "/api/locations?") then Some ApiLocations
  else if JSString.startsWith url (js "/api/locations/") then Some ApiLocationById
  else None.

(** The calls of the map's methods that deal with the network, and the
    settling of the requests they issued. *)
Inductive MapCall :=
| SearchLocations (query : jsstring)
| LoadLocations
| ApplyFilters (filters : value)
| ShowLocationDetails (locationId : value)
| SearchSettled (o : FetchOutcome)
| LoadSettled (o : FetchOutcome)
| DetailsSettled (o : FetchOutcome).

Definition run_call (c : MapCall) : JS unit :=
  match c with
  | SearchLocations query => searchLocations query
  | LoadLocations => loadLocations
  | ApplyFilters filters => applyFilters filters
  | ShowLocationDetails locationId => showLocationDetails locationId
  | SearchSettled o => searchLocations_settled o
  | LoadSettled o => loadLocations_settled o
  | DetailsSettled o => showLocationDetails_settled o
  end.

(** The URLs a call hands to [fetch]. *)
Definition issued (c : MapCall) (w : World) : list jsstring :=
  drop (List.length (requests (platform w)))
       (requests (platform (snd (run_call c w)))).

(** The endpoint a call addresses when it issues a request. *)
Definition endpoint_of_call (c : MapCall) : option Endpoint :=
  match c with
  | SearchLocations _ => Some ApiSearch
  | LoadLocations | ApplyFilters _ => Some ApiLocations
  | ShowLocationDetails _ => Some ApiLocationById
  | SearchSettled _ | LoadSettled _ | DetailsSettled _ => None
  end.

Lemma drop_issued (before l : list jsstring) :
  drop (List.length before) (before ++ l) = l.
Proof. rewrite drop_app_length. reflexivity. Qed.

Lemma drop_none (before : list jsstring) : drop (List.length before) before = [].
Proof. apply drop_all. Qed.

Lemma loadLocations_requests (w : World) :
  exists l,
    requests (platform (snd (loadLocations w))) = requests (platform w) ++ l
    /\ (l = [] \/ exists query, l = [js "/api/locations?" ++ query]).
Proof.
  unfold loadLocations, fetch. run.
  cbn [currentFilters mapObj set_layer_pending set_layer_approved on_mapObj].
  destruct (filterParams (currentFilters (mapObj w))) as [p | e].
  - eexists. split; [reflexivity |]. right. eauto.
  - exists []. rewrite app_nil_r. split; [reflexivity | left; reflexivity].
Qed.

(** The promise chains issue no request of their own. *)
Lemma settled_requests (o : FetchOutcome) (w : World) :
  requests (platform (snd (searchLocations_settled o w))) = requests (platform w)
  /\ requests (platform (snd (loadLocations_settled o w))) = requests (platform w)
  /\ requests (platform (snd (showLocationDetails_settled o w)))
     = requests (platform w).
Proof.
  set (I := fun w' : World => requests (platform w') = requests (platform w)).
  assert (forall A (o : outcome A), triple I (Eff.lift o) (fun _ => I) (fun _ => I)) as Hlift.
  { intros A o'. apply triple_lift. intros w0 Hw0. destruct o'; exact Hw0. }
  assert (forall f : World -> World,
             (forall w', requests (platform (f w')) = requests (platform w')) ->
             triple I (Eff.modify f) (fun _ => I) (fun _ => I)) as Hmod.
  { intros f Hf. apply triple_modify. intros w0 Hw0. unfold I. rewrite Hf. exact Hw0. }
  assert (forall (m : JS unit) h,
             triple I m (fun _ => I) (fun _ => I) ->
             (forall e, triple I (h e) (fun _ => I) (fun _ => I)) ->
             forall w0, I w0 -> I (snd (Eff.try_catch m h w0))) as Htry.
  { intros m h Hm Hh w0 Hw0.
    pose proof (triple_try_catch I m h (fun _ => I) (fun _ => I) (fun _ => I) Hm Hh w0 Hw0) as H.
    destruct (Eff.try_catch m h w0) as [[a|e] w']; exact H. }
  assert (forall text, triple I (console_error text None) (fun _ => I) (fun _ => I)) as _.
  { intros. apply Hmod. reflexivity. }
  assert (forall text e, triple I (console_error text (Some e)) (fun _ => I) (fun _ => I)) as Herr.
  { intros. apply Hmod. reflexivity. }
  assert (forall m t, triple I (showNotification m t) (fun _ => I) (fun _ => I)) as Hnote.
  { intros. apply Hmod. intros w'. destruct (notification_container (document w')); reflexivity. }
  assert (forall c, triple I (set_search_children c) (fun _ => I) (fun _ => I)) as Hset.
  { intros. apply Hmod. intros w'. destruct (search_results (document w')); reflexivity. }
  assert (forall o' (on_data : value -> JS unit),
             (forall data, triple I (on_data data) (fun _ => I) (fun _ => I)) ->
             triple I (match o' with
                       | Rejected e => Eff.throw e
                       | Response body => data ← response_json body; on_data data
                       end) (fun _ => I) (fun _ => I)) as Hbody.
  { intros [e | body] on_data Hd.
    - apply triple_throw. auto.
    - apply (triple_bind _ _ _ (fun _ => I)); [apply Hlift | exact Hd]. }
  repeat split; unfold searchLocations_settled, loadLocations_settled,
    showLocationDetails_settled, settle.
  - apply Htry; [| | reflexivity].
    + apply Hbody. intros data.
      apply (triple_bind _ _ _ (fun _ => I)); [apply Hset |]. intros _.
      apply (triple_bind _ _ _ (fun _ => I)); [apply Hlift |]. intros results.
      apply (triple_bind _ _ _ (fun _ => I)); [apply Hlift |]. intros length.
      destruct (is_number length 0); [apply Hset |].
      apply (triple_bind _ _ _ (fun _ => I)); [apply Hlift |]. intros elems.
      apply (triple_bind _ _ _ (fun _ => I)).
      * apply triple_forEach. intros result _.
        apply (triple_bind _ _ _ (fun _ => I)); [apply Hlift |]. intros name.
        apply (triple_bind _ _ _ (fun _ => I)); [apply Hlift |]. intros address.
        apply Hmod. intros w'. destruct (search_results (document w')); reflexivity.
      * intros _. apply Hmod. intros w'.
        destruct (search_results (document w')); reflexivity.
    + intros e. apply (triple_bind _ _ _ (fun _ => I)); [apply Herr |].
      intros _. apply Hset.
  - apply Htry; [| | reflexivity].
    + apply Hbody. intros data.
      apply (triple_bind _ _ _ (fun _ => I)); [apply Hlift |]. intros locations.
      unfold addMarkersToMap.
      apply (triple_bind _ _ _ (fun _ => I)); [apply Hlift |]. intros elems.
      apply triple_forEach. intros location _.
      apply (triple_bind _ _ _ (fun _ => I)); [apply Hlift |]. intros marker.
      apply (triple_bind _ _ _ (fun _ => I)); [apply Hlift |]. intros approved.
      apply (triple_bind _ _ _ (fun _ => I)).
      * destruct (Value.truthy approved); apply Hmod; reflexivity.
      * intros _. apply Hmod. reflexivity.
    + intros e. apply (triple_bind _ _ _ (fun _ => I)); [apply Herr |].
      intros _. apply Hnote.
  - apply Htry; [| | reflexivity].
    + apply Hbody. intros data.
      apply (triple_bind _ _ _ (fun _ => I)); [apply triple_gets; auto |].
      intros [sidebar|]; [| apply triple_ret; auto].
      apply (triple_bind _ _ _ (fun _ => I)); [apply Hlift |]. intros location.
      apply (triple_bind _ _ _ (fun _ => I)); [apply Hlift |]. intros html.
      apply Hmod. reflexivity.
    + intros e. apply (triple_bind _ _ _ (fun _ => I)); [apply Herr |].
      intros _. apply Hnote.
Qed.

(** What each call issues: nothing, or one URL of its endpoint. *)
Lemma issued_spec (c : MapCall) (w : World) :
  issued c w = []
  \/ exists url, issued c w = [url] /\ endpoint_of url = endpoint_of_call c
                 /\ endpoint_of_call c <> None.
Proof.
  unfold issued. destruct c as [query | | filters | locationId | o | o | o];
    cbn [run_call endpoint_of_call].
  - unfold searchLocations, fetch. run.
    destruct (search_results (document w)); run; [| left; apply drop_none].
    destruct (URI.encodeURIComponent query) as [q | e]; [| left; apply drop_none].
    right. eexists. cbn [snd set_requests on_platform platform requests].
    rewrite drop_issued. split; [reflexivity |]. split; [reflexivity | discriminate].
  - destruct (loadLocations_requests w) as (l & -> & [-> | [q ->]]).
    + left. rewrite app_nil_r. apply drop_none.
    + right. eexists. rewrite drop_issued.
      split; [reflexivity |]. split; [reflexivity | discriminate].
  - unfold applyFilters. run.
    destruct (loadLocations_requests (set_currentFilters (Value.spread filters) w))
      as (l & -> & [-> | [q ->]]);
      cbn [set_currentFilters on_mapObj platform].
    + left. rewrite app_nil_r. apply drop_none.
    + right. eexists. rewrite drop_issued.
      split; [reflexivity |]. split; [reflexivity | discriminate].
  - right. unfold showLocationDetails, fetch. run.
    cbn [snd set_requests on_platform platform requests].
    eexists. rewrite drop_issued.
    split; [reflexivity |]. split; [reflexivity | discriminate].
  - left. rewrite (proj1 (settled_requests o w)). apply drop_none.
  - left. rewrite (proj1 (proj2 (settled_requests o w))). apply drop_none.
  - left. rewrite (proj2 (proj2 (settled_requests o w))). apply drop_none.
Qed.

End Requests.

Section Endpoints.

Definition seven : value := Value.Num (Number.of_Z 7).

Lemma issued_search :
  issued (SearchLocations (js "park")) (sample_world ∅ sample_document)
  = [js "/api/search?q=park"].
Proof. vm_compute. reflexivity. Qed.

Lemma issued_listing :
  issued LoadLocations (sample_world ∅ sample_document) = [js "/api/locations?"].
Proof. vm_compute. reflexivity. Qed.

Lemma issued_details :
  issued (ShowLocationDetails seven) (sample_world ∅ sample_document)
  = [js "/api/locations/7"].
Proof. vm_compute. reflexivity. Qed.

(** [C6] The map's methods issue requests to three endpoints, not two:
    every URL a call hands to [fetch] addresses the search endpoint, the
    location listing or a single location by its id, according to the
    method called, and each of the three is addressed by some call. *)
Theorem requests_address_three_endpoints :
  (forall c w url,
      url ∈ issued c w ->
      endpoint_of url = endpoint_of_call c
      /\ (endpoint_of url = Some ApiSearch
          \/ endpoint_of url = Some ApiLocations
          \/ endpoint_of url = Some ApiLocationById))
  /\ (forall endpoint : Endpoint,
        exists c w url, url ∈ issued c w /\ endpoint_of url = Some endpoint).
Proof.
  split.
  - intros c w url Hin.
    destruct (issued_spec c w) as [E | (url' & E & He & Hc)];
      rewrite E in Hin; [apply elem_of_nil in Hin; destruct Hin |].
    apply list_elem_of_singleton in Hin as ->.
    split; [exact He |]. rewrite He.
    destruct c; cbn [endpoint_of_call] in *; try congruence; auto.
  - intros [| |].
    + exists (SearchLocations (js "park")), (sample_world ∅ sample_document).
      eexists. rewrite issued_search. split; [left | reflexivity].
    + exists LoadLocations, (sample_world ∅ sample_document).
      eexists. rewrite issued_listing. split; [left | reflexivity].
    + exists (ShowLocationDetails seven), (sample_world ∅ sample_document).
      eexists. rewrite issued_details. split; [left | reflexivity].
Qed.

Lemma requests_address_three_endpoints_witness :
  endpoint_of (js "/api/locations/7") = Some ApiLocationById.
Proof.
  apply (proj1 requests_address_three_endpoints (ShowLocationDetails seven)
           (sample_world ∅ sample_document) (js "/api/locations/7")).
  rewrite issued_details. left.
Defined.

(** [C6], as stated, fails: no two endpoints cover the requests issued. *)
Lemma two_endpoints_do_not_cover_the_requests :
  ~ exists e1 e2 : Endpoint,
      forall c w url,
        url ∈ issued c w ->
        endpoint_of url = Some e1 \/ endpoint_of url = Some e2.
Proof.
  intros (e1 & e2 & H).
  pose proof (H (SearchLocations (js "park")) (sample_world ∅ sample_document)
                (js "/api/search?q=park")) as H1.
  pose proof (H LoadLocations (sample_world ∅ sample_document)
                (js "/api/locations?")) as H2.
  pose proof (H (ShowLocationDetails seven) (sample_world ∅ sample_document)
                (js "/api/locations/7")) as H3.
  rewrite issued_search in H1. rewrite issued_listing in H2.
  rewrite issued_details in H3.
  specialize (H1 ltac:(left)). specialize (H2 ltac:(left)).
  specialize (H3 ltac:(left)).
  change (endpoint_of (js "/api/search?q=park")) with (Some ApiSearch) in H1.
  change (endpoint_of (js "/api/locations?")) with (Some ApiLocations) in H2.
  change (endpoint_of (js "/api/locations/7")) with (Some ApiLocationById) in H3.
  destruct e1, e2; destruct H1 as [H1|H1]; try discriminate H1;
    destruct H2 as [H2|H2]; try discriminate H2;
    destruct H3 as [H3|H3]; discriminate H3.
Qed.

End Endpoints.

(** ** AccessibilityFilters: the shape of the filter state *)

Section FilterShape.

Import Value AccessibilityFilters.

(** The calls the page makes on the filters object. *)
Inductive FilterCall :=
| LoadSavedFilters
| ToggleFilterButton (i : nat)
| ToggleTypeFilter (i : nat)
| ResetFilters
| SetFromUserPreferences (preferences : value).

Definition run_filter_call (c : FilterCall) : JS unit :=
  match c with
  | LoadSavedFilters => loadSavedFilters
  | ToggleFilterButton i => toggleFilterButton i
  | ToggleTypeFilter i => toggleTypeFilter i
  | ResetFilters => resetFilters
  | SetFromUserPreferences preferences => setFromUserPreferences preferences
  end.

(** The world after a sequence of calls, each an event handler of its
    own: an exception ends the call it occurs in, not the sequence. *)
Fixpoint run_filter_calls (calls : list FilterCall) (w : World) : World :=
  match calls with
  | [] => w
  | c :: calls' => run_filter_calls calls' (snd (run_filter_call c w))
  end.

Definition filter_names : list jsstring :=
  [js "wheelchair"; js "visual"; js "hearing"; js "cognitive"].

(** Whatever JSON the storage holds under the key denotes a filter
    state. *)
Definition stored_filters_ok (w : World) : Prop :=
  forall text f,
    Storage.items (localStorage (platform w)) !! storageKey (filtersObj w)
    = Some text ->
    JSON.parse text = Ok f -> is_filter_state f.

(** Every filter button names one of the four filters. *)
Definition buttons_ok (w : World) : Prop :=
  forall button, button ∈ filter_buttons (document w) ->
    exists k, fb_filter button = Some k /\ k ∈ filter_names.

(** Every type checkbox has a [data-type] attribute. *)
Definition checkboxes_ok (w : World) : Prop :=
  forall checkbox, checkbox ∈ type_filters (document w) ->
    exists t, tf_type checkbox = Some t.

Definition shape_invariant (w : World) : Prop :=
  is_filter_state (filters (filtersObj w))
  /\ stored_filters_ok w /\ buttons_ok w /\ checkboxes_ok w.

Lemma shape_invariant_view (w w' : World) :
  view w' = view w -> shape_invariant w -> shape_invariant w'.
Proof.
  unfold view, shape_invariant, stored_filters_ok, buttons_ok, checkboxes_ok.
  intros [= -> -> -> ->]. tauto.
Qed.

Lemma triple_of_run {A} (P : World -> Prop) (m : JS A)
    (Q : A -> World -> Prop) (E : exn -> World -> Prop) :
  (forall w, P w -> exists a w', m w = (Ok a, w') /\ Q a w') -> triple P m Q E.
Proof. intros H w Hw. destruct (H w Hw) as (a & w' & -> & Hq). exact Hq. Qed.

Abbreviation keeps m :=
  (triple shape_invariant m (fun _ => shape_invariant) (fun _ => shape_invariant)).

Lemma applyFilters_keeps : keeps applyFilters.
Proof.
  apply triple_of_run. intros w Hw.
  destruct (applyFilters_frame w (proj1 Hw)) as (w' & -> & Hv).
  exists tt, w'. split; [reflexivity |]. exact (shape_invariant_view _ _ Hv Hw).
Qed.

Lemma announce_keeps (message : jsstring) : keeps (announce message).
Proof.
  unfold announce. apply triple_modify. intros w Hw.
  apply (shape_invariant_view w); [| exact Hw].
  destruct w as [p [] ap f m]. reflexivity.
Qed.

Lemma saveFilters_keeps : keeps saveFilters.
Proof.
  apply triple_of_run. intros w Hw. rewrite saveFilters_run.
  pose proof Hw as (Hfs & Hs & Hb & Hc).
  destruct Hfs as (a & b & c & d & types & Hf).
  rewrite Hf, stringify_filter_state. cbn [default from_option id].
  unfold Storage.setItem.
  destruct (Storage.available (localStorage (platform w)));
    [destruct (_ <=? _) |].
  2, 3: eexists tt, _; split; [reflexivity |];
    apply (shape_invariant_view w); [reflexivity | exact Hw].
  eexists tt, _. split; [reflexivity |].
  split; [exact (proj1 Hw) |]. split; [| split; assumption].
  intros text f.
  cbn [set_localStorage on_platform platform localStorage Storage.items
         filtersObj].
  rewrite lookup_insert_eq. intros [= <-].
  rewrite parse_filter_state_text. intros [= <-].
  exists a, b, c, d, types. reflexivity.
Qed.

Lemma set_filter_flag (a b c d : bool) (types : list jsstring)
    (k : jsstring) (x : bool) :
  k ∈ filter_names ->
  exists f, set (filter_state a b c d types) k (Bool x) = Ok f /\ is_filter_state f.
Proof.
  unfold filter_names. intros Hk.
  repeat (apply elem_of_cons in Hk as [-> | Hk];
          [eexists; split; [reflexivity | repeat eexists] |]).
  apply elem_of_nil in Hk. destruct Hk.
Qed.

Lemma set_location_types (a b c d : bool) (types types' : list jsstring) :
  set (filter_state a b c d types) (js "locationTypes") (Array (Str <$> types'))
  = Ok (filter_state a b c d types').
Proof. reflexivity. Qed.

(** [this.filters[k] = v] keeps the shape when the result is a filter
    state. *)
Lemma filters_set_keeps (k : jsstring) (v : value) (P : World -> Prop) :
  (forall w, P w ->
     shape_invariant w
     /\ exists f, set (filters (filtersObj w)) k v = Ok f /\ is_filter_state f) ->
  triple P (filters_set k v) (fun _ => shape_invariant) (fun _ => shape_invariant).
Proof.
  intros H. apply triple_of_run. intros w Hw.
  destruct (H w Hw) as ((_ & Hs & Hb & Hc) & f & Hset & Hf).
  unfold filters_set, this_filters. run. rewrite Hset. run.
  eexists tt, _. split; [reflexivity |]. repeat split; assumption.
Qed.

Lemma insert_keeps_property {A} (P : A -> Prop) (l : list A) (i : nat) (x y : A) :
  l !! i = Some x -> (P x -> P y) ->
  (forall z, z ∈ l -> P z) -> forall z, z ∈ <[i := y]> l -> P z.
Proof.
  intros Hi Hxy Hl z Hz.
  apply list_elem_of_lookup in Hz as [j Hj].
  destruct (decide (i = j)) as [<- | Hne].
  - rewrite list_lookup_insert_eq in Hj by (eapply lookup_lt_Some; exact Hi).
    injection Hj as <-. apply Hxy, Hl. apply list_elem_of_lookup. eauto.
  - rewrite list_lookup_insert_ne in Hj by exact Hne.
    apply Hl. apply list_elem_of_lookup. eauto.
Qed.

Lemma update_button_keeps (i : nat) (button button' : FilterButton) :
  fb_filter button' = fb_filter button ->
  triple (fun w => shape_invariant w
                   /\ filter_buttons (document w) !! i = Some button)
    (update_button i button') (fun _ => shape_invariant) (fun _ => shape_invariant).
Proof.
  intros Hsame. unfold update_button. apply triple_modify.
  intros [p [] ap f m] ((Hf & Hs & Hb & Hc) & Hi).
  split; [exact Hf |]. split; [exact Hs |]. split; [| exact Hc].
  unfold buttons_ok in *. cbn [document filter_buttons set_filter_buttons on_document] in *.
  apply (insert_keeps_property _ _ _ button button' Hi); [| exact Hb].
  rewrite Hsame. auto.
Qed.

Lemma update_checkbox_keeps (i : nat) (checkbox checkbox' : TypeFilter) :
  tf_type checkbox' = tf_type checkbox ->
  triple (fun w => shape_invariant w
                   /\ type_filters (document w) !! i = Some checkbox)
    (update_checkbox i checkbox') (fun _ => shape_invariant) (fun _ => shape_invariant).
Proof.
  intros Hsame. unfold update_checkbox. apply triple_modify.
  intros [p [] ap f m] ((Hf & Hs & Hb & Hc) & Hi).
  split; [exact Hf |]. split; [exact Hs |]. split; [exact Hb |].
  unfold checkboxes_ok in *. cbn [document type_filters set_type_filters on_document] in *.
  apply (insert_keeps_property _ _ _ checkbox checkbox' Hi); [| exact Hc].
  rewrite Hsame. auto.
Qed.

Lemma triple_pure {A} (P : World -> Prop) (fact : Prop) (m : JS A)
    (Q : A -> World -> Prop) (E : exn -> World -> Prop) :
  (forall w, P w -> fact) -> (fact -> triple P m Q E) -> triple P m Q E.
Proof. intros Hf Hm w Hw. exact (Hm (Hf w Hw) w Hw). Qed.

Lemma filters_get_spec (P : World -> Prop) (k : jsstring) :
  triple P (filters_get k)
    (fun v w => P w /\ get (filters (filtersObj w)) k = Ok v) (fun _ => P).
Proof.
  intros w Hw. unfold filters_get, this_filters. run.
  destruct (get (filters (filtersObj w)) k); auto.
Qed.

Lemma the_button_spec (i : nat) :
  triple shape_invariant (the_button i)
    (fun button w => shape_invariant w
                     /\ filter_buttons (document w) !! i = Some button)
    (fun _ => shape_invariant).
Proof.
  intros w Hw. unfold the_button. run.
  destruct (filter_buttons (document w) !! i) eqn:E; run;
    [split; [exact Hw | exact E] | exact Hw].
Qed.

Lemma the_checkbox_spec (i : nat) :
  triple shape_invariant (the_checkbox i)
    (fun checkbox w => shape_invariant w
                       /\ type_filters (document w) !! i = Some checkbox)
    (fun _ => shape_invariant).
Proof.
  intros w Hw. unfold the_checkbox. run.
  destruct (type_filters (document w) !! i) eqn:E; run;
    [split; [exact Hw | exact E] | exact Hw].
Qed.

Lemma loadSavedFilters_keeps : keeps loadSavedFilters.
Proof.
  intros w Hw. pose proof Hw as (Hf & Hs & Hb & Hc).
  unfold loadSavedFilters, Eff.try_catch, localStorage_getItem. run.
  unfold Storage.getItem.
  destruct (Storage.available (localStorage (platform w))).
  2: { unfold console_warn, console_push. run.
       apply (shape_invariant_view w); [reflexivity | exact Hw]. }
  destruct (Storage.items (localStorage (platform w)) !! storageKey (filtersObj w))
    as [[|c text]|] eqn:Hitem; run; try exact Hw.
  destruct (JSON.parse (c :: text)) as [v | e] eqn:Hparse.
  - split; [exact (Hs _ _ Hitem Hparse) |]. split; [| split; assumption].
    exact Hs.
  - unfold console_warn, console_push. run.
    apply (shape_invariant_view w); [reflexivity | exact Hw].
Qed.

Lemma toggleFilterButton_keeps (i : nat) : keeps (toggleFilterButton i).
Proof.
  unfold toggleFilterButton.
  eapply triple_bind; [apply the_button_spec |]. intros button.
  apply (triple_pure _ (exists k, fb_filter button = Some k /\ k ∈ filter_names)).
  { intros w ((_ & _ & Hb & _) & Hi). apply Hb.
    apply list_elem_of_lookup. eauto. }
  intros (k & Hk & Hin).
  eapply triple_bind; [apply (update_button_keeps i button); reflexivity |].
  intros []. eapply triple_bind.
  { apply filters_set_keeps. intros w Hw. split; [exact Hw |].
    destruct Hw as ((a & b & c & d & types & ->) & _).
    rewrite Hk. apply set_filter_flag, Hin. }
  intros []. eapply triple_bind; [apply applyFilters_keeps |].
  intros []. eapply triple_bind; [apply saveFilters_keeps |].
  intros []. apply announce_keeps.
Qed.

Lemma filter_ne_strings (types : list jsstring) (t : jsstring) :
  List.filter (fun type => strict_ne type (Str t)) (Str <$> types)
  = Str <$> List.filter (fun s => negb (bool_decide (s = t))) types.
Proof.
  induction types as [|s types IH]; [reflexivity |].
  cbn [fmap list_fmap List.filter strict_ne].
  destruct (bool_decide (s = t)); cbn [negb fmap list_fmap]; rewrite IH;
    reflexivity.
Qed.

Lemma toggleTypeFilter_keeps (i : nat) : keeps (toggleTypeFilter i).
Proof.
  unfold toggleTypeFilter.
  eapply triple_bind; [apply the_checkbox_spec |]. intros checkbox.
  apply (triple_pure _ (exists t, tf_type checkbox = Some t)).
  { intros w ((_ & _ & _ & Hc) & Hi). apply Hc.
    apply list_elem_of_lookup. eauto. }
  intros (t & Ht). rewrite Ht. cbn [attr_value].
  eapply triple_bind; [apply (update_checkbox_keeps i checkbox); reflexivity |].
  intros []. eapply triple_bind; [apply filters_get_spec |]. intros locationTypes.
  apply (triple_pure _ (exists types, locationTypes = Array (Str <$> types))).
  { intros w (((a & b & c & d & types & ->) & _) & Hget).
    injection Hget as <-. eauto. }
  intros (types & ->).
  apply (triple_weaken _ shape_invariant _ _ (fun _ => shape_invariant) _ (fun _ => shape_invariant)); [| tauto | auto | auto].
  assert (forall types',
             triple shape_invariant
               (filters_set (js "locationTypes") (Array (Str <$> types')))
               (fun _ => shape_invariant) (fun _ => shape_invariant)) as Hset.
  { intros types'. apply filters_set_keeps. intros w Hw. split; [exact Hw |].
    destruct Hw as ((a & b & c & d & types0 & ->) & _).
    rewrite set_location_types. repeat eexists. }
  apply (triple_bind _ _ _ (fun _ => shape_invariant)).
  { intros w Hw. destruct (tf_checked checkbox); unfold includes, push, filter_ne; run.
    - destruct (existsb _ _); run; [exact Hw |].
      change [Str t] with (Str <$> [t]). rewrite <- fmap_app.
      exact (Hset _ w Hw).
    - rewrite filter_ne_strings. exact (Hset _ w Hw). }
  intros []. eapply triple_bind; [apply applyFilters_keeps |].
  intros []. eapply triple_bind; [apply saveFilters_keeps |].
  intros []. apply announce_keeps.
Qed.

Lemma resetFilters_keeps : keeps resetFilters.
Proof.
  unfold resetFilters.
  apply (triple_bind _ _ _ (fun _ => shape_invariant)).
  { apply triple_modify. intros w (_ & Hs & Hb & Hc).
    split; [| split; [exact Hs | split; assumption]].
    rewrite default_filters_state. repeat eexists. }
  intros _. apply (triple_bind _ _ _ (fun _ => shape_invariant)).
  { apply triple_forEach_button. intros i button.
    apply (update_button_keeps i button). reflexivity. }
  intros _. apply (triple_bind _ _ _ (fun _ => shape_invariant)).
  { apply triple_forEach_checkbox. intros i checkbox.
    apply (update_checkbox_keeps i checkbox). reflexivity. }
  intros _. apply (triple_bind _ _ _ (fun _ => shape_invariant));
    [apply applyFilters_keeps |].
  intros _. apply (triple_bind _ _ _ (fun _ => shape_invariant));
    [apply saveFilters_keeps |].
  intros _. apply announce_keeps.
Qed.

Lemma mark_active_buttons_keeps : keeps mark_active_buttons.
Proof.
  unfold mark_active_buttons. apply triple_forEach_button. intros i button.
  set (P := fun w : World =>
              shape_invariant w /\ filter_buttons (document w) !! i = Some button).
  apply (triple_bind _ _ _ (fun _ => P)).
  { apply (triple_weaken _ _ _ _ _ _ _ (filters_get_spec P _));
      [auto | tauto | unfold P; tauto]. }
  intros on. unfold P. destruct (truthy on).
  - apply (triple_weaken _ _ _ _ _ _ _ (update_button_keeps i button (set_active button true) eq_refl));
      [tauto | auto | auto].
  - apply triple_ret. tauto.
Qed.

Lemma setFromUserPreferences_keeps (preferences : value) :
  keeps (setFromUserPreferences preferences).
Proof.
  unfold setFromUserPreferences.
  destruct (not preferences); [apply triple_ret; auto |].
  assert (forall pref filter : string,
             js filter ∈ filter_names ->
             keeps (p ← Eff.lift (get preferences (js pref));
                    if truthy p then filters_set (js filter) (Bool true)
                    else mret tt)) as Hneed.
  { intros pref filter Hin.
    apply (triple_bind _ _ _ (fun _ => shape_invariant)).
    - apply triple_lift. intros w Hw. destruct (get preferences (js pref)); exact Hw.
    - intros p. destruct (truthy p); [| apply triple_ret; auto].
      apply filters_set_keeps. intros w Hw. split; [exact Hw |].
      destruct Hw as ((a & b & c & d & types & ->) & _).
      apply set_filter_flag, Hin. }
  apply (triple_bind _ _ _ (fun _ => shape_invariant)).
  { apply Hneed. unfold filter_names. set_solver. }
  intros _. apply (triple_bind _ _ _ (fun _ => shape_invariant)).
  { apply Hneed. unfold filter_names. set_solver. }
  intros _. apply (triple_bind _ _ _ (fun _ => shape_invariant)).
  { apply Hneed. unfold filter_names. set_solver. }
  intros _. apply (triple_bind _ _ _ (fun _ => shape_invariant)).
  { apply Hneed. unfold filter_names. set_solver. }
  intros _. apply (triple_bind _ _ _ (fun _ => shape_invariant));
    [apply mark_active_buttons_keeps |].
  intros _. apply (triple_bind _ _ _ (fun _ => shape_invariant));
    [apply applyFilters_keeps |].
  intros _. apply saveFilters_keeps.
Qed.

Lemma run_filter_call_keeps (c : FilterCall) (w : World) :
  shape_invariant w -> shape_invariant (snd (run_filter_call c w)).
Proof.
  intros Hw.
  assert (keeps (run_filter_call c)) as H.
  { destruct c; cbn [run_filter_call].
    - apply loadSavedFilters_keeps.
    - apply toggleFilterButton_keeps.
    - apply toggleTypeFilter_keeps.
    - apply resetFilters_keeps.
    - apply setFromUserPreferences_keeps. }
  specialize (H w Hw). destruct (run_filter_call c w) as [[a|e] w']; exact H.
Qed.

(** [C7] The shape of the filter state is an invariant on a page whose
    filter buttons each name one of the four filters, whose type
    checkboxes each carry a type, and whose storage holds under the key
    nothing, or something that is not JSON, or the JSON of a filter
    state: from the default state, after any sequence of
    [loadSavedFilters], [toggleFilterButton], [toggleTypeFilter],
    [resetFilters] and [setFromUserPreferences], [this.filters] still
    consists of the four booleans and the list of strings. *)
Theorem filter_shape_is_invariant (w : World) (calls : list FilterCall) :
  filters (filtersObj w) = default_filters ->
  stored_filters_ok w -> buttons_ok w -> checkboxes_ok w ->
  is_filter_state (filters (filtersObj (run_filter_calls calls w))).
Proof.
  intros Hf Hs Hb Hc.
  assert (shape_invariant w) as Hw.
  { split; [| split; [exact Hs | split; assumption]].
    rewrite Hf, default_filters_state. repeat eexists. }
  clear Hf Hs Hb Hc. revert w Hw.
  induction calls as [|c calls IH]; intros w Hw; cbn [run_filter_calls].
  - exact (proj1 Hw).
  - apply IH, run_filter_call_keeps, Hw.
Qed.

(** A page whose storage holds, under the key of the filters, a JSON
    text that is not a filter state. *)
Definition foreign_storage_world : World :=
  sample_world {[ default_storageKey := js "[]" ]} sample_document.

(** [C7], as stated, fails: from the default state on this page, one call
    of [loadSavedFilters] leaves an empty array in [this.filters]. *)
Lemma loadSavedFilters_breaks_shape :
  filters (filtersObj foreign_storage_world) = default_filters
  /\ filters (filtersObj (run_filter_calls [LoadSavedFilters] foreign_storage_world))
     = Array []
  /\ ~ is_filter_state
        (filters (filtersObj (run_filter_calls [LoadSavedFilters]
                                foreign_storage_world))).
Proof.
  split; [reflexivity |].
  assert (filters (filtersObj (run_filter_calls [LoadSavedFilters]
                                 foreign_storage_world)) = Array []) as E.
  { vm_compute. reflexivity. }
  split; [exact E |]. rewrite E.
  intros (a & b & c & d & types & H). discriminate H.
Qed.

End FilterShape.

(** ** The theorems at work on a sample page *)

Section Witnesses.

Import Value.

Definition museum_filters : value := filter_state true false false false [js "museum"].

Definition museum_world : World :=
  on_filtersObj (fun o =>
    {| filters := museum_filters; storageKey := storageKey o; has_map := has_map o |})
    (sample_world ∅ sample_document).

Lemma filters_save_load_round_trip_witness :
  exists text saved loaded,
    JSON.stringify museum_filters = Some text
    /\ AccessibilityFilters.saveFilters museum_world = (Ok tt, saved)
    /\ Storage.getItem (storageKey (filtersObj museum_world))
         (localStorage (platform saved)) = Ok (Some text)
    /\ AccessibilityFilters.loadSavedFilters (fresh_instance saved) = (Ok tt, loaded)
    /\ filters (filtersObj loaded) = museum_filters.
Proof.
  apply (filters_save_load_round_trip museum_world true false false false [js "museum"]).
  - reflexivity.
  - intros text H. vm_compute in H. injection H as <-. vm_compute. reflexivity.
Defined.

Definition large_contrast_world : World :=
  on_app (fun _ =>
    {| highContrast := Bool true; textSize := large; userPreferences := Null |})
    (sample_world ∅ sample_document).

Lemma preferences_save_load_round_trip_witness :
  exists text saved loaded,
    JSON.stringify (Object [ (js "highContrast", Bool true); (js "textSize", large) ])
    = Some text
    /\ AccessibilityApp.savePreferences large_contrast_world = (Ok tt, saved)
    /\ Storage.getItem (js "accessibility_preferences") (localStorage (platform saved))
       = Ok (Some text)
    /\ AccessibilityApp.loadPreferences
         (on_app (fun _ => AccessibilityApp.initial_state) saved) = (Ok tt, loaded)
    /\ highContrast (app loaded) = Bool true
    /\ textSize (app loaded) = large.
Proof.
  apply (preferences_save_load_round_trip large_contrast_world true large
           AccessibilityApp.initial_state).
  - reflexivity.
  - reflexivity.
  - right. left. reflexivity.
  - intros text H. vm_compute in H. injection H as <-. vm_compute. reflexivity.
Defined.

Lemma filter_shape_is_invariant_witness :
  is_filter_state
    (filters (filtersObj
       (run_filter_calls
          [ToggleFilterButton 0; ToggleTypeFilter 0; LoadSavedFilters;
           SetFromUserPreferences (Object [(js "needs_visual_assistance", Bool true)])]
          (sample_world ∅ sample_document)))).
Proof.
  apply filter_shape_is_invariant.
  - reflexivity.
  - intros text f H. vm_compute in H. discriminate H.
  - intros button H. cbn in H.
    apply elem_of_cons in H as [-> | H];
      [eexists; split; [reflexivity | unfold filter_names; set_solver] |].
    apply elem_of_cons in H as [-> | H];
      [eexists; split; [reflexivity | unfold filter_names; set_solver] |].
    apply elem_of_nil in H. destruct H.
  - intros checkbox H. cbn in H.
    apply elem_of_cons in H as [-> | H]; [eexists; reflexivity |].
    apply elem_of_nil in H. destruct H.
Defined.

Lemma text_size_steps_witness :
  fst ((AccessibilityApp.increaseTextSize;; AccessibilityApp.decreaseTextSize)
         large_contrast_world) = Ok tt
  /\ app (snd ((AccessibilityApp.increaseTextSize;; AccessibilityApp.decreaseTextSize)
                 large_contrast_world)) = app large_contrast_world.
Proof.
  apply (proj1 (text_size_steps large_contrast_world)).
  right. reflexivity.
Defined.

Lemma hasActiveFilters_spec_witness :
  exists result,
    fst (AccessibilityFilters.hasActiveFilters museum_world) = Ok (Bool result)
    /\ (result = true <->
          true = true \/ false = true \/ false = true \/ false = true
          \/ [js "museum"] <> []).
Proof.
  apply (proj2 hasActiveFilters_spec museum_world true false false false [js "museum"]).
  eexists. repeat split; reflexivity.
Defined.

End Witnesses.

(** ** FormValidator: further properties *)

Section FormValidatorDisplay.

Import FormValidator.

Variable options : Options.
Variable rnd : jsstring.
Variable form : Form.

Lemma Forall_push_if {A} (P : A -> Prop) (b : bool) (x : A) (l : list A) :
  (b = true -> P x) -> Forall P l -> Forall P (push_if b x l).
Proof.
  intros Hx Hl. destruct b; cbn [push_if]; [| exact Hl].
  apply Forall_app. split; [exact Hl |]. constructor; [auto | constructor].
Qed.

(** [X1] Every entry [getFieldValidations] produces names a rule of
    [validationRules]: the branch of [validateField] that skips an unknown
    rule is never taken for these entries. *)
Theorem getFieldValidations_rules_known (field : Field) :
  Forall (fun validation => is_Some (validationRules (rule validation)))
    (getFieldValidations field).
Proof.
  unfold getFieldValidations. cbv zeta.
  repeat (apply Forall_push_if; [intros _; eexists; reflexivity |]).
  destruct (dataset field !! js "match") as [m |].
  - repeat (apply Forall_push_if; [intros _; eexists; reflexivity |]).
    constructor.
  - repeat (apply Forall_push_if; [intros _; eexists; reflexivity |]).
    constructor.
Qed.

(** The name a [data-match] attribute gives, if there is one, can be
    pasted into the selector of the [match] rule as it is: it holds no
    quote, no backslash, no control character and no surrogate. *)
Definition plain_match_name (field : Field) : Prop :=
  forall m, dataset field !! js "match" = Some m ->
            forallb selector_plain_unit m = true.

(** With such a name no validator throws. *)
Lemma getFieldValidations_return (field : Field) (value : jsstring) :
  plain_match_name field ->
  Forall (fun validation =>
            forall r, validationRules (rule validation) = Some r ->
                      exists b, validator r form value (param validation) = Ok b)
         (getFieldValidations field).
Proof.
  intros Hplain. unfold getFieldValidations. cbv zeta.
  repeat (apply Forall_push_if;
          [intros _ r Hr; cbn in Hr; injection Hr as <-; eexists; reflexivity |]).
  destruct (dataset field !! js "match") as [m |] eqn:Hm.
  - apply Forall_push_if.
    { intros _ r Hr. cbn in Hr. injection Hr as <-.
      cbn [validator match_rule param]. unfold query_by_name. cbn [Value.toString].
      rewrite (Hplain m Hm). cbn [mbind outcome_bind]. eexists. reflexivity. }
    repeat (apply Forall_push_if;
            [intros _ r Hr; cbn in Hr; injection Hr as <-; eexists; reflexivity |]).
    constructor.
  - repeat (apply Forall_push_if;
            [intros _ r Hr; cbn in Hr; injection Hr as <-; eexists; reflexivity |]).
    constructor.
Qed.

(** The message element [showFieldError] appends. *)
Definition error_element (field : Field) (message : jsstring) : Element :=
  {| tagName := errorContainer options;
     className := errorClass options;
     id := js "error-" ++ (if bool_decide (name field = []) then rnd else name field);
     textContent := message;
     aria_live := Some (js "polite") |}.

(** What is left of the content of a field's container once the error
    messages shown earlier are removed. *)
Definition kept_children (field : Field) : list Node :=
  remove_errors options (children (container field)).

Lemma check_validations_display (field : Field) (value : jsstring)
    (validations : list Validation) :
  Forall (fun validation =>
            forall r, validationRules (rule validation) = Some r ->
                      exists b, validator r form value (param validation) = Ok b)
         validations ->
  let r := check_validations options rnd form field value validations in
  exists ok,
    fst r = Ok ok
    /\ aria_invalid (snd r) = Some (js (if ok then "false" else "true"))
    /\ (if ok then children (container (snd r)) = children (container field)
        else exists message,
            children (container (snd r))
            = children (container field) ++ [Elem (error_element field message) []]).
Proof.
  induction 1 as [| validation rest Hv _ IH]; cbn [check_validations].
  - exists true. repeat split; reflexivity.
  - destruct (validationRules (rule validation)) as [r |]; [| exact IH].
    destruct (Hv r eq_refl) as [b ->]. destruct b; [exact IH |].
    exists false. cbv zeta. cbn [fst snd].
    split; [reflexivity |]. split; [reflexivity |]. eexists. reflexivity.
Qed.

(** [X2] [validateField], with options that name their classes and tag
    with plain identifiers, on a field whose [data-match] name, if any,
    is plain returns a truth value; afterwards [aria-invalid] tells the
    result, the error messages shown earlier are gone from the field's
    container at whatever depth they were, and the container has gained
    exactly one message element when the field is invalid and none when it
    is valid: messages never pile up. *)
Theorem validateField_display (field : Field) :
  plain_options options = true ->
  plain_match_name field ->
  let r := validateField options rnd form field in
  exists ok,
    fst r = Ok ok
    /\ aria_invalid (snd r) = Some (js (if ok then "false" else "true"))
    /\ (if ok then children (container (snd r)) = kept_children field
        else exists message,
            children (container (snd r))
            = kept_children field ++ [Elem (error_element field message) []]).
Proof.
  intros _ Hplain. unfold validateField. cbv zeta.
  exact (check_validations_display (clearFieldValidation options field)
           (field_value (clearFieldValidation options field))
           (getFieldValidations (clearFieldValidation options field))
           (getFieldValidations_return (clearFieldValidation options field) _ Hplain)).
Qed.



End FormValidatorDisplay.

Section FormValidatorRules.

Import FormValidator.

Lemma lookahead_existsb (class : N -> bool) (s : jsstring) :
  forallb (fun c => negb (is_line_terminator c)) s = true ->
  lookahead class s = existsb class s.
Proof.
  induction s as [| c s IH]; cbn [forallb lookahead existsb]; [reflexivity |].
  intros H. apply andb_prop in H as [Hc Hs].
  rewrite Hc, (IH Hs). reflexivity.
Qed.

Lemma lookahead_some (class : N -> bool) (s : jsstring) :
  lookahead class s = true -> existsb class s = true.
Proof.
  induction s as [| c s IH]; cbn [lookahead existsb]; [discriminate |].
  intros H. apply orb_prop in H as [H | H]; [rewrite H; reflexivity |].
  apply andb_prop in H as [_ H]. rewrite (IH H). apply orb_true_r.
Qed.

Lemma forallb_negb_Forall {A} (f : A -> bool) (l : list A) :
  forallb (fun c => negb (f c)) l = true <-> Forall (fun c => f c = false) l.
Proof.
  induction l as [| c l IH]; cbn [forallb].
  - split; [constructor | reflexivity].
  - rewrite andb_true_iff, negb_true_iff, IH, Forall_cons. reflexivity.
Qed.

Lemma existsb_Exists {A} (f : A -> bool) (l : list A) :
  existsb f l = true <-> Exists (fun c => f c = true) l.
Proof.
  induction l as [| c l IH]; cbn [existsb].
  - split; [discriminate | intros H; inversion H].
  - rewrite orb_true_iff, IH, Exists_cons. reflexivity.
Qed.

(** [X4] The [password] rule accepts a value exactly when it is empty or
    has at least eight code units, none of them a line terminator (which
    the dot of the regular expression does not match), among them a
    lower-case letter, an upper-case letter and a digit. *)
Theorem password_rule_accepts (form : Form) (value : jsstring) (param : Value.t) :
  exists accepted,
    validator password form value param = Ok accepted
    /\ (accepted = true
        <-> value = []
            \/ (8 <= JSString.length value
                /\ Forall (fun c => is_line_terminator c = false) value
                /\ Exists (fun c => JSString.is_lower c = true) value
                /\ Exists (fun c => JSString.is_upper c = true) value
                /\ Exists (fun c => JSString.is_digit c = true) value)).
Proof.
  cbn [validator password]. unfold password_regex_test.
  eexists. split; [reflexivity |].
  rewrite orb_true_iff, bool_decide_eq_true.
  rewrite <- forallb_negb_Forall, <- !existsb_Exists, <- Z.leb_le.
  split.
  - intros [H | H]; [left; exact H | right].
    apply andb_prop in H as [H Hlen]. apply andb_prop in H as [H Hterm].
    apply andb_prop in H as [H Hdig]. apply andb_prop in H as [Hlow Hup].
    repeat split; try assumption; apply lookahead_some; assumption.
  - intros [H | (Hlen & Hterm & Hlow & Hup & Hdig)]; [left; exact H | right].
    rewrite !(lookahead_existsb _ _ Hterm), Hterm, Hlow, Hup, Hdig, Hlen.
    reflexivity.
Qed.

End FormValidatorRules.
Section Revalidation.

Import FormValidator.

Lemma remove_absent (c : jsstring) (cl : ClassList.t) :
  c ∉ cl -> ClassList.remove c cl = cl.
Proof.
  unfold ClassList.remove. induction cl as [| c' cl IH]; intros H; [reflexivity |].
  apply not_elem_of_cons in H as [Hne Hcl].
  rewrite filter_cons_True by congruence. rewrite (IH Hcl). reflexivity.
Qed.

Lemma remove_last (x y : jsstring) (cl : ClassList.t) :
  y ∉ cl ->
  ClassList.remove y (cl ++ [x]) = cl ++ (if decide (x = y) then [] else [x]).
Proof.
  intros H. unfold ClassList.remove. rewrite filter_app.
  fold (ClassList.remove y cl). rewrite (remove_absent _ _ H).
  destruct (decide (x = y)) as [-> | Hne].
  - rewrite filter_cons_False by (intros E; apply E; reflexivity). reflexivity.
  - rewrite filter_cons_True by exact Hne. reflexivity.
Qed.

Lemma add_absent (c : jsstring) (cl : ClassList.t) :
  c ∉ cl -> ClassList.add c cl = cl ++ [c].
Proof.
  intros H. unfold ClassList.add, ClassList.contains.
  rewrite bool_decide_eq_false_2 by exact H. reflexivity.
Qed.

Lemma not_elem_of_remove (c : jsstring) (cl : ClassList.t) :
  c ∉ ClassList.remove c cl.
Proof.
  unfold ClassList.remove. rewrite list_elem_of_filter. intros [H _]. apply H. reflexivity.
Qed.

Lemma not_elem_of_remove_other (c c' : jsstring) (cl : ClassList.t) :
  c ∉ cl -> c ∉ ClassList.remove c' cl.
Proof.
  unfold ClassList.remove. rewrite list_elem_of_filter. intros H [_ H']. exact (H H').
Qed.

(** A class added to a list that holds neither it nor the other class,
    after which the other class is removed: removing both classes gives the
    list back, in either order. *)
Lemma remove_both_added (x y : jsstring) (cl : ClassList.t) :
  x ∉ cl -> y ∉ cl ->
  ClassList.remove x (ClassList.remove y (ClassList.remove y (ClassList.add x cl))) = cl
  /\ ClassList.remove y (ClassList.remove x (ClassList.remove y (ClassList.add x cl))) = cl.
Proof.
  intros Hx Hy. rewrite (add_absent _ _ Hx), (remove_last _ _ _ Hy).
  destruct (decide (x = y)) as [-> | Hne].
  - rewrite app_nil_r, !(remove_absent _ _ Hy). split; reflexivity.
  - assert (ClassList.remove y (cl ++ [x]) = cl ++ [x]) as E1.
    { rewrite (remove_last _ _ _ Hy). destruct (decide (x = y)); [contradiction |].
      reflexivity. }
    assert (ClassList.remove x (cl ++ [x]) = cl) as E2.
    { rewrite (remove_last _ _ _ Hx). destruct (decide (x = x)); [| contradiction].
      apply app_nil_r. }
    rewrite E1, E2, (remove_absent _ _ Hy). split; reflexivity.
Qed.

Lemma strip_prefix_app (p s : jsstring) :
  JSString.strip_prefix p (p ++ s) = Some s.
Proof.
  induction p as [| c p IH]; [destruct s; reflexivity |].
  cbn [Datatypes.app JSString.strip_prefix]. rewrite N.eqb_refl. exact IH.
Qed.

Lemma includes_suffix (a p : jsstring) :
  JSString.includes (a ++ p) p = true.
Proof.
  induction a as [| c a IH].
  - cbn [Datatypes.app].
    assert (JSString.strip_prefix p p = Some []) as H.
    { rewrite <- (app_nil_r p) at 2. apply strip_prefix_app. }
    destruct p; cbn [JSString.includes]; rewrite H; reflexivity.
  - cbn [Datatypes.app JSString.includes]. rewrite IH.
    destruct (JSString.strip_prefix p (c :: a ++ p)); reflexivity.
Qed.

Lemma includes_refl (p : jsstring) : JSString.includes p p = true.
Proof. exact (includes_suffix [] p). Qed.

(** The value [showFieldError] gives [aria-describedby] does not change
    when the same error id is added again. *)
Lemma describedby_fixed (described : option jsstring) (errorId : jsstring) :
  errorId <> [] ->
  match
    match described with
    | Some ((_ :: _) as describedBy) =>
        if JSString.includes describedBy errorId then Some describedBy
        else Some (describedBy ++ js " " ++ errorId)
    | _ => Some errorId
    end
  with
  | Some ((_ :: _) as describedBy) =>
      if JSString.includes describedBy errorId then Some describedBy
      else Some (describedBy ++ js " " ++ errorId)
  | _ => Some errorId
  end
  = match described with
    | Some ((_ :: _) as describedBy) =>
        if JSString.includes describedBy errorId then Some describedBy
        else Some (describedBy ++ js " " ++ errorId)
    | _ => Some errorId
    end.
Proof.
  intros Hid. destruct errorId as [| h t]; [contradiction |].
  destruct described as [[| u d] |].
  - rewrite includes_refl. reflexivity.
  - destruct (JSString.includes (u :: d) (h :: t)) eqn:Hi.
    + rewrite Hi. reflexivity.
    + cbn [Datatypes.app]. rewrite app_comm_cons, (app_assoc (u :: d)), includes_suffix.
      reflexivity.
  - rewrite includes_refl. reflexivity.
Qed.

Lemma tokens_from_no_space (s cur : jsstring) :
  forallb (fun u => negb (is_ascii_whitespace u)) s = true ->
  rev cur ++ s <> [] ->
  tokens_from cur s = [rev cur ++ s].
Proof.
  revert cur. induction s as [| c s IH]; intros cur Hs Hne.
  - cbn [tokens_from]. rewrite app_nil_r in *.
    destruct cur as [| u cur]; [contradiction | reflexivity].
  - cbn [forallb] in Hs. apply andb_prop in Hs as [Hc Hs].
    apply negb_true_iff in Hc. cbn [tokens_from]. rewrite Hc.
    rewrite (IH (c :: cur) Hs).
    + cbn [rev]. rewrite <- app_assoc. reflexivity.
    + cbn [rev]. rewrite <- app_assoc. intros E. destruct (rev cur); discriminate E.
Qed.

Lemma plain_class_name_token (c : jsstring) :
  plain_class_name c = true -> c ∈ class_tokens c.
Proof.
  intros H. unfold class_tokens.
  rewrite (tokens_from_no_space c []); [apply list_elem_of_here | |].
  - destruct c as [| u r]; [discriminate |].
    cbn [plain_class_name] in H. apply andb_prop in H as [Hu Hr].
    cbn [forallb]. apply andb_true_intro. split.
    + apply negb_true_iff. unfold is_ascii_whitespace.
      destruct (u =? 9)%N eqn:E1; [apply N.eqb_eq in E1; subst; discriminate Hu |].
      destruct (u =? 10)%N eqn:E2; [apply N.eqb_eq in E2; subst; discriminate Hu |].
      destruct (u =? 12)%N eqn:E3; [apply N.eqb_eq in E3; subst; discriminate Hu |].
      destruct (u =? 13)%N eqn:E4; [apply N.eqb_eq in E4; subst; discriminate Hu |].
      destruct (u =? 32)%N eqn:E5; [apply N.eqb_eq in E5; subst; discriminate Hu |].
      reflexivity.
    + apply forallb_forall. intros x Hx.
      pose proof (proj1 (forallb_forall _ _) Hr x Hx) as Hok.
      apply negb_true_iff. unfold is_ascii_whitespace.
      destruct (x =? 9)%N eqn:E1; [apply N.eqb_eq in E1; subst; discriminate Hok |].
      destruct (x =? 10)%N eqn:E2; [apply N.eqb_eq in E2; subst; discriminate Hok |].
      destruct (x =? 12)%N eqn:E3; [apply N.eqb_eq in E3; subst; discriminate Hok |].
      destruct (x =? 13)%N eqn:E4; [apply N.eqb_eq in E4; subst; discriminate Hok |].
      destruct (x =? 32)%N eqn:E5; [apply N.eqb_eq in E5; subst; discriminate Hok |].
      reflexivity.
  - destruct c; [discriminate H | discriminate].
Qed.

(** Induction on a node with the hypothesis for all the nodes under it. *)
Lemma Node_nested_ind (P : Node -> Prop) :
  (forall e content, Forall P content -> P (Elem e content)) ->
  forall n, P n.
Proof.
  intros Hstep. fix IH 1. intros [e content]. apply Hstep.
  induction content as [| n content IHc]; constructor; [apply IH | exact IHc].
Qed.

Lemma flat_map_fixed {A} (f : A -> list A) (l : list A) :
  Forall (fun x => flat_map f (f x) = f x) l ->
  flat_map f (flat_map f l) = flat_map f l.
Proof.
  induction 1 as [| x l Hx _ IH]; [reflexivity |].
  cbn [flat_map]. rewrite flat_map_app, Hx, IH. reflexivity.
Qed.

(** Removing the error messages once more changes nothing. *)
Lemma remove_errors_again (options : Options) (nodes : list Node) :
  remove_errors options (remove_errors options nodes) = remove_errors options nodes.
Proof.
  unfold remove_errors. apply flat_map_fixed.
  apply Forall_forall. intros n _. induction n as [e content IH] using Node_nested_ind.
  cbn [remove_errors_under].
  destruct (is_error_element options e) eqn:E; [reflexivity |].
  cbn [flat_map remove_errors_under]. rewrite E, app_nil_r.
  rewrite (flat_map_fixed _ _ IH). reflexivity.
Qed.

(** The message of the first validation that fails, if any: what the loop
    of [validateField] decides, apart from how it is displayed. *)
Fixpoint first_failure (form : Form) (data : gmap jsstring jsstring)
    (value : jsstring) (validations : list Validation) : outcome (option jsstring) :=
  match validations with
  | [] => Ok None
  | validation :: rest =>
      match validationRules (rule validation) with
      | None => first_failure form data value rest
      | Some r =>
          match validator r form value (param validation) with
          | Throw e => Throw e
          | Ok true => first_failure form data value rest
          | Ok false =>
              let message :=
                match message r with
                | Template f => f (param validation)
                | Text s => s
                end in
              Ok (Some match data !! (rule validation ++ js "Message") with
                       | Some customMessage =>
                           if bool_decide (customMessage = []) then message
                           else customMessage
                       | None => message
                       end)
          end
      end
  end.

Lemma check_validations_first_failure (options : Options) (rnd : jsstring)
    (form : Form) (field : Field) (value : jsstring) (validations : list Validation) :
  check_validations options rnd form field value validations
  = match first_failure form (dataset field) value validations with
    | Ok None => (Ok true, showFieldSuccess options field)
    | Ok (Some message) => (Ok false, showFieldError options rnd field message)
    | Throw e => (Throw e, field)
    end.
Proof.
  induction validations as [| validation rest IH];
    cbn [check_validations first_failure]; [reflexivity |].
  destruct (validationRules (rule validation)) as [r |]; [| exact IH].
  destruct (validator r form value (param validation)) as [[|] | e];
    [exact IH | reflexivity | reflexivity].
Qed.

Lemma first_failure_returns (form : Form) (data : gmap jsstring jsstring)
    (value : jsstring) (validations : list Validation) :
  Forall (fun validation =>
            forall r, validationRules (rule validation) = Some r ->
                      exists b, validator r form value (param validation) = Ok b)
         validations ->
  exists found, first_failure form data value validations = Ok found.
Proof.
  induction 1 as [| validation rest Hv _ IH]; cbn [first_failure].
  - eexists. reflexivity.
  - destruct (validationRules (rule validation)) as [r |]; [| exact IH].
    destruct (Hv r eq_refl) as [b ->]. destruct b; [exact IH |].
    eexists. reflexivity.
Qed.

(** [X5] Validating a named field again, with the form unchanged, gives
    the same result and leaves the display as the first validation left
    it: the classes of the container, the single error message, and the
    [aria-invalid] and [aria-describedby] attributes reach a fixed point.
    This is for options that name their classes and tag with plain
    identifiers and a field whose [data-match] name, if any, is plain,
    so that the validation returns a truth value.  (A field without a name gets a fresh random
    error id each time.) *)
Theorem validateField_again (options : Options) (rnd rnd' : jsstring)
    (form : Form) (field : Field) :
  plain_options options = true ->
  name field <> [] ->
  plain_match_name field ->
  let r := validateField options rnd form field in
  (exists ok, fst r = Ok ok)
  /\ validateField options rnd' form (snd r) = r.
Proof.
  intros Hoptions Hname Hplain.
  assert (plain_class_name (errorClass options) = true) as Hclass.
  { unfold plain_options in Hoptions.
    apply andb_prop in Hoptions as [Hoptions _].
    apply andb_prop in Hoptions as [Hoptions _].
    apply andb_prop in Hoptions as [Hoptions _]. exact Hoptions. }
  clear Hoptions. cbv zeta. unfold validateField. cbv zeta.
  rewrite !check_validations_first_failure.
  set (cleared := clearFieldValidation options field).
  assert (highlightClass options ∉ classList (container cleared)) as Hh.
  { apply not_elem_of_remove_other, not_elem_of_remove. }
  assert (successClass options ∉ classList (container cleared)) as Hs.
  { apply not_elem_of_remove. }
  assert (remove_errors options (children (container cleared))
          = children (container cleared)) as Hk.
  { apply remove_errors_again. }
  assert (name cleared <> []) as Hname' by exact Hname.
  destruct (first_failure_returns form (dataset cleared) (field_value cleared)
              (getFieldValidations cleared)
              (getFieldValidations_return form cleared _ Hplain)) as [found Hfound].
  rewrite Hfound. destruct found as [message |]; cbn [fst snd].
  - (* the field is invalid *)
    split; [eexists; reflexivity |].
    change (first_failure form
              (dataset (clearFieldValidation options
                          (showFieldError options rnd cleared message)))
              (field_value (clearFieldValidation options
                              (showFieldError options rnd cleared message)))
              (getFieldValidations (clearFieldValidation options
                                      (showFieldError options rnd cleared message))))
      with (first_failure form (dataset cleared) (field_value cleared)
              (getFieldValidations cleared)).
    rewrite Hfound. clear Hfound. clearbody cleared. f_equal.
    unfold showFieldError, clearFieldValidation, with_display.
    cbn [type name value checked has_required minLength maxLength dataset
         aria_invalid aria_describedby container classList children].
    rewrite (bool_decide_eq_false_2 _ Hname').
    f_equal.
    + apply describedby_fixed. intros E. cbn in E. discriminate E.
    + f_equal.
      * rewrite (proj2 (remove_both_added _ _ _ Hh Hs)). reflexivity.
      * unfold remove_errors in *. rewrite flat_map_app, Hk.
        cbn [flat_map remove_errors_under]. unfold is_error_element. cbn [className].
        rewrite bool_decide_eq_true_2 by (apply plain_class_name_token; exact Hclass).
        rewrite !app_nil_r. reflexivity.
  - (* the field is valid *)
    split; [eexists; reflexivity |].
    change (first_failure form
              (dataset (clearFieldValidation options
                          (showFieldSuccess options cleared)))
              (field_value (clearFieldValidation options
                              (showFieldSuccess options cleared)))
              (getFieldValidations (clearFieldValidation options
                                      (showFieldSuccess options cleared))))
      with (first_failure form (dataset cleared) (field_value cleared)
              (getFieldValidations cleared)).
    rewrite Hfound. clear Hfound. clearbody cleared. f_equal.
    unfold showFieldSuccess, clearFieldValidation, with_display.
    cbn [type name value checked has_required minLength maxLength dataset
         aria_invalid aria_describedby container classList children].
    f_equal. f_equal.
    + rewrite (proj1 (remove_both_added _ _ _ Hs Hh)). reflexivity.
    + exact Hk.
Qed.

End Revalidation.
(** ** AccessibilityApp: the classes of the body *)

Section BodyClasses.

Import Value AccessibilityApp.

Lemma contains_add (c : jsstring) (cl : ClassList.t) :
  ClassList.contains (ClassList.add c cl) c = true.
Proof.
  unfold ClassList.add. destruct (ClassList.contains cl c) eqn:E; [exact E |].
  apply bool_decide_eq_true. apply elem_of_app. right. apply list_elem_of_here.
Qed.

Lemma contains_add_other (c c' : jsstring) (cl : ClassList.t) :
  c <> c' -> ClassList.contains (ClassList.add c' cl) c = ClassList.contains cl c.
Proof.
  intros Hne. unfold ClassList.add. destruct (ClassList.contains cl c'); [reflexivity |].
  unfold ClassList.contains. apply bool_decide_ext.
  rewrite elem_of_app, list_elem_of_singleton. tauto.
Qed.

Lemma contains_remove (c : jsstring) (cl : ClassList.t) :
  ClassList.contains (ClassList.remove c cl) c = false.
Proof.
  apply bool_decide_eq_false. unfold ClassList.remove.
  rewrite list_elem_of_filter. intros [H _]. apply H. reflexivity.
Qed.

Lemma contains_remove_other (c c' : jsstring) (cl : ClassList.t) :
  c <> c' -> ClassList.contains (ClassList.remove c' cl) c = ClassList.contains cl c.
Proof.
  intros Hne. unfold ClassList.contains, ClassList.remove. apply bool_decide_ext.
  rewrite list_elem_of_filter. tauto.
Qed.

(** Whether the [body] element carries a class. *)
Definition body_has (w : World) (c : string) : bool :=
  ClassList.contains (body (document w)) (js c).

Lemma increaseTextSize_body (w : World) :
  body (document (snd (increaseTextSize w)))
  = if strict_eq_str (textSize (app w)) (js "normal") then
      ClassList.remove (js "xl-text") (ClassList.add (js "large-text") (body (document w)))
    else if strict_eq_str (textSize (app w)) (js "large") then
      ClassList.add (js "xl-text") (ClassList.remove (js "large-text") (body (document w)))
    else body (document w).
Proof.
  destruct w as [pl [bd an up fb tf fs nc sr ld] ap fo mo].
  unfold increaseTextSize, this_state.
  rewrite bind_run. cbn [Eff.gets app textSize].
  destruct (strict_eq_str (textSize ap) (js "normal"));
    [| destruct (strict_eq_str (textSize ap) (js "large"))].
  all: unfold body_add, body_remove; run.
  all: match goal with
       | |- context [savePreferences ?w'] =>
           destruct (savePreferences_frame w') as [p ->]
       end.
  all: unfold announceAccessibilityChange; run.
  all: reflexivity.
Qed.

Lemma decreaseTextSize_body (w : World) :
  body (document (snd (decreaseTextSize w)))
  = if strict_eq_str (textSize (app w)) (js "xl") then
      ClassList.remove (js "xl-text") (ClassList.add (js "large-text") (body (document w)))
    else if strict_eq_str (textSize (app w)) (js "large") then
      ClassList.remove (js "xl-text") (ClassList.remove (js "large-text") (body (document w)))
    else body (document w).
Proof.
  destruct w as [pl [bd an up fb tf fs nc sr ld] ap fo mo].
  unfold decreaseTextSize, this_state.
  rewrite bind_run. cbn [Eff.gets app textSize].
  destruct (strict_eq_str (textSize ap) (js "xl"));
    [| destruct (strict_eq_str (textSize ap) (js "large"))].
  all: unfold body_add, body_remove; run.
  all: match goal with
       | |- context [savePreferences ?w'] =>
           destruct (savePreferences_frame w') as [p ->]
       end.
  all: unfold announceAccessibilityChange; run.
  all: reflexivity.
Qed.

(** The text-size classes of the body agree with the text size of the
    state: [large-text] is there exactly at ['large'], [xl-text] exactly
    at ['xl']. *)
Definition size_classes_in_step (w : World) : Prop :=
  body_has w "large-text" = strict_eq_str (textSize (app w)) (js "large")
  /\ body_has w "xl-text" = strict_eq_str (textSize (app w)) (js "xl").

Lemma strict_eq_str_true (v : value) (s : jsstring) :
  strict_eq_str v s = true -> v = Str s.
Proof.
  destruct v; try discriminate. cbn [strict_eq_str].
  intros H. apply bool_decide_eq_true in H. congruence.
Qed.

Lemma large_xl_differ : js "large-text" <> js "xl-text".
Proof. discriminate. Qed.

(** [X6] [increaseTextSize] and [decreaseTextSize] keep the classes of the
    body in step with the text size: when [large-text] and [xl-text] mark
    the sizes ['large'] and ['xl'] before the call, they do so after it. *)
Theorem text_size_classes_stay_in_step (w : World) :
  size_classes_in_step w ->
  size_classes_in_step (snd (increaseTextSize w))
  /\ size_classes_in_step (snd (decreaseTextSize w)).
Proof.
  unfold size_classes_in_step, body_has.
  rewrite increaseTextSize_body, decreaseTextSize_body.
  rewrite (proj2 (increaseTextSize_state w)), (proj2 (decreaseTextSize_state w)).
  cbn [textSize]. unfold size_up, size_down, large, xl, normal.
  pose proof large_xl_differ as Hne.
  assert (js "xl-text" <> js "large-text") as Hne' by (intros E; symmetry in E; auto).
  generalize (body (document w)) as bd. generalize (textSize (app w)) as ts.
  intros ts bd.
  destruct ts as [| | b | x | s | elems | props]; cbn [strict_eq_str];
    try (intros [Hl Hx]; rewrite Hl, Hx; repeat split; reflexivity).
  destruct (decide (s = js "normal")) as [-> | Hn];
    [| destruct (decide (s = js "large")) as [-> | Hlg];
       [| destruct (decide (s = js "xl")) as [-> | Hxl]]].
  all: repeat match goal with
         | |- context [bool_decide (?a = ?b)] =>
             first [ rewrite (bool_decide_eq_true_2 (a = b)) by reflexivity
                   | rewrite (bool_decide_eq_false_2 (a = b))
                       by (discriminate || assumption) ]
         end.
  all: cbn [strict_eq_str].
  all: repeat match goal with
         | |- context [bool_decide (?a = ?b)] =>
             first [ rewrite (bool_decide_eq_true_2 (a = b)) by reflexivity
                   | rewrite (bool_decide_eq_false_2 (a = b))
                       by (discriminate || assumption) ]
         end.
  all: intros [Hl Hx].
  all: rewrite ?contains_remove, ?contains_add,
         ?(contains_remove_other _ _ _ Hne), ?(contains_add_other _ _ _ Hne'),
         ?(contains_remove_other _ _ _ Hne'), ?(contains_add_other _ _ _ Hne),
         ?contains_add, ?contains_remove, ?Hl, ?Hx.
  all: repeat split; reflexivity.
Qed.

End BodyClasses.
Section ContrastAndReload.

Import Value AccessibilityApp.

Lemma contrast_override_differ : js "high-contrast" <> js "high-contrast-override".
Proof. discriminate. Qed.

(** [X7] [toggleHighContrast] negates the contrast flag and leaves the
    [high-contrast] class of the body telling the new flag, whatever the
    class list was before; the override class is set, the text size is
    untouched, and the change is announced.  Two calls bring a boolean
    flag back to where it was. *)
Theorem toggleHighContrast_spec (w : World) :
  let w' := snd (toggleHighContrast w) in
  let on := not (highContrast (app w)) in
  fst (toggleHighContrast w) = Ok tt
  /\ highContrast (app w') = Bool on
  /\ body_has w' "high-contrast" = on
  /\ body_has w' "high-contrast-override" = true
  /\ textSize (app w') = textSize (app w)
  /\ accessibility_announcer (document w')
     = Some (js "High contrast mode " ++ js (if on then "enabled" else "disabled"))
  /\ highContrast (app (snd (toggleHighContrast w')))
     = Bool (truthy (highContrast (app w))).
Proof.
  assert (forall w,
    fst (toggleHighContrast w) = Ok tt
    /\ highContrast (app (snd (toggleHighContrast w))) = Bool (not (highContrast (app w)))
    /\ body_has (snd (toggleHighContrast w)) "high-contrast" = not (highContrast (app w))
    /\ body_has (snd (toggleHighContrast w)) "high-contrast-override" = true
    /\ textSize (app (snd (toggleHighContrast w))) = textSize (app w)
    /\ accessibility_announcer (document (snd (toggleHighContrast w)))
       = Some (js "High contrast mode "
               ++ js (if not (highContrast (app w)) then "enabled" else "disabled")))
    as Hstep.
  { clear w. intros w.
    destruct w as [pl [bd an up fb tf fs nc sr ld] ap fo mo].
    unfold toggleHighContrast, this_state, body_add. run.
    match goal with
    | |- context [savePreferences ?w'] =>
        destruct (savePreferences_frame w') as [p ->]
    end.
    unfold announceAccessibilityChange. run.
    cbn [fst snd app document body set_accessibility_announcer on_document on_platform
         set_highContrast set_body on_app highContrast textSize accessibility_announcer].
    unfold body_has.
    cbn [fst snd app document body set_accessibility_announcer on_document on_platform
         set_highContrast set_body on_app highContrast textSize accessibility_announcer].
    repeat split.
    - rewrite (contains_add_other _ _ _ contrast_override_differ).
      unfold ClassList.toggle_force.
      destruct (not (highContrast ap)); [apply contains_add | apply contains_remove].
    - apply contains_add. }
  cbv zeta. destruct (Hstep w) as (H1 & H2 & H3 & H4 & H5 & H6).
  repeat split; try assumption.
  destruct (Hstep (snd (toggleHighContrast w))) as (_ & H2' & _).
  rewrite H2', H2. unfold not. cbn [truthy]. rewrite negb_involutive. reflexivity.
Qed.

(** What [loadPreferences] does when the storage holds the JSON text of
    saved preferences and the page has no [#user-preferences] element. *)
Lemma loadPreferences_no_attribute (w : World) (text : jsstring) (parsed hc ts : value) :
  Storage.getItem preferences_key (localStorage (platform w)) = Ok (Some text) ->
  text <> [] -> JSON.parse text = Ok parsed ->
  get parsed (js "highContrast") = Ok hc ->
  get parsed (js "textSize") = Ok ts ->
  user_preferences (document w) = None ->
  loadPreferences w
  = (Ok tt, set_textSize (or ts (Str (js "normal")))
              (set_highContrast (or hc (Bool false)) w)).
Proof.
  intros Hget Hne Hparse Hhc Hts Hnone.
  unfold loadPreferences, Eff.try_catch, localStorage_getItem. run.
  rewrite Hget. destruct text as [|c text]; [congruence |]. run.
  rewrite Hparse. run. rewrite Hhc. run. rewrite Hts. run.
  cbn [user_preferences document set_textSize set_highContrast on_app].
  rewrite Hnone. run. reflexivity.
Qed.

(** [X8] Loading a page whose storage holds preferences saved earlier:
    the constructor of the application restores the contrast flag and the
    text size and marks the body accordingly.  The page is one without a
    [#user-preferences] element whose body does not carry the classes
    yet. *)
Theorem constructor_applies_saved_preferences
    (w : World) (contrast : bool) (size : value) (filters_exist : bool)
    (text : jsstring) :
  valid_size size ->
  JSON.stringify
    (preferences_object
       {| highContrast := Bool contrast; textSize := size; userPreferences := Null |})
  = Some text ->
  Storage.getItem preferences_key (localStorage (platform w)) = Ok (Some text) ->
  user_preferences (document w) = None ->
  body_has w "high-contrast" = false ->
  body_has w "large-text" = false ->
  body_has w "xl-text" = false ->
  exists w',
    AccessibilityApp.constructor filters_exist w = (Ok tt, w')
    /\ highContrast (app w') = Bool contrast
    /\ textSize (app w') = size
    /\ body_has w' "high-contrast" = contrast
    /\ size_classes_in_step w'.
Proof.
  intros Hv Htext Hget Hnone Hhc Hlg Hxl.
  destruct (preferences_read_back contrast size Null Hv)
    as (text' & Htext' & Hne & parsed & Hparse & Hc & Hs).
  rewrite Htext in Htext'. injection Htext' as <-.
  unfold AccessibilityApp.constructor. run.
  rewrite (loadPreferences_no_attribute _ text parsed (Bool contrast) size);
    try assumption.
  destruct w as [pl [bd an up fb tf fs nc sr ld] ap fo mo].
  unfold body_has in *. cbn [document body] in Hhc, Hlg, Hxl.
  unfold applyPreferences, this_state, body_add. run.
  cbn [app on_app set_textSize set_highContrast initial_state highContrast textSize
       userPreferences].
  assert (js "large-text" <> js "high-contrast") as N1 by discriminate.
  assert (js "large-text" <> js "high-contrast-override") as N2 by discriminate.
  assert (js "xl-text" <> js "high-contrast") as N3 by discriminate.
  assert (js "xl-text" <> js "high-contrast-override") as N4 by discriminate.
  assert (js "high-contrast" <> js "large-text") as N5 by discriminate.
  assert (js "high-contrast" <> js "xl-text") as N6 by discriminate.
  assert (js "xl-text" <> js "large-text") as N7 by discriminate.
  pose proof large_xl_differ as N8.
  pose proof contrast_override_differ as N9.
  destruct Hv as [-> | [-> | ->]]; destruct contrast.
  all: unfold or; cbn [truthy].
  all: repeat match goal with
         | |- context [bool_decide (?a = ?b)] =>
             let v := eval vm_compute in (bool_decide (a = b)) in
             change (bool_decide (a = b)) with v
         end.
  all: cbn [negb].
  all: repeat match goal with
         | |- context [strict_eq_str ?a ?b] =>
             let v := eval vm_compute in (strict_eq_str a b) in
             change (strict_eq_str a b) with v
         end.
  all: cbn [andb]; run.
  all: eexists; split; [reflexivity |].
  all: unfold size_classes_in_step, body_has.
  all: cbn [app document body set_body on_document on_app set_textSize set_highContrast
            highContrast textSize].
  all: repeat match goal with
         | |- context [strict_eq_str ?a ?b] =>
             let v := eval vm_compute in (strict_eq_str a b) in
             change (strict_eq_str a b) with v
         end.
  all: repeat first
         [ rewrite contains_add
         | rewrite (contains_add_other _ _ _ N1)
         | rewrite (contains_add_other _ _ _ N2)
         | rewrite (contains_add_other _ _ _ N3)
         | rewrite (contains_add_other _ _ _ N4)
         | rewrite (contains_add_other _ _ _ N5)
         | rewrite (contains_add_other _ _ _ N6)
         | rewrite (contains_add_other _ _ _ N7)
         | rewrite (contains_add_other _ _ _ N8)
         | rewrite (contains_add_other _ _ _ N9) ].
  all: rewrite ?Hhc, ?Hlg, ?Hxl.
  all: repeat split; reflexivity.
Qed.

End ContrastAndReload.
(** ** AccessibilityFilters: what the handlers do to the filter state *)

Section FilterTail.

Import Value AccessibilityFilters.

(** The tail shared by the handlers: saving and announcing return
    normally and touch neither the filters object nor the buttons and
    checkboxes. *)
Lemma save_announce (w : World) (message : jsstring) :
  exists w',
    (saveFilters ≫= (fun _ => announce message)) w = (Ok tt, w')
    /\ filtersObj w' = filtersObj w
    /\ filter_buttons (document w') = filter_buttons (document w)
    /\ type_filters (document w') = type_filters (document w)
    /\ filter_status_announcer (document w') = Some message.
Proof.
  rewrite bind_run, saveFilters_run. cbv zeta.
  destruct w as [pl [bd an up fb tf fs nc sr ld] ap fo mo].
  destruct (Storage.setItem _ _ _) as [st | e]; unfold announce; run;
    eexists; (split; [reflexivity |]); repeat split; reflexivity.
Qed.

End FilterTail.

(** Steps over [applyFilters], [saveFilters] and the announcement at the
    end of a handler. *)
Ltac handler_tail w' Hrun Hfo Hfb Htf Han :=
  match goal with
  | |- context [AccessibilityFilters.applyFilters ?w1] =>
      let w2 := fresh "w" in
      let Happly := fresh "Happly" in
      let Hview := fresh "Hview" in
      let Hfo1 := fresh "Hfo" in
      let Hfb1 := fresh "Hfb" in
      let Htf1 := fresh "Htf" in
      destruct (applyFilters_frame w1) as (w2 & Happly & Hview);
      [ cbn [filtersObj set_filters on_filtersObj filters set_type_filters
             set_filter_buttons on_document];
        try match goal with
            | H : filters _ = filter_state _ _ _ _ _ |- _ => rewrite H
            end;
        repeat eexists
      | rewrite Happly; unfold view in Hview; injection Hview as Hfo1 Hfb1 Htf1 _;
        match goal with
        | |- context [(AccessibilityFilters.saveFilters
                        ≫= (fun _ => AccessibilityFilters.announce ?message)) w2] =>
            destruct (save_announce w2 message) as (w' & Hrun & Hfo & Hfb & Htf & Han);
            rewrite Hfo1 in Hfo; rewrite Hfb1 in Hfb; rewrite Htf1 in Htf;
            rewrite Hrun
        end ]
  end.

Section FilterHandlers.

Import Value AccessibilityFilters.

Lemma set_flag (a b c d : bool) (types : list jsstring) (k : jsstring) (x : bool) :
  k ∈ filter_names ->
  set (filter_state a b c d types) k (Bool x)
  = Ok (filter_state
          (if bool_decide (k = js "wheelchair") then x else a)
          (if bool_decide (k = js "visual") then x else b)
          (if bool_decide (k = js "hearing") then x else c)
          (if bool_decide (k = js "cognitive") then x else d)
          types).
Proof.
  unfold filter_names. intros Hk.
  repeat (apply elem_of_cons in Hk as [-> | Hk]; [reflexivity |]).
  apply elem_of_nil in Hk. destruct Hk.
Qed.

(** [X9] One call of the method [toggleFilterButton] on a filter
    button: the button changes sides, and the flag its [data-filter]
    names is set to the button's new state (not to the negation of the
    flag); the other flags and the location types stay as they are.  The
    statement is about the call of the method alone, not about a click:
    the page registers a click listener of its own on the filter
    buttons, which is not part of the method. *)
Theorem toggleFilterButton_spec
    (w : World) (i : nat) (button : FilterButton) (k : jsstring)
    (a b c d : bool) (types : list jsstring) :
  filters (filtersObj w) = filter_state a b c d types ->
  filter_buttons (document w) !! i = Some button ->
  fb_filter button = Some k ->
  k ∈ filter_names ->
  let on := negb (fb_active button) in
  exists w',
    toggleFilterButton i w = (Ok tt, w')
    /\ filters (filtersObj w')
       = filter_state
           (if bool_decide (k = js "wheelchair") then on else a)
           (if bool_decide (k = js "visual") then on else b)
           (if bool_decide (k = js "hearing") then on else c)
           (if bool_decide (k = js "cognitive") then on else d)
           types
    /\ filter_buttons (document w')
       = <[i := set_active button on]> (filter_buttons (document w)).
Proof.
  intros Hf Hb Hk Hin on.
  unfold toggleFilterButton, the_button. run. rewrite Hb. run.
  unfold update_button. run.
  unfold filters_set at 1, this_filters. run.
  rewrite Hk. cbn [attr_value toString].
  destruct w as [pl [bd an up fb tf fs nc sr ld] ap fo mo].
  cbn [filtersObj set_filter_buttons on_document document filter_buttons] in *.
  rewrite Hf, (set_flag _ _ _ _ _ _ _ Hin). run.
  unfold announceFilterChange.
  handler_tail w' Hrun Hfo Hfb Htf Han.
  exists w'. split; [reflexivity |].
  rewrite Hfo, Hfb. split; reflexivity.
Qed.

Lemma includes_strings (types : list jsstring) (t : jsstring) :
  existsb (same_value_zero (Str t)) (Str <$> types) = bool_decide (t ∈ types).
Proof.
  induction types as [| s types IH]; [reflexivity |].
  cbn [fmap list_fmap existsb same_value_zero]. rewrite IH.
  destruct (decide (t = s)) as [-> | Hne].
  - rewrite (bool_decide_eq_true_2 (s = s)) by reflexivity.
    rewrite (bool_decide_eq_true_2 (s ∈ s :: types)) by apply list_elem_of_here.
    reflexivity.
  - rewrite (bool_decide_eq_false_2 (t = s)) by exact Hne. cbn [orb].
    apply bool_decide_ext. rewrite elem_of_cons. tauto.
Qed.

(** The location types after a change of the checkbox of type [t]. *)
Definition types_after (checked : bool) (t : jsstring) (types : list jsstring)
  : list jsstring :=
  if checked then (if bool_decide (t ∈ types) then types else types ++ [t])
  else List.filter (fun s => negb (bool_decide (s = t))) types.

Lemma types_after_spec (checked : bool) (t : jsstring) (types : list jsstring) :
  (t ∈ types_after checked t types <-> checked = true)
  /\ (forall u, u <> t -> (u ∈ types_after checked t types <-> u ∈ types))
  /\ (NoDup types -> NoDup (types_after checked t types)).
Proof.
  unfold types_after. destruct checked.
  - destruct (decide (t ∈ types)) as [Hin | Hnot].
    + rewrite (bool_decide_eq_true_2 _ Hin).
      split; [tauto |]. split; [tauto | auto].
    + rewrite (bool_decide_eq_false_2 _ Hnot).
      split; [| split].
      * rewrite elem_of_app, list_elem_of_singleton. tauto.
      * intros u Hu. rewrite elem_of_app, list_elem_of_singleton. tauto.
      * intros Hnd. apply NoDup_app. split; [exact Hnd |].
        split; [| apply NoDup_singleton].
        intros x Hx Hx'. apply list_elem_of_singleton in Hx'. subst. auto.
  - assert (forall u, u ∈ List.filter (fun s => negb (bool_decide (s = t))) types
                      <-> u <> t /\ u ∈ types) as Hfilter.
    { intros u. rewrite !list_elem_of_In, filter_In, negb_true_iff, bool_decide_eq_false.
      tauto. }
    split; [| split].
    + rewrite Hfilter. split; [tauto | discriminate].
    + intros u Hu. rewrite Hfilter. tauto.
    + intros Hnd. apply NoDup_ListNoDup. apply List.NoDup_filter.
      apply NoDup_ListNoDup. exact Hnd.
Qed.

(** [X10] A change of a type checkbox: when it is checked its type is
    among the location types afterwards, added at the end unless it was
    there; when it is unchecked every occurrence of the type is removed.
    The other types and the four flags stay, and a list without repetition
    stays one. *)
Theorem toggleTypeFilter_spec
    (w : World) (i : nat) (checkbox : TypeFilter) (t : jsstring)
    (a b c d : bool) (types : list jsstring) :
  filters (filtersObj w) = filter_state a b c d types ->
  type_filters (document w) !! i = Some checkbox ->
  tf_type checkbox = Some t ->
  exists w' types',
    toggleTypeFilter i w = (Ok tt, w')
    /\ filters (filtersObj w') = filter_state a b c d types'
    /\ (t ∈ types' <-> tf_checked checkbox = true)
    /\ (forall u, u <> t -> (u ∈ types' <-> u ∈ types))
    /\ (NoDup types -> NoDup types').
Proof.
  intros Hf Hc Ht.
  assert (exists w',
             toggleTypeFilter i w = (Ok tt, w')
             /\ filters (filtersObj w')
                = filter_state a b c d (types_after (tf_checked checkbox) t types))
    as (w' & Hrun & Hf').
  { unfold toggleTypeFilter, the_checkbox. run. rewrite Hc. run.
    unfold update_checkbox. run.
    unfold filters_get at 1, this_filters. run.
    rewrite Ht. cbn [attr_value].
    destruct w as [pl [bd an up fb tf fs nc sr ld] ap fo mo].
    cbn [filtersObj set_type_filters on_document document type_filters] in *.
    rewrite Hf. change (get (filter_state a b c d types) (js "locationTypes"))
      with (Ok (Array (Str <$> types)) : outcome value).
    run. unfold types_after.
    destruct (tf_checked checkbox); unfold includes, push, filter_ne; run.
    - rewrite includes_strings. destruct (bool_decide (t ∈ types)); run.
      + unfold announceTypeFilterChange. handler_tail w' Hrun Hfo Hfb Htf Han.
        exists w'. split; [reflexivity |]. rewrite Hfo. exact Hf.
      + unfold filters_set, this_filters. run. cbn [filtersObj set_type_filters on_document]. rewrite Hf.
        change [Str t] with (Str <$> [t]). rewrite <- fmap_app, set_location_types. run.
        unfold announceTypeFilterChange. handler_tail w' Hrun Hfo Hfb Htf Han.
        exists w'. split; [reflexivity |]. rewrite Hfo. reflexivity.
    - rewrite filter_ne_strings.
      unfold filters_set, this_filters. run. cbn [filtersObj set_type_filters on_document]. rewrite Hf.
      rewrite set_location_types. run.
      unfold announceTypeFilterChange. handler_tail w' Hrun Hfo Hfb Htf Han.
      exists w'. split; [reflexivity |]. rewrite Hfo. reflexivity. }
  exists w', (types_after (tf_checked checkbox) t types).
  split; [exact Hrun |]. split; [exact Hf' |].
  apply types_after_spec.
Qed.

End FilterHandlers.
(** ** Loops over the elements of the page *)

Section ElementLoops.

Context {A : Type}.
Variable elements : World -> list A.
Variable put : list A -> World -> World.
Hypothesis put_same : forall w, put (elements w) w = w.
Hypothesis put_put : forall l l' w, put l' (put l w) = put l' w.
Hypothesis elements_put : forall l w, elements (put l w) = l.

Variable P : World -> Prop.
Variable body : nat -> A -> JS unit.
Variable f : A -> A.
Hypothesis P_put :
  forall i x w, P w -> elements w !! i = Some x ->
    P (put (<[i := f x]> (elements w)) w).
Hypothesis body_updates :
  forall i x w, P w -> elements w !! i = Some x ->
    body i x w = (Ok tt, put (<[i := f x]> (elements w)) w).

(** The loop [querySelectorAll(...).forEach(body)] from the element of
    index [length done] on, when the body replaces each element [x] by
    [f x]. *)
Lemma forEach_elements_from (todo done : list A) (w : World) :
  P w -> elements w = done ++ todo ->
  Eff.forEach (seq (List.length done) (List.length todo))
    (fun i =>
       e ← Eff.gets (fun w => elements w !! i);
       match e with
       | None => mret tt
       | Some x => body i x
       end) w
  = (Ok tt, put (done ++ (f <$> todo)) w).
Proof.
  revert done w. induction todo as [| x todo IH]; intros done w HP Hw.
  - cbn [List.length seq Eff.forEach fmap list_fmap]. rewrite <- Hw, put_same.
    reflexivity.
  - cbn [List.length seq Eff.forEach]. unfold Eff.bind at 1.
    rewrite bind_run. unfold Eff.gets at 1.
    assert (elements w !! List.length done = Some x) as Hx.
    { rewrite Hw. apply list_lookup_middle. reflexivity. }
    rewrite Hx, (body_updates _ _ _ HP Hx).
    pose proof (P_put _ _ _ HP Hx) as HP'.
    assert (<[List.length done := f x]> (elements w) = (done ++ [f x]) ++ todo) as Hins.
    { rewrite Hw, insert_app_r_alt, Nat.sub_diag by lia.
      rewrite <- app_assoc. reflexivity. }
    rewrite Hins in HP' |- *.
    replace (S (List.length done)) with (List.length (done ++ [f x]))
      by (rewrite length_app; cbn; lia).
    rewrite IH; [| exact HP' | apply elements_put].
    rewrite put_put, <- app_assoc. reflexivity.
Qed.

Lemma forEach_elements (w : World) :
  P w ->
  (n ← Eff.gets (fun w => List.length (elements w));
   Eff.forEach (seq 0 n)
     (fun i =>
        e ← Eff.gets (fun w => elements w !! i);
        match e with
        | None => mret tt
        | Some x => body i x
        end)) w
  = (Ok tt, put (f <$> elements w) w).
Proof.
  intros HP. rewrite bind_run. unfold Eff.gets at 1.
  exact (forEach_elements_from (elements w) [] w HP eq_refl).
Qed.

End ElementLoops.

Section FilterLoops.

Import Value AccessibilityFilters.

Lemma set_filter_buttons_same (w : World) :
  set_filter_buttons (filter_buttons (document w)) w = w.
Proof. destruct w as [pl [bd an up fb tf fs nc sr ld] ap fo mo]. reflexivity. Qed.

Lemma set_filter_buttons_twice (l l' : list FilterButton) (w : World) :
  set_filter_buttons l' (set_filter_buttons l w) = set_filter_buttons l' w.
Proof. destruct w as [pl [bd an up fb tf fs nc sr ld] ap fo mo]. reflexivity. Qed.

Lemma filter_buttons_set (l : list FilterButton) (w : World) :
  filter_buttons (document (set_filter_buttons l w)) = l.
Proof. destruct w as [pl [bd an up fb tf fs nc sr ld] ap fo mo]. reflexivity. Qed.

Lemma set_type_filters_same (w : World) :
  set_type_filters (type_filters (document w)) w = w.
Proof. destruct w as [pl [bd an up fb tf fs nc sr ld] ap fo mo]. reflexivity. Qed.

Lemma set_type_filters_twice (l l' : list TypeFilter) (w : World) :
  set_type_filters l' (set_type_filters l w) = set_type_filters l' w.
Proof. destruct w as [pl [bd an up fb tf fs nc sr ld] ap fo mo]. reflexivity. Qed.

Lemma type_filters_set (l : list TypeFilter) (w : World) :
  type_filters (document (set_type_filters l w)) = l.
Proof. destruct w as [pl [bd an up fb tf fs nc sr ld] ap fo mo]. reflexivity. Qed.

(** A loop over the filter buttons whose body replaces each button
    [b] by [f b], in worlds satisfying [P]. *)
Lemma forEach_button_map (P : World -> Prop)
    (body : nat -> FilterButton -> JS unit) (f : FilterButton -> FilterButton)
    (w : World) :
  (forall i b w, P w -> filter_buttons (document w) !! i = Some b ->
     P (set_filter_buttons (<[i := f b]> (filter_buttons (document w))) w)) ->
  (forall i b w, P w -> filter_buttons (document w) !! i = Some b ->
     body i b w
     = (Ok tt, set_filter_buttons (<[i := f b]> (filter_buttons (document w))) w)) ->
  P w ->
  forEach_button body w
  = (Ok tt, set_filter_buttons (f <$> filter_buttons (document w)) w).
Proof.
  intros Hput Hbody HP. unfold forEach_button.
  exact (forEach_elements (fun w => filter_buttons (document w)) set_filter_buttons
           set_filter_buttons_same set_filter_buttons_twice filter_buttons_set
           P body f Hput Hbody w HP).
Qed.

Lemma forEach_checkbox_map (P : World -> Prop)
    (body : nat -> TypeFilter -> JS unit) (f : TypeFilter -> TypeFilter)
    (w : World) :
  (forall i c w, P w -> type_filters (document w) !! i = Some c ->
     P (set_type_filters (<[i := f c]> (type_filters (document w))) w)) ->
  (forall i c w, P w -> type_filters (document w) !! i = Some c ->
     body i c w
     = (Ok tt, set_type_filters (<[i := f c]> (type_filters (document w))) w)) ->
  P w ->
  forEach_checkbox body w
  = (Ok tt, set_type_filters (f <$> type_filters (document w)) w).
Proof.
  intros Hput Hbody HP. unfold forEach_checkbox.
  exact (forEach_elements (fun w => type_filters (document w)) set_type_filters
           set_type_filters_same set_type_filters_twice type_filters_set
           P body f Hput Hbody w HP).
Qed.

(** [X11] [resetFilters] always returns normally; afterwards the filters
    are the default ones, every filter button is inactive with
    [aria-pressed] false, every type checkbox is unchecked with an inactive
    label, the data attributes of the elements are as before, and the reset
    has been announced. *)
Theorem resetFilters_clears_page (w : World) :
  exists w',
    resetFilters w = (Ok tt, w')
    /\ filters (filtersObj w') = default_filters
    /\ filter_buttons (document w')
       = (fun button => set_active button false) <$> filter_buttons (document w)
    /\ type_filters (document w')
       = (fun checkbox => set_label (set_checked checkbox false) false)
         <$> type_filters (document w)
    /\ filter_status_announcer (document w')
       = Some (js "All filters have been reset").
Proof.
  unfold resetFilters. rewrite bind_run. unfold Eff.modify at 1.
  rewrite bind_run.
  rewrite (forEach_button_map (fun _ => True) _ (fun button => set_active button false));
    [| auto | intros; reflexivity | exact I].
  rewrite bind_run.
  rewrite (forEach_checkbox_map (fun _ => True) _
             (fun checkbox => set_label (set_checked checkbox false) false));
    [| auto | intros; reflexivity | exact I].
  destruct w as [pl [bd an up fb tf fs nc sr ld] ap fo mo].
  cbn [document filter_buttons type_filters set_filters on_filtersObj set_filter_buttons
       set_type_filters on_document].
  rewrite bind_run.
  unfold announceReset.
  handler_tail w' Hrun Hfo Hfb Htf Han.
  { rewrite default_filters_state. repeat eexists. }
  exists w'. split; [reflexivity |].
  rewrite Hfo, Hfb, Htf, Han. repeat split; reflexivity.
Qed.

(** Whether the filter a button names is on in a filter object. *)
Definition filter_is_on (f : value) (button : FilterButton) : bool :=
  match get f (toString (attr_value (fb_filter button))) with
  | Ok v => truthy v
  | Throw _ => false
  end.

(** Every filter button that has a [data-filter] attribute names one of
    the four filters with it, so that the loop over the buttons reads
    properties of the filter state itself and none it inherits. *)
Definition buttons_name_filters (w : World) : Prop :=
  Forall (fun button => forall k, fb_filter button = Some k -> k ∈ filter_names)
    (filter_buttons (document w)).

(** The buttons after the loop that marks the buttons of the filters
    that are on. *)
Definition marked (f : value) (buttons : list FilterButton) : list FilterButton :=
  (fun button => if filter_is_on f button then set_active button true else button)
  <$> buttons.

Lemma mark_active_buttons_run (w : World) (props : list (jsstring * value)) :
  filters (filtersObj w) = Object props ->
  mark_active_buttons w
  = (Ok tt, set_filter_buttons (marked (Object props) (filter_buttons (document w))) w).
Proof.
  intros Hf. unfold mark_active_buttons, marked.
  apply (forEach_button_map (fun w => filters (filtersObj w) = Object props)).
  - intros i button w0 H _.
    destruct w0 as [pl [bd an up fb tf fs nc sr ld] ap fo mo]. exact H.
  - intros i button w0 H Hi. unfold filters_get, this_filters. run.
    unfold filter_is_on. rewrite H. cbn [get]. run.
    destruct (truthy _).
    + reflexivity.
    + rewrite list_insert_id by exact Hi. rewrite set_filter_buttons_same. reflexivity.
  - exact Hf.
Qed.

(** [X12] [setFromUserPreferences] on a page whose filter buttons name
    the four filters only switches filters on: each of the four flags is
    afterwards what it was or true when the user needs the assistance,
    the location types stay, every button whose filter is now on is
    marked active, and no button is unmarked.  Without preferences
    nothing happens at all. *)
Theorem setFromUserPreferences_spec
    (w : World) (preferences : list (jsstring * value))
    (a b c d : bool) (types : list jsstring) :
  filters (filtersObj w) = filter_state a b c d types ->
  buttons_name_filters w ->
  let state :=
    filter_state (a || holds preferences "needs_wheelchair")
                 (b || holds preferences "needs_visual_assistance")
                 (c || holds preferences "needs_hearing_assistance")
                 (d || holds preferences "needs_cognitive_assistance") types in
  (exists w',
      setFromUserPreferences (Object preferences) w = (Ok tt, w')
      /\ filters (filtersObj w') = state
      /\ filter_buttons (document w') = marked state (filter_buttons (document w)))
  /\ (forall nothing, truthy nothing = false ->
        setFromUserPreferences nothing w = (Ok tt, w)).
Proof.
  intros Hf _ state. split.
  - unfold setFromUserPreferences. cbn [not truthy negb].
    destruct w as [pl [bd an up fb tf fs nc sr ld] ap [fl key hm] mo].
    cbn [filtersObj filters document filter_buttons] in *. subst fl.
    unfold filters_set, this_filters. subst state. unfold holds.
    run. cbn [get filtersObj filters].
    destruct (truthy (default Undefined (assoc (js "needs_wheelchair") preferences)));
      run; cbn [filtersObj filters set_filters on_filtersObj];
      rewrite ?set_flag by (unfold filter_names; set_solver); run;
      cbn [filtersObj filters set_filters on_filtersObj];
    (destruct (truthy (default Undefined
                         (assoc (js "needs_visual_assistance") preferences)));
      run; cbn [filtersObj filters set_filters on_filtersObj];
      rewrite ?set_flag by (unfold filter_names; set_solver); run;
      cbn [filtersObj filters set_filters on_filtersObj]);
    (destruct (truthy (default Undefined
                         (assoc (js "needs_hearing_assistance") preferences)));
      run; cbn [filtersObj filters set_filters on_filtersObj];
      rewrite ?set_flag by (unfold filter_names; set_solver); run;
      cbn [filtersObj filters set_filters on_filtersObj]);
    (destruct (truthy (default Undefined
                         (assoc (js "needs_cognitive_assistance") preferences)));
      run; cbn [filtersObj filters set_filters on_filtersObj];
      rewrite ?set_flag by (unfold filter_names; set_solver); run;
      cbn [filtersObj filters set_filters on_filtersObj]).
    all: repeat match goal with
           | |- context [bool_decide (?x = ?y)] =>
               let v := eval vm_compute in (bool_decide (x = y)) in
               change (bool_decide (x = y)) with v
           end.
    all: cbv iota; rewrite ?orb_true_r, ?orb_false_r.
    all: match goal with
         | |- context [mark_active_buttons ?w1] =>
             rewrite (mark_active_buttons_run w1 _ eq_refl)
         end.
    all: cbn [document filter_buttons set_filter_buttons on_document set_filters
              on_filtersObj filtersObj filters].
    all: rewrite bind_run.
    all: match goal with
         | |- context [applyFilters ?w1] =>
             let w2 := fresh "w" in
             destruct (applyFilters_frame w1) as (w2 & Happly & Hview);
             [ cbn [filtersObj filters]; repeat eexists
             | rewrite Happly; unfold view in Hview;
               injection Hview as Hfo Hfb _ _; rewrite saveFilters_run; cbv zeta;
               destruct w2 as [pl2 [bd2 an2 up2 fb2 tf2 fs2 nc2 sr2 ld2] ap2 fo2 mo2];
               cbn [filtersObj document filter_buttons] in Hfo, Hfb; subst fo2 fb2;
               destruct (Storage.setItem _ _ _);
               eexists; (split; [reflexivity |]); split; reflexivity ]
         end.
  - intros nothing Hn. unfold setFromUserPreferences, not. rewrite Hn. reflexivity.
Qed.

End FilterLoops.
Section FiltersReload.

Import Value AccessibilityFilters.

(** Whether the type a checkbox names is among the location types. *)
Definition type_selected (types : list jsstring) (checkbox : TypeFilter) : bool :=
  match tf_type checkbox with
  | Some t => bool_decide (t ∈ types)
  | None => false
  end.

(** The checkboxes after the loop of [initFilters] that checks the
    boxes of the selected types. *)
Definition checked_boxes (types : list jsstring) (checkboxes : list TypeFilter)
  : list TypeFilter :=
  (fun checkbox =>
     if type_selected types checkbox
     then set_label (set_checked checkbox true) true else checkbox)
  <$> checkboxes.

Lemma includes_undefined (types : list jsstring) :
  existsb (same_value_zero Undefined) (Str <$> types) = false.
Proof. induction types as [| s types IH]; [reflexivity | exact IH]. Qed.

Lemma initFilters_checkboxes (w : World) (a b c d : bool) (types : list jsstring) :
  filters (filtersObj w) = filter_state a b c d types ->
  Forall (fun checkbox => is_Some (tf_label checkbox)) (type_filters (document w)) ->
  forEach_checkbox (fun i checkbox =>
    let locationType := attr_value (tf_type checkbox) in
    locationTypes ← filters_get (js "locationTypes");
    present ← Eff.lift (includes locationTypes locationType);
    if present : bool then
      update_checkbox i (set_checked checkbox true);;
      match tf_label checkbox with
      | Some _ => update_checkbox i (set_label (set_checked checkbox true) true)
      | None =>
          Eff.throw (TypeError "cannot read properties of undefined or null")
      end
    else mret tt) w
  = (Ok tt, set_type_filters (checked_boxes types (type_filters (document w))) w).
Proof.
  intros Hf Hlabels. unfold checked_boxes.
  apply (forEach_checkbox_map
           (fun w => filters (filtersObj w) = filter_state a b c d types
                     /\ Forall (fun checkbox => is_Some (tf_label checkbox))
                          (type_filters (document w)))).
  - intros i checkbox w0 [H Hl] Hi. rewrite type_filters_set. split.
    + destruct w0 as [pl [bd an up fb tf fs nc sr ld] ap fo mo]. exact H.
    + apply Forall_insert; [exact Hl |].
      pose proof (proj1 (Forall_lookup _ _) Hl i checkbox Hi) as [l Hsome].
      destruct (type_selected types checkbox); [| eauto].
      cbn [set_label set_checked tf_label]. rewrite Hsome. eauto.
  - intros i checkbox w0 [H Hl] Hi. cbv zeta.
    pose proof (proj1 (Forall_lookup _ _) Hl i checkbox Hi) as [l Hsome].
    unfold filters_get, this_filters. run. rewrite H.
    change (get (filter_state a b c d types) (js "locationTypes"))
      with (Ok (Array (Str <$> types)) : outcome value).
    run. unfold includes, type_selected. run.
    destruct (tf_type checkbox) as [t |]; cbn [attr_value].
    + rewrite includes_strings. destruct (bool_decide (t ∈ types)).
      * unfold update_checkbox. run. rewrite Hsome. run.
        rewrite type_filters_set, list_insert_insert_eq, set_type_filters_twice.
        reflexivity.
      * run. rewrite list_insert_id by exact Hi. rewrite set_type_filters_same.
        reflexivity.
    + rewrite includes_undefined. run.
      rewrite list_insert_id by exact Hi. rewrite set_type_filters_same. reflexivity.
  - split; assumption.
Qed.

(** [X13] Constructing the filters on a page whose storage holds a
    saved filter state, whose filter buttons name the four filters and
    whose type checkboxes all sit in a label: the constructor returns
    normally with the saved state in
    [this.filters], the buttons of the filters that are on marked active,
    and the checkboxes of the selected types checked; nothing else on the
    buttons and checkboxes changes. *)
Theorem constructor_restores_saved_filters
    (w : World) (key : jsstring) (map : bool)
    (a b c d : bool) (types : list jsstring) :
  let state := filter_state a b c d types in
  Storage.getItem key (localStorage (platform w)) = Ok (JSON.stringify state) ->
  buttons_name_filters w ->
  Forall (fun checkbox => is_Some (tf_label checkbox)) (type_filters (document w)) ->
  exists w',
    AccessibilityFilters.constructor key map w = (Ok tt, w')
    /\ filters (filtersObj w') = state
    /\ filter_buttons (document w') = marked state (filter_buttons (document w))
    /\ type_filters (document w') = checked_boxes types (type_filters (document w)).
Proof.
  intros state Hget _ Hlabels. subst state.
  destruct (filter_state_reads_back a b c d types) as (text & Htext & Hne & Hparse).
  rewrite Htext in Hget.
  unfold AccessibilityFilters.constructor, initFilters.
  match goal with
  | |- context [forEach_checkbox ?body] => set (loop := forEach_checkbox body)
  end.
  rewrite bind_run. unfold Eff.modify at 1.
  destruct w as [pl [bd an up fb tf fs nc sr ld] ap fo mo].
  cbn [on_filtersObj platform document filtersObj mapObj app type_filters
       filter_buttons localStorage] in *.
  rewrite bind_run.
  rewrite (loadSavedFilters_stored _ text (filter_state a b c d types));
    [| exact Hget | exact Hne | exact Hparse].
  cbn [set_filters on_filtersObj platform document filtersObj mapObj app filters
       storageKey has_map].
  rewrite bind_run.
  match goal with
  | |- context [mark_active_buttons ?w1] =>
      rewrite (mark_active_buttons_run w1 _ eq_refl)
  end.
  cbn [set_filter_buttons on_document platform document filtersObj mapObj app
       filter_buttons].
  rewrite bind_run.
  match goal with
  | |- context [loop ?w1] =>
      rewrite (initFilters_checkboxes w1 a b c d types eq_refl Hlabels
               : loop w1 = _)
  end.
  cbn [set_type_filters on_document platform document filtersObj mapObj app
       type_filters].
  rewrite bind_run.
  match goal with
  | |- context [hasActiveFilters ?w1] =>
      rewrite (hasActiveFilters_run w1 a b c d types (filter_state_has_filters _ _ _ _ _))
  end.
  cbn [truthy].
  destruct (a || b || c || d || negb (bool_decide (types = []))).
  - match goal with
    | |- context [applyFilters ?w1] =>
        destruct (applyFilters_frame w1) as (w2 & Happly & Hview);
        [ cbn [filtersObj filters]; repeat eexists | ]
    end.
    rewrite Happly. unfold view in Hview. injection Hview as Hfo Hfb Htf _.
    exists w2. split; [reflexivity |]. rewrite Hfo, Hfb, Htf.
    repeat split; reflexivity.
  - eexists. split; [reflexivity |]. repeat split; reflexivity.
Qed.

End FiltersReload.
(** ** AccessibilityMap: stars, markers and requests *)

Section Stars.

Import AccessibilityMap.

(** Closes a goal whose hypotheses order a positive number against
    constants in an impossible way. *)
Ltac pos_contra :=
  exfalso; subst;
  match goal with
  | H : @eq positive _ _ |- _ => discriminate H
  | H1 : (?a < ?m)%positive, H2 : (?m < ?b)%positive |- _ =>
      is_var m;
      let H3 := fresh in
      pose proof (Pos.lt_trans _ _ _ H1 H2) as H3;
      vm_compute in H3; discriminate H3
  | H : (?a < ?b)%positive |- _ =>
      tryif is_var a then fail
      else tryif is_var b then fail
      else (vm_compute in H; discriminate H)
  end.

(** [X14] The stars [generateStarRating] draws are filled from the left:
    for every rating, whatever value the server sent, some number of
    filled stars is followed by empty ones, five in all. *)
Theorem generateStarRating_filled_prefix (rating : value) :
  exists filled : nat,
    (filled <= 5)%nat
    /\ generateStarRating rating
       = replicate filled true ++ replicate (5 - filled) false.
Proof.
  unfold generateStarRating. generalize (Value.toNumber rating) as x. intros x.
  cbn [map]. unfold Number.le, SFleb.
  replace (Number.of_Z 1) with (S754_finite false 4503599627370496 (-52))
    by (vm_compute; reflexivity).
  replace (Number.of_Z 2) with (S754_finite false 4503599627370496 (-51))
    by (vm_compute; reflexivity).
  replace (Number.of_Z 3) with (S754_finite false 6755399441055744 (-51))
    by (vm_compute; reflexivity).
  replace (Number.of_Z 4) with (S754_finite false 4503599627370496 (-50))
    by (vm_compute; reflexivity).
  replace (Number.of_Z 5) with (S754_finite false 5629499534213120 (-50))
    by (vm_compute; reflexivity).
  destruct x as [s | s | | s m e]; cbn [SFcompare].
  - exists 0%nat. split; [lia | reflexivity].
  - destruct s; [exists 0%nat | exists 5%nat]; (split; [lia | reflexivity]).
  - exists 0%nat. split; [lia | reflexivity].
  - destruct s; [exists 0%nat; split; [lia | reflexivity] |].
    repeat match goal with
      | |- context [Pos.compare_cont Eq ?a ?b] =>
          change (Pos.compare_cont Eq a b) with (Pos.compare a b)
      end.
    assert (e < -52 \/ e = -52 \/ e = -51 \/ e = -50 \/ -50 < e) as He by lia.
    destruct He as [He | [-> | [-> | [-> | He]]]].
    + rewrite (proj2 (Z.compare_gt_iff (-52) e)), (proj2 (Z.compare_gt_iff (-51) e)),
        (proj2 (Z.compare_gt_iff (-50) e)) by lia.
      exists 0%nat. split; [lia | reflexivity].
    + cbn [Z.compare Pos.compare Pos.compare_cont CompOpp].
      destruct (4503599627370496 ?= m)%positive;
        [exists 1%nat | exists 1%nat | exists 0%nat]; (split; [lia | reflexivity]).
    + cbn [Z.compare Pos.compare Pos.compare_cont CompOpp].
      destruct (Pos.compare_spec 4503599627370496 m);
        destruct (Pos.compare_spec 6755399441055744 m);
        first [ exists 1%nat; split; [repeat constructor | reflexivity]
              | exists 2%nat; split; [repeat constructor | reflexivity]
              | exists 3%nat; split; [repeat constructor | reflexivity]
              | pos_contra ].
    + cbn [Z.compare Pos.compare Pos.compare_cont CompOpp].
      destruct (Pos.compare_spec 4503599627370496 m);
        destruct (Pos.compare_spec 5629499534213120 m);
        first [ exists 3%nat; split; [repeat constructor | reflexivity]
              | exists 4%nat; split; [repeat constructor | reflexivity]
              | exists 5%nat; split; [repeat constructor | reflexivity]
              | pos_contra ].
    + rewrite (proj2 (Z.compare_lt_iff (-52) e)), (proj2 (Z.compare_lt_iff (-51) e)),
        (proj2 (Z.compare_lt_iff (-50) e)) by lia.
      exists 5%nat. split; [lia | reflexivity].
Qed.

End Stars.
Section Markers.

Import Value AccessibilityMap.

(** The record has a latitude and a longitude that are numbers. *)
Definition has_position (props : list (jsstring * value)) : Prop :=
  exists lat lng,
    assoc (js "lat") props = Some (Num lat)
    /\ assoc (js "lng") props = Some (Num lng)
    /\ Number.isNaN lat = false
    /\ Number.isNaN lng = false.

Lemma createLocationMarker_returns (props : list (jsstring * value)) :
  has_position props ->
  exists marker, createLocationMarker (Object props) = Ok marker.
Proof.
  intros (lat & lng & Hlat & Hlng & Nlat & Nlng).
  unfold createLocationMarker, getMarkerIconClass, createPopupContent, prop.
  cbn [get]. rewrite Hlat, Hlng.
  cbv beta iota delta [outcome_mbind outcome_bind mbind from_option id is_coordinate].
  rewrite Nlat, Nlng. eexists. reflexivity.
Qed.

(** The markers among [tagged] whose location is, or is not, approved. *)
Definition markers_where (approved : bool)
    (tagged : list (list (jsstring * value) * Marker)) : list Marker :=
  snd <$> List.filter (fun pm => eqb (holds (fst pm) "is_approved") approved) tagged.

(** [X15] [addMarkersToMap] on an array of location records whose
    [lat] and [lng] are numbers other than NaN: every location gets one
    marker, the one [createLocationMarker] builds; the markers of the
    approved locations are added to the approved layer and the others to
    the pending layer, in the order of the array, and all of them to
    [this.markers]; what the layers and [this.markers] held before stays
    in front. *)
Theorem addMarkersToMap_sorts_markers
    (w : World) (locations : list (list (jsstring * value))) :
  Forall has_position locations ->
  exists ms w',
    Forall2 (fun props marker => createLocationMarker (Object props) = Ok marker)
      locations ms
    /\ addMarkersToMap (Array (Object <$> locations)) w = (Ok tt, w')
    /\ markers (mapObj w') = markers (mapObj w) ++ ms
    /\ layer_approved (mapObj w')
       = layer_approved (mapObj w) ++ markers_where true (zip locations ms)
    /\ layer_pending (mapObj w')
       = layer_pending (mapObj w) ++ markers_where false (zip locations ms)
    /\ document w' = document w.
Proof.
  unfold addMarkersToMap. rewrite bind_run. unfold Eff.lift at 1. cbn [as_array].
  intros Hpositions. revert w.
  induction Hpositions as [| props locations Hposition _ IH]; intros w.
  - exists [], w. cbn [fmap list_fmap Eff.forEach zip zip_with markers_where List.filter].
    rewrite !app_nil_r. repeat split. constructor.
  - destruct (createLocationMarker_returns props Hposition) as [marker Hm].
    cbn [fmap list_fmap Eff.forEach].
    change (Eff.bind ?m ?k) with (m ≫= k).
    rewrite bind_run. rewrite bind_run. unfold Eff.lift at 1. rewrite Hm.
    rewrite bind_run. unfold Eff.lift at 1, prop at 1. cbn [get].
    rewrite bind_run.
    change (truthy (default Undefined (assoc (js "is_approved") props)))
      with (holds props "is_approved").
    destruct (holds props "is_approved") eqn:Happroved; unfold Eff.modify at 1 2.
    all: match goal with
         | |- context [Eff.forEach _ _ ?w1] =>
             destruct (IH w1) as (ms & w' & HF & Hrun & H1 & H2 & H3 & H4)
         end.
    all: exists (marker :: ms), w'; (split; [constructor; assumption |]).
    all: split; [exact Hrun |].
    all: destruct w as [pl doc ap fo [cf mk la lp]].
    all: cbn [mapObj markers layer_approved layer_pending set_markers set_layer_approved
              set_layer_pending on_mapObj document] in *.
    all: rewrite H1, H2, H3, H4; unfold markers_where.
    all: cbn [zip zip_with List.filter fst]; rewrite Happroved.
    all: cbn [eqb fmap list_fmap snd].
    all: rewrite <- !app_assoc; repeat split; reflexivity.
Qed.

End Markers.
Section SearchRequest.

Import Value AccessibilityMap.

(** A code unit that may stand in a query string as it is, or the
    percent sign of an escape. *)
Definition query_safe (u : N) : Prop := URI.unreserved u = true \/ u = 37%N.

Lemma hex_upper_safe (d : N) : (d < 16)%N -> query_safe (URI.hex_upper d).
Proof.
  intros H. left. unfold URI.hex_upper, URI.unreserved, JSString.is_alnum.
  apply orb_true_iff. left. apply orb_true_iff.
  destruct (d <? 10)%N eqn:E.
  - apply N.ltb_lt in E. right. unfold JSString.is_digit.
    apply andb_true_intro. split; apply N.leb_le; lia.
  - apply N.ltb_ge in E. left. unfold JSString.is_alpha, JSString.is_upper.
    apply orb_true_iff. right.
    apply andb_true_intro. split; apply N.leb_le; lia.
Qed.

Lemma percent_safe (byte : N) : (byte < 256)%N -> Forall query_safe (URI.percent byte).
Proof.
  intros H. unfold URI.percent.
  apply Forall_cons. split; [right; reflexivity |].
  apply Forall_cons. split.
  { apply hex_upper_safe. apply N.Div0.div_lt_upper_bound. lia. }
  apply Forall_cons. split; [| constructor].
  apply hex_upper_safe. apply N.mod_lt. discriminate.
Qed.

Lemma utf8_bytes (cp : N) :
  (cp < 1114112)%N -> Forall (fun byte => (byte < 256)%N) (URI.utf8 cp).
Proof.
  intros H. unfold URI.utf8.
  destruct (cp <? 128)%N eqn:E1; [apply N.ltb_lt in E1; repeat constructor; lia |].
  destruct (cp <? 2048)%N eqn:E2.
  { apply N.ltb_lt in E2. repeat constructor.
    - assert (cp / 64 < 32)%N by (apply N.Div0.div_lt_upper_bound; lia). lia.
    - pose proof (N.mod_lt cp 64). lia. }
  destruct (cp <? 65536)%N eqn:E3.
  { apply N.ltb_lt in E3. repeat constructor.
    - assert (cp / 4096 < 16)%N by (apply N.Div0.div_lt_upper_bound; lia). lia.
    - pose proof (N.mod_lt (cp / 64) 64). lia.
    - pose proof (N.mod_lt cp 64). lia. }
  repeat constructor.
  - assert (cp / 262144 < 5)%N by (apply N.Div0.div_lt_upper_bound; lia). lia.
  - pose proof (N.mod_lt (cp / 4096) 64). lia.
  - pose proof (N.mod_lt (cp / 64) 64). lia.
  - pose proof (N.mod_lt cp 64). lia.
Qed.

Definition code_point_bound (o : option N) : Prop :=
  forall cp, o = Some cp -> (cp < 1114112)%N.

Lemma code_points_bound (n : nat) (s : jsstring) :
  (List.length s <= n)%nat ->
  Forall (fun u => (u < 65536)%N) s ->
  Forall code_point_bound (URI.code_points s).
Proof.
  revert s. induction n as [| n IH]; intros s Hlen Hs.
  - destruct s; [constructor | cbn in Hlen; lia].
  - destruct s as [| c r]; [constructor |].
    cbn [List.length] in Hlen. apply Forall_cons in Hs as [Hc Hr].
    cbn [URI.code_points].
    destruct (JSON.is_high_surrogate c) eqn:Ehigh.
    + destruct r as [| d r'].
      * repeat constructor. intros cp E. discriminate E.
      * destruct (JSON.is_low_surrogate d) eqn:Elow.
        -- apply Forall_cons in Hr as [Hd Hr']. cbn [List.length] in Hlen.
           constructor; [| apply IH; [lia | exact Hr']].
           intros cp E. injection E as <-.
           unfold JSON.is_high_surrogate, JSON.is_low_surrogate in *.
           apply andb_prop in Ehigh as [H1 H2]. apply andb_prop in Elow as [H3 H4].
           apply N.leb_le in H1, H2, H3, H4. lia.
        -- constructor; [intros cp E; discriminate E |].
           apply IH; [lia | exact Hr].
    + destruct (JSON.is_low_surrogate c).
      * constructor; [intros cp E; discriminate E |]. apply IH; [lia | exact Hr].
      * constructor; [intros cp E; injection E as <-; lia |].
        apply IH; [lia | exact Hr].
Qed.

Lemma encode_points_lone_surrogate (cps : list (option N)) :
  None ∈ cps -> URI.encode_points cps = Throw URIError.
Proof.
  induction cps as [| [cp |] cps IH]; intros H.
  - apply elem_of_nil in H. destruct H.
  - apply elem_of_cons in H as [H | H]; [discriminate H |].
    cbn [URI.encode_points]. rewrite (IH H). reflexivity.
  - reflexivity.
Qed.

Lemma encode_points_safe (cps : list (option N)) :
  None ∉ cps -> Forall code_point_bound cps ->
  exists q, URI.encode_points cps = Ok q /\ Forall query_safe q.
Proof.
  induction cps as [| [cp |] cps IH]; intros Hnone Hbound.
  - exists []. split; [reflexivity | constructor].
  - apply not_elem_of_cons in Hnone as [_ Hnone].
    apply Forall_cons in Hbound as [Hcp Hbound].
    destruct (IH Hnone Hbound) as (tail & Htail & Hsafe).
    cbn [URI.encode_points]. rewrite Htail. eexists. split; [reflexivity |].
    apply Forall_app. split; [| exact Hsafe].
    destruct (URI.unreserved cp) eqn:E.
    + apply Forall_cons. split; [left; exact E | constructor].
    + pose proof (utf8_bytes cp (Hcp cp eq_refl)) as Hbytes.
      induction Hbytes as [| byte bytes Hbyte _ IHb]; [constructor |].
      cbn [mbind list_bind]. apply Forall_app. split; [| exact IHb].
      apply percent_safe, Hbyte.
  - exfalso. apply Hnone. apply list_elem_of_here.
Qed.

(** [X16] The request of [searchLocations].  Without a [#search-results]
    element nothing is requested.  With one, a query that is well-formed
    UTF-16 yields exactly one request, for [/api/search?q=] followed by
    what [encodeURIComponent] returns for the query, in which every code
    unit is an unreserved character or belongs to a percent escape, so
    that the query cannot add a second parameter or a fragment; a query
    with a lone surrogate makes [encodeURIComponent] throw [URIError] to
    the caller, and nothing is requested. *)
Theorem searchLocations_request (w : World) (query : jsstring) :
  (search_results (document w) = None -> searchLocations query w = (Ok tt, w))
  /\ (is_Some (search_results (document w)) ->
      Forall (fun u => (u < 65536)%N) query ->
      (None ∉ URI.code_points query ->
         exists q,
           URI.encodeURIComponent query = Ok q
           /\ searchLocations query w
              = (Ok tt,
                 set_requests (requests (platform w) ++ [js "/api/search?q=" ++ q]) w)
           /\ Forall query_safe q)
      /\ (None ∈ URI.code_points query ->
            searchLocations query w = (Throw URIError, w))).
Proof.
  unfold searchLocations. split.
  - intros Hnone. run. rewrite Hnone. reflexivity.
  - intros [sr Hsr] Hunits. run. rewrite Hsr. unfold URI.encodeURIComponent. split.
    + intros Hwf.
      destruct (encode_points_safe _ Hwf (code_points_bound _ _ (le_n _) Hunits))
        as (q & Hq & Hsafe).
      exists q. split; [exact Hq |].
      run. rewrite Hq. unfold fetch. run. split; [reflexivity | exact Hsafe].
    + intros Hlone. run. rewrite (encode_points_lone_surrogate _ Hlone). reflexivity.
Qed.

End SearchRequest.
Section ListingRequest.

Import Value AccessibilityMap.

(** The parameters of the listing request for a filter state: one per
    flag that is on, then one per location type. *)
Definition listing_params (a b c d : bool) (types : list jsstring)
  : URI.URLSearchParams :=
  (if a then [(js "wheelchair", js "true")] else [])
  ++ (if b then [(js "visual", js "true")] else [])
  ++ (if c then [(js "hearing", js "true")] else [])
  ++ (if d then [(js "cognitive", js "true")] else [])
  ++ ((fun t => (js "type", t)) <$> types).

Lemma append_types (types : list jsstring) (p : URI.URLSearchParams) :
  fold_left (fun p type => URI.append (js "type") (Value.toString type) p)
    (Str <$> types) p
  = p ++ ((fun t => (js "type", t)) <$> types).
Proof.
  revert p. induction types as [| t types IH]; intros p.
  - cbn. rewrite app_nil_r. reflexivity.
  - cbn [fmap list_fmap fold_left]. rewrite IH. unfold URI.append.
    cbn [Value.toString]. rewrite <- app_assoc. reflexivity.
Qed.

Lemma filterParams_listing (a b c d : bool) (types : list jsstring) :
  filterParams (filter_state a b c d types) = Ok (listing_params a b c d types).
Proof.
  transitivity
    (Ok (fold_left (fun p type => URI.append (js "type") (Value.toString type) p)
           (Str <$> types) (listing_params a b c d [])) : outcome URI.URLSearchParams).
  - destruct a, b, c, d; reflexivity.
  - rewrite append_types. unfold listing_params.
    cbn [fmap list_fmap]. rewrite !app_nil_r, <- !app_assoc. reflexivity.
Qed.

(** [X17] [loadLocations] with a filter state in [this.currentFilters]:
    both layers are emptied, [this.markers] keeps the markers it has, and
    exactly one request is issued, for [/api/locations?] followed by one
    parameter for each flag that is on and one [type] parameter for each
    selected location type, in that order; with the default filters the
    query string is empty. *)
Theorem loadLocations_request (w : World) (a b c d : bool) (types : list jsstring) :
  currentFilters (mapObj w) = filter_state a b c d types ->
  exists w',
    loadLocations w = (Ok tt, w')
    /\ requests (platform w')
       = requests (platform w)
         ++ [js "/api/locations?" ++ URI.toString (listing_params a b c d types)]
    /\ layer_approved (mapObj w') = []
    /\ layer_pending (mapObj w') = []
    /\ markers (mapObj w') = markers (mapObj w)
    /\ URI.toString (listing_params false false false false []) = [].
Proof.
  intros Hf. destruct w as [pl doc ap fo [cf mk la lp]].
  cbn [mapObj currentFilters] in Hf. subst cf.
  unfold loadLocations, fetch. run.
  cbn [mapObj currentFilters set_layer_approved set_layer_pending on_mapObj].
  rewrite filterParams_listing. run.
  eexists. split; [reflexivity |]. repeat split; reflexivity.
Qed.

End ListingRequest.
Section SearchResultsDisplay.

Import Value AccessibilityMap.

(** The item [searchLocations] shows for a result record. *)
Definition result_item (props : list (jsstring * value)) : SearchNode :=
  ResultItem (toString (default Undefined (assoc (js "name") props)))
    (toString (or (default Undefined (assoc (js "address") props)) (Str [])))
    (Object props).

Lemma set_search_results_twice (a b : option SearchResults) (w : World) :
  set_search_results b (set_search_results a w) = set_search_results b w.
Proof. destruct w as [pl [bd an up fb tf fs nc sr ld] ap fo mo]. reflexivity. Qed.

Lemma search_results_set (a : option SearchResults) (w : World) :
  search_results (document (set_search_results a w)) = a.
Proof. destruct w as [pl [bd an up fb tf fs nc sr ld] ap fo mo]. reflexivity. Qed.

Lemma append_result_items (results : list (list (jsstring * value)))
    (children : list SearchNode) (display : option jsstring) (w : World) :
  Eff.forEach (Object <$> results)
    (fun result =>
       name ← Eff.lift (prop result "name");
       address ← Eff.lift (prop result "address");
       append_search_child
         (ResultItem (toString name) (toString (or address (Str []))) result))
    (set_search_results (Some {| sr_children := children; sr_display := display |}) w)
  = (Ok tt,
     set_search_results
       (Some {| sr_children := children ++ (result_item <$> results);
                sr_display := display |}) w).
Proof.
  revert children. induction results as [| props results IH]; intros children.
  - cbn [fmap list_fmap Eff.forEach]. rewrite app_nil_r. reflexivity.
  - cbn [fmap list_fmap Eff.forEach].
    change (Eff.bind ?m ?k) with (m ≫= k).
    rewrite bind_run. unfold prop, append_search_child. cbn [get]. run.
    rewrite search_results_set, set_search_results_twice.
    cbn [sr_children sr_display].
    fold (result_item props).
    rewrite IH, <- app_assoc. reflexivity.
Qed.

Lemma length_is_zero (l : list value) :
  is_number (Num (Number.of_Z (Z.of_nat (List.length l)))) 0
  = bool_decide (l = []).
Proof.
  destruct l as [| x l]; [reflexivity |].
  rewrite (bool_decide_eq_false_2 (x :: l = [])) by discriminate.
  cbn [List.length is_number]. rewrite Nat2Z.inj_succ, <- Z.add_1_r.
  destruct (Z.of_nat (List.length l) + 1) as [| p | p] eqn:E; try lia.
  pose proof (of_Z_positive p) as Hp.
  unfold Number.gt, SFltb in Hp. unfold Number.strict_eq, SFeqb.
  destruct (SFcompare (Number.of_Z 0) (Number.of_Z (Z.pos p))) as [[| |] |] eqn:Ec;
    try discriminate Hp.
  replace (SFcompare (Number.of_Z (Z.pos p)) (Number.of_Z 0))
    with (Some Gt : option comparison); [reflexivity |].
  symmetry.
  destruct (Number.of_Z (Z.pos p)) as [s | s | | s m e];
    change (Number.of_Z 0) with (S754_zero false) in *;
    cbn [SFcompare] in *; try discriminate Ec.
  - destruct s; [discriminate Ec | reflexivity].
  - destruct s; [discriminate Ec | reflexivity].
Qed.

(** [X18] The list [searchLocations] shows when the response is an
    object whose [results] is an array of records.  With results, the
    earlier content is replaced by one item per result, in order, showing
    its name and its address (nothing for a missing address), and the list
    is displayed as a block.  Without results the only child is the
    "No results found" text, and the display style is left as it was. *)
Theorem searchLocations_settled_shows_results
    (w : World) (sr : SearchResults) (body : jsstring)
    (data : list (jsstring * value)) (results : list (list (jsstring * value))) :
  search_results (document w) = Some sr ->
  JSON.parse body = Ok (Object data) ->
  assoc (js "results") data = Some (Array (Object <$> results)) ->
  searchLocations_settled (Response body) w
  = (Ok tt,
     set_search_results
       (Some (if bool_decide (results = [])
              then {| sr_children := [NoResultsNode]; sr_display := sr_display sr |}
              else {| sr_children := result_item <$> results;
                      sr_display := Some (js "block") |})) w).
Proof.
  intros Hsr Hparse Hresults.
  unfold searchLocations_settled, settle, Eff.try_catch, response_json.
  rewrite bind_run. unfold Eff.lift at 1. rewrite Hparse.
  rewrite bind_run. unfold set_search_children at 1, Eff.modify at 1. rewrite Hsr.
  rewrite bind_run. unfold Eff.lift at 1, prop at 1. cbn [get]. rewrite Hresults.
  cbn [default from_option id].
  rewrite bind_run. unfold Eff.lift at 1, prop at 1. cbn [get].
  rewrite (bool_decide_eq_true_2 (js "length" = js "length")) by reflexivity.
  rewrite length_is_zero.
  assert (bool_decide (Object <$> results = []) = bool_decide (results = [])) as ->.
  { apply bool_decide_ext. destruct results; split; intros H; try discriminate H;
      reflexivity. }
  destruct (bool_decide (results = [])).
  - unfold set_search_children, Eff.modify. rewrite search_results_set.
    rewrite set_search_results_twice. reflexivity.
  - rewrite bind_run. unfold Eff.lift at 1. cbn [as_array].
    rewrite bind_run, append_result_items.
    unfold Eff.modify. rewrite search_results_set, set_search_results_twice.
    reflexivity.
Qed.

End SearchResultsDisplay.
(** ** The further properties at work on a sample page *)

Section FurtherWitnesses.

Import Value.



Lemma password_rule_accepts_witness :
  FormValidator.validator FormValidator.password [] (js "Passw0rdX") Undefined
  = Ok true.
Proof.
  destruct (password_rule_accepts [] (js "Passw0rdX") Undefined)
    as (accepted & -> & Haccepted).
  f_equal. apply Haccepted.
  right. split; [vm_compute; discriminate |].
  split; [repeat constructor |].
  split; [apply Exists_cons_tl, Exists_cons_hd; reflexivity |].
  split; [apply Exists_cons_hd; reflexivity |].
  do 5 apply Exists_cons_tl. apply Exists_cons_hd. reflexivity.
Defined.

(** A field to be repeated in the field named [password]; the container
    still shows a message of an earlier validation, two levels down and with
    its classes separated by a tabulation. *)
Definition confirmation_field : FormValidator.Field := {|
  FormValidator.type := js "password"; FormValidator.name := js "confirm";
  FormValidator.value := js "Passw0rdX"; FormValidator.checked := false;
  FormValidator.has_required := true;
  FormValidator.minLength := -1; FormValidator.maxLength := -1;
  FormValidator.dataset := {[ js "match" := js "password" ]};
  FormValidator.aria_invalid := None; FormValidator.aria_describedby := None;
  FormValidator.container :=
    {| FormValidator.classList := [js "form-group"];
       FormValidator.children :=
         [ FormValidator.Elem
             {| FormValidator.tagName := js "div"; FormValidator.className := js "row";
                FormValidator.id := []; FormValidator.textContent := [];
                FormValidator.aria_live := None |}
             [ FormValidator.Elem
                 {| FormValidator.tagName := js "div";
                    FormValidator.className := js "hint" ++ [9%N] ++ js "error-message";
                    FormValidator.id := []; FormValidator.textContent := js "old";
                    FormValidator.aria_live := None |}
                 [] ] ] |}
|}.

Lemma validateField_display_witness :
  let r := FormValidator.validateField FormValidator.default_options [] []
             confirmation_field in
  exists ok,
    fst r = Ok ok
    /\ FormValidator.aria_invalid (snd r) = Some (js (if ok then "false" else "true"))
    /\ (if ok
        then FormValidator.children (FormValidator.container (snd r))
             = kept_children FormValidator.default_options confirmation_field
        else exists message,
            FormValidator.children (FormValidator.container (snd r))
            = kept_children FormValidator.default_options confirmation_field
              ++ [FormValidator.Elem
                    (error_element FormValidator.default_options [] confirmation_field
                       message) []]).
Proof.
  apply (validateField_display FormValidator.default_options [] [] confirmation_field).
  - reflexivity.
  - intros m H. vm_compute in H. injection H as <-. reflexivity.
Defined.

Lemma validateField_again_witness :
  (exists ok,
      fst (FormValidator.validateField FormValidator.default_options (js "a") []
             confirmation_field) = Ok ok)
  /\ FormValidator.validateField FormValidator.default_options (js "b") []
       (snd (FormValidator.validateField FormValidator.default_options (js "a") []
               confirmation_field))
     = FormValidator.validateField FormValidator.default_options (js "a") []
         confirmation_field.
Proof.
  apply (validateField_again FormValidator.default_options (js "a") (js "b") []
           confirmation_field).
  - reflexivity.
  - discriminate.
  - intros m H. vm_compute in H. injection H as <-. reflexivity.
Defined.

Definition sample_page : World := sample_world ∅ sample_document.

Lemma text_size_classes_stay_in_step_witness :
  size_classes_in_step (snd (AccessibilityApp.increaseTextSize sample_page))
  /\ size_classes_in_step (snd (AccessibilityApp.decreaseTextSize sample_page)).
Proof.
  apply text_size_classes_stay_in_step. split; reflexivity.
Defined.

Definition saved_preferences_page : World :=
  sample_world {[ AccessibilityApp.preferences_key := stored_xl_preferences ]}
    sample_document.

Lemma constructor_applies_saved_preferences_witness :
  exists w',
    AccessibilityApp.constructor true saved_preferences_page = (Ok tt, w')
    /\ highContrast (app w') = Bool true
    /\ textSize (app w') = xl
    /\ body_has w' "high-contrast" = true
    /\ size_classes_in_step w'.
Proof.
  apply (constructor_applies_saved_preferences saved_preferences_page true xl true
           stored_xl_preferences).
  - right. right. reflexivity.
  - vm_compute. reflexivity.
  - vm_compute. reflexivity.
  - reflexivity.
  - reflexivity.
  - reflexivity.
  - reflexivity.
Defined.

Lemma toggleFilterButton_spec_witness :
  exists w',
    AccessibilityFilters.toggleFilterButton 0 sample_page = (Ok tt, w')
    /\ filters (filtersObj w') = filter_state true false false false []
    /\ filter_buttons (document w')
       = <[0%nat := AccessibilityFilters.set_active
                      {| fb_filter := Some (js "wheelchair"); fb_active := false;
                         fb_aria_pressed := None |} true]>
           (filter_buttons (document sample_page)).
Proof.
  apply (toggleFilterButton_spec sample_page 0
           {| fb_filter := Some (js "wheelchair"); fb_active := false;
              fb_aria_pressed := None |}
           (js "wheelchair") false false false false []).
  - reflexivity.
  - reflexivity.
  - reflexivity.
  - apply list_elem_of_here.
Defined.

Lemma toggleTypeFilter_spec_witness :
  exists w' types',
    AccessibilityFilters.toggleTypeFilter 0 sample_page = (Ok tt, w')
    /\ filters (filtersObj w') = filter_state false false false false types'
    /\ (js "museum" ∈ types' <-> true = true)
    /\ (forall u, u <> js "museum" -> (u ∈ types' <-> u ∈ []))
    /\ (NoDup (@nil jsstring) -> NoDup types').
Proof.
  apply (toggleTypeFilter_spec sample_page 0
           {| tf_type := Some (js "museum"); tf_checked := true;
              tf_label := Some false |}
           (js "museum") false false false false []).
  - reflexivity.
  - reflexivity.
  - reflexivity.
Defined.

Lemma sample_buttons_name_filters (items : gmap jsstring jsstring) :
  buttons_name_filters (sample_world items sample_document).
Proof.
  unfold buttons_name_filters, filter_names.
  constructor; [intros k [= <-]; apply list_elem_of_here |].
  constructor; [intros k [= <-]; apply list_elem_of_further, list_elem_of_here |].
  constructor.
Defined.

Lemma setFromUserPreferences_spec_witness :
  exists w',
    AccessibilityFilters.setFromUserPreferences
      (Object [(js "needs_visual_assistance", Bool true)]) sample_page = (Ok tt, w')
    /\ filters (filtersObj w') = filter_state false true false false []
    /\ filter_buttons (document w')
       = marked (filter_state false true false false [])
           (filter_buttons (document sample_page)).
Proof.
  apply (proj1 (setFromUserPreferences_spec sample_page
                  [(js "needs_visual_assistance", Bool true)]
                  false false false false [] eq_refl
                  (sample_buttons_name_filters ∅))).
Defined.

Definition saved_filters_page : World :=
  sample_world
    {[ AccessibilityFilters.default_storageKey
       := filter_state_text true false false false [js "museum"] ]}
    sample_document.

Lemma constructor_restores_saved_filters_witness :
  exists w',
    AccessibilityFilters.constructor AccessibilityFilters.default_storageKey true
      saved_filters_page = (Ok tt, w')
    /\ filters (filtersObj w') = filter_state true false false false [js "museum"]
    /\ filter_buttons (document w')
       = marked (filter_state true false false false [js "museum"])
           (filter_buttons (document saved_filters_page))
    /\ type_filters (document w')
       = checked_boxes [js "museum"] (type_filters (document saved_filters_page)).
Proof.
  apply (constructor_restores_saved_filters saved_filters_page
           AccessibilityFilters.default_storageKey true
           true false false false [js "museum"]).
  - vm_compute. reflexivity.
  - apply sample_buttons_name_filters.
  - repeat constructor. eexists. reflexivity.
Defined.

Definition sample_locations : list (list (jsstring * value)) :=
  [ [ (js "id", Num (Number.of_Z 1)); (js "name", Str (js "Museum"));
      (js "lat", Num (Number.of_decimal false 4575 (-2)));
      (js "lng", Num (Number.of_decimal false 2122 (-2)));
      (js "is_approved", Bool true) ];
    [ (js "id", Num (Number.of_Z 2)); (js "name", Str (js "Park"));
      (js "lat", Num (Number.of_decimal false 4576 (-2)));
      (js "lng", Num (Number.of_decimal false 2123 (-2)));
      (js "is_approved", Bool false) ] ].

Lemma addMarkersToMap_sorts_markers_witness :
  exists ms w',
    Forall2 (fun props marker =>
               AccessibilityMap.createLocationMarker (Object props) = Ok marker)
      sample_locations ms
    /\ AccessibilityMap.addMarkersToMap (Array (Object <$> sample_locations)) sample_page
       = (Ok tt, w')
    /\ markers (mapObj w') = markers (mapObj sample_page) ++ ms
    /\ layer_approved (mapObj w')
       = layer_approved (mapObj sample_page)
         ++ markers_where true (zip sample_locations ms)
    /\ layer_pending (mapObj w')
       = layer_pending (mapObj sample_page)
         ++ markers_where false (zip sample_locations ms)
    /\ document w' = document sample_page.
Proof.
  apply (addMarkersToMap_sorts_markers sample_page sample_locations).
  repeat constructor; eexists _, _; repeat split; vm_compute; reflexivity.
Defined.

Lemma searchLocations_request_witness :
  exists q,
    URI.encodeURIComponent (js "a&b") = Ok q
    /\ AccessibilityMap.searchLocations (js "a&b") sample_page
       = (Ok tt,
          set_requests (requests (platform sample_page) ++ [js "/api/search?q=" ++ q])
            sample_page)
    /\ Forall query_safe q.
Proof.
  apply (proj2 (searchLocations_request sample_page (js "a&b"))).
  - eexists. reflexivity.
  - repeat constructor.
  - intros H. vm_compute in H.
    repeat (apply elem_of_cons in H as [H | H]; [discriminate H |]).
    apply elem_of_nil in H. exact H.
Defined.

Lemma loadLocations_request_witness :
  exists w',
    AccessibilityMap.loadLocations sample_page = (Ok tt, w')
    /\ requests (platform w')
       = requests (platform sample_page)
         ++ [js "/api/locations?"
             ++ URI.toString (listing_params false false false false [])]
    /\ layer_approved (mapObj w') = []
    /\ layer_pending (mapObj w') = []
    /\ markers (mapObj w') = markers (mapObj sample_page)
    /\ URI.toString (listing_params false false false false []) = [].
Proof.
  apply (loadLocations_request sample_page false false false false []).
  reflexivity.
Defined.

(** A response of the search endpoint without results. *)
Definition empty_results_body : jsstring :=
  js "{" ++ JSON.quote (js "results") ++ js ":[]}".

Lemma searchLocations_settled_shows_results_witness :
  AccessibilityMap.searchLocations_settled (Response empty_results_body) sample_page
  = (Ok tt,
     set_search_results
       (Some {| sr_children := [NoResultsNode]; sr_display := None |}) sample_page).
Proof.
  apply (searchLocations_settled_shows_results sample_page
           {| sr_children := []; sr_display := None |} empty_results_body
           [(js "results", Array [])] []).
  - reflexivity.
  - vm_compute. reflexivity.
  - reflexivity.
Defined.

End FurtherWitnesses.
